(** * Terrain tiles: heightmap codec, interpolation, child availability,
      terrain cache and request coordination.

    A shallow embedding of [HeightmapTerrainData] and of
    [GoogleEarthEnterpriseTerrainProvider] (with its [TerrainCache]).

    Conventions of the embedding.
    - A JavaScript number is an exact rational or [NaN] ([Number], an
      [option Qc]) where the properties are about which samples are read,
      written and combined: there the rounding of doubles and the infinities
      are outside the model, and a division by zero yields [NaN].  The
      height codec is given a second time in double precision (module
      [Binary64]: IEEE 754 binary64 with round to nearest, ties to even,
      the infinities and the two zeros, compared with the doubles of the
      machine on a table of operands); its round trip is stated there.
      Tile coordinates, element counts and array indices, which the code
      only ever uses as integers, are in [Z].
    - [undefined] is [None]; in arithmetic it behaves as [NaN].
    - A typed array is its element type and the list of its elements; a
      write converts the value to the element type, a write out of range is
      dropped and a read out of range yields [undefined].
    - An object used as a dictionary is a [gmap string _].
    - A thrown exception is the [Throw] case of a [completion].
    - The clock ([JulianDate.now]) is an input of every operation that reads
      it; a time is a number of seconds in [Q].
    - A promise in flight is the list of the continuations chained on it;
      its settlement is an event that runs them.  [always(f)] is
      [then(f, f)], so the promise it returns is fulfilled even after a
      rejection; the order in which the continuations of one promise run is
      a parameter of the settlement. *)

From Stdlib Require Import ZArith QArith Qcanon Qround Qpower Floats Lia Lqa.
From stdpp Require Import gmap strings pretty list fin_maps.

Local Open Scope Z_scope.

(** ** Numbers *)

Abbreviation Number := (option Qc).

Definition ofZ (z : Z) : Qc := Q2Qc (inject_Z z).
Definition num (z : Z) : Number := Some (ofZ z).
Definition NaN : Number := None.

Definition lift2 (f : Qc -> Qc -> Qc) (a b : Number) : Number :=
  match a, b with
  | Some x, Some y => Some (f x y)
  | _, _ => None
  end.

Definition nadd : Number -> Number -> Number := lift2 Qcplus.
Definition nsub : Number -> Number -> Number := lift2 Qcminus.
Definition nmul : Number -> Number -> Number := lift2 Qcmult.
Definition ndiv (a b : Number) : Number :=
  match a, b with
  | Some x, Some y => if decide (y = 0%Qc) then None else Some (x / y)%Qc
  | _, _ => None
  end.

Declare Scope js_scope.
Delimit Scope js_scope with js.
Infix "+" := nadd : js_scope.
Infix "-" := nsub : js_scope.
Infix "*" := nmul : js_scope.
Infix "/" := ndiv : js_scope.

(** [a < b]: false when either side is [NaN] or [undefined]. *)
Definition ltNumber (a b : Number) : bool :=
  match a, b with
  | Some x, Some y => match (x ?= y)%Qc with Lt => true | _ => false end
  | _, _ => false
  end.

(** ECMAScript [ToInteger] of a finite number: truncation toward zero. *)
Definition ToInteger (x : Qc) : Z :=
  if Qle_bool 0 x then Qfloor x else Qceiling x.

Definition wrapSigned (bits : Z) (z : Z) : Z :=
  (z + 2 ^ (bits - 1)) mod 2 ^ bits - 2 ^ (bits - 1).

(** [x | 0]: [NaN] gives 0. *)
Definition ToInt32 (x : Number) : Z :=
  match x with
  | Some q => wrapSigned 32 (ToInteger q)
  | None => 0
  end.

(** [a << b], [a & b] and [a | b] on integer-valued numbers. *)
Definition shiftLeft (a b : Z) : Z :=
  wrapSigned 32 (Z.shiftl (wrapSigned 32 a) (b mod 32)).
Definition bitAnd (a b : Z) : Z := Z.land (wrapSigned 32 a) (wrapSigned 32 b).
Definition bitOr (a b : Z) : Z := Z.lor (wrapSigned 32 a) (wrapSigned 32 b).

(** [defaultValue(a, b)] *)
Definition defaultValue {A : Type} (a : option A) (b : A) : A :=
  match a with Some v => v | None => b end.

(** ** Exceptions *)

Inductive Error :=
| DeveloperError (message : string)
| RuntimeError (message : string)
| TypeError (message : string).

Inductive completion (A : Type) :=
| Return (value : A)
| Throw (error : Error).
Arguments Return {A} value.
Arguments Throw {A} error.

(** ** Typed arrays *)

Inductive ArrayType :=
| Int8Array | Uint8Array | Int16Array | Uint16Array
| Int32Array | Uint32Array | Float64Array.

(** The conversion a typed array applies to a number stored in it. *)
Definition toElement (ty : ArrayType) (x : Number) : Number :=
  match ty, x with
  | Float64Array, _ => x
  | _, None => num 0
  | Int8Array, Some q => num (wrapSigned 8 (ToInteger q))
  | Uint8Array, Some q => num (ToInteger q mod 2 ^ 8)
  | Int16Array, Some q => num (wrapSigned 16 (ToInteger q))
  | Uint16Array, Some q => num (ToInteger q mod 2 ^ 16)
  | Int32Array, Some q => num (wrapSigned 32 (ToInteger q))
  | Uint32Array, Some q => num (ToInteger q mod 2 ^ 32)
  end.

Record TypedArray := {
  elementType : ArrayType;
  elements : list Number
}.

(** [heights[n]], as used in arithmetic. *)
Definition readElement (heights : TypedArray) (n : Z) : Number :=
  if decide (0 <= n) then
    match elements heights !! Z.to_nat n with
    | Some v => v
    | None => NaN
    end
  else NaN.

(** [heights[n] = v] *)
Definition writeElement (heights : TypedArray) (n : Z) (v : Number)
  : TypedArray :=
  if decide (0 <= n) then
    {| elementType := elementType heights;
       elements := <[Z.to_nat n := toElement (elementType heights) v]> (elements heights) |}
  else heights.

(** [new bufferType(n)]: [n] zeros. *)
Definition newArray (ty : ArrayType) (n : Z) : TypedArray :=
  {| elementType := ty; elements := replicate (Z.to_nat n) (num 0) |}.

(** ** HeightmapTerrainData: the height codec *)

(** The body of both loops of [getHeight]: [n] iterations left, [i] the
    loop counter, [step] its increment ([+1] big-endian, [-1] otherwise). *)
Fixpoint getHeight_loop (heights : TypedArray) (elementMultiplier : Number)
    (index : Z) (n : nat) (i step : Z) (height : Number) : Number :=
  match n with
  | O => height
  | S n' =>
      getHeight_loop heights elementMultiplier index n' (i + step) step
        (height * elementMultiplier + readElement heights (index + i))%js
  end.

Definition getHeight (heights : TypedArray) (elementsPerHeight : Z)
    (elementMultiplier : Number) (stride : Z) (isBigEndian : bool) (index : Z)
  : Number :=
  let index := index * stride in
  let height := num 0 in
  if isBigEndian then
    (* for (i = 0; i < elementsPerHeight; ++i) *)
    getHeight_loop heights elementMultiplier index
      (Z.to_nat elementsPerHeight) 0 1 height
  else
    (* for (i = elementsPerHeight - 1; i >= 0; --i) *)
    getHeight_loop heights elementMultiplier index
      (Z.to_nat elementsPerHeight) (elementsPerHeight - 1) (-1) height.

(** The body of both loops of [setHeight].  The result is the array, the
    remaining height and the value of [i] when the loop ends. *)
Fixpoint setHeight_loop (elementMultiplier : Number) (index : Z)
    (n : nat) (i step : Z) (heights : TypedArray) (height divisor : Number)
  : TypedArray * Number * Z :=
  match n with
  | O => (heights, height, i)
  | S n' =>
      let heights :=
        writeElement heights (index + i) (num (ToInt32 (height / divisor)%js)) in
      let height := (height - readElement heights (index + i) * divisor)%js in
      let divisor := (divisor / elementMultiplier)%js in
      setHeight_loop elementMultiplier index n' (i + step) step heights
        height divisor
  end.

Definition setHeight (heights : TypedArray) (elementsPerHeight : Z)
    (elementMultiplier divisor : Number) (stride : Z) (isBigEndian : bool)
    (index : Z) (height : Number) : TypedArray :=
  let index := index * stride in
  let '(heights, height, i) :=
    if isBigEndian then
      (* for (i = 0; i < elementsPerHeight - 1; ++i) *)
      setHeight_loop elementMultiplier index
        (Z.to_nat (elementsPerHeight - 1)) 0 1 heights height divisor
    else
      (* for (i = elementsPerHeight - 1; i > 0; --i) *)
      setHeight_loop elementMultiplier index
        (Z.to_nat (elementsPerHeight - 1)) (elementsPerHeight - 1) (-1)
        heights height divisor in
  writeElement heights (index + i) height.

(** [Math.pow(x, n)] for an integer exponent [n]. *)
Definition powNumber (x : Number) (n : Z) : Number :=
  match x with
  | Some q =>
      if decide (0 <= n) then Some (Qcpower q (Z.to_nat n))
      else (num 1 / Some (Qcpower q (Z.to_nat (- n))))%js
  | None => if decide (n = 0) then num 1 else NaN
  end.

(** ** The height codec in double precision *)

(** The codec once more, with the arithmetic of the numbers of JavaScript:
    IEEE 754 binary64, every operation yielding the exact result rounded to
    the nearest value of the format, ties to the even significand. *)
Module Binary64.

(** A finite value is a sign and a magnitude, so that the two zeros are
    told apart; the magnitude is a rational that the format represents. *)
Inductive double :=
| Finite (negative : bool) (magnitude : Qc)
| Infinite (negative : bool)
| NaN.

(** The exponent of the binade of [x > 0]: the largest [e] with
    [2 ^ e <= x]. *)
Definition floorLog2 (x : Q) : Z :=
  let l := Z.log2 (Qnum x) - Z.log2 (Zpos (Qden x)) in
  if Qle_bool (2 ^ l) x then l else l - 1.

(** The nearest integer, the even one of two that are equally near. *)
Definition roundHalfEven (x : Q) : Z :=
  let k := Qfloor x in
  match (x - inject_Z k ?= 1 # 2)%Q with
  | Lt => k
  | Gt => k + 1
  | Eq => if Z.even k then k else k + 1
  end.

(** The spacing of the format at [x > 0]: a significand of 53 bits, and the
    spacing [2 ^ -1074] of the subnormal numbers below [2 ^ -1022]. *)
Definition ulp (x : Q) : Q := (2 ^ (Z.max (floorLog2 x) (-1022) - 52))%Q.

Definition roundMagnitude (x : Q) : Q :=
  if Qle_bool x 0 then 0%Q
  else (inject_Z (roundHalfEven (x / ulp x)) * ulp x)%Q.

(** The value of the format for the exact magnitude [x >= 0]; a rounded
    magnitude of [2 ^ 1024] or more overflows. *)
Definition round (negative : bool) (x : Q) : double :=
  let r := roundMagnitude x in
  if Qle_bool (2 ^ 1024) r then Infinite negative
  else Finite negative (Q2Qc r).

Definition signed (negative : bool) (x : Qc) : Q :=
  if negative then (- x)%Q else x.

(** [a + b]; an exact sum of zero is [-0] only for [-0 + -0]. *)
Definition add (a b : double) : double :=
  match a, b with
  | NaN, _ | _, NaN => NaN
  | Infinite s, Infinite t => if Bool.eqb s t then Infinite s else NaN
  | Infinite s, Finite _ _ => Infinite s
  | Finite _ _, Infinite t => Infinite t
  | Finite s x, Finite t y =>
      let z := (signed s x + signed t y)%Q in
      if Qeq_bool z 0 then Finite (s && t) 0%Qc
      else if Qle_bool 0 z then round false z
      else round true (- z)
  end.

Definition opp (a : double) : double :=
  match a with
  | Finite s x => Finite (negb s) x
  | Infinite s => Infinite (negb s)
  | NaN => NaN
  end.

(** [a - b] *)
Definition sub (a b : double) : double := add a (opp b).

(** [a * b] *)
Definition mul (a b : double) : double :=
  match a, b with
  | NaN, _ | _, NaN => NaN
  | Infinite s, Infinite t => Infinite (xorb s t)
  | Infinite s, Finite t y | Finite t y, Infinite s =>
      if decide (y = 0%Qc) then NaN else Infinite (xorb s t)
  | Finite s x, Finite t y => round (xorb s t) (x * y)%Q
  end.

(** [a / b] *)
Definition div (a b : double) : double :=
  match a, b with
  | NaN, _ | _, NaN => NaN
  | Infinite _, Infinite _ => NaN
  | Infinite s, Finite t _ => Infinite (xorb s t)
  | Finite s _, Infinite t => Finite (xorb s t) 0%Qc
  | Finite s x, Finite t y =>
      if decide (y = 0%Qc) then
        if decide (x = 0%Qc) then NaN else Infinite (xorb s t)
      else round (xorb s t) (x / y)%Q
  end.

(** The number that an integer literal or an integer result denotes. *)
Definition num (z : Z) : double := round (z <? 0) (inject_Z (Z.abs z)).

(** ECMAScript [ToInteger]: truncation toward zero, 0 for [NaN]; the
    conversions below map the infinities to 0 as well. *)
Definition ToInteger (x : double) : Z :=
  match x with
  | Finite s q => if s then - Qfloor q else Qfloor q
  | _ => 0
  end.

(** [x | 0] *)
Definition ToInt32 (x : double) : Z := wrapSigned 32 (ToInteger x).

(** The conversion a typed array applies to a number stored in it. *)
Definition toElement (ty : ArrayType) (x : double) : double :=
  match ty with
  | Float64Array => x
  | Int8Array => num (wrapSigned 8 (ToInteger x))
  | Uint8Array => num (ToInteger x mod 2 ^ 8)
  | Int16Array => num (wrapSigned 16 (ToInteger x))
  | Uint16Array => num (ToInteger x mod 2 ^ 16)
  | Int32Array => num (wrapSigned 32 (ToInteger x))
  | Uint32Array => num (ToInteger x mod 2 ^ 32)
  end.

Record TypedArray := {
  elementType : ArrayType;
  elements : list double
}.

(** [heights[n]], as used in arithmetic. *)
Definition readElement (heights : TypedArray) (n : Z) : double :=
  if decide (0 <= n) then
    match elements heights !! Z.to_nat n with
    | Some v => v
    | None => NaN
    end
  else NaN.

(** [heights[n] = v] *)
Definition writeElement (heights : TypedArray) (n : Z) (v : double)
  : TypedArray :=
  if decide (0 <= n) then
    {| elementType := elementType heights;
       elements := <[Z.to_nat n := toElement (elementType heights) v]> (elements heights) |}
  else heights.

(** [new bufferType(n)]: [n] zeros. *)
Definition newArray (ty : ArrayType) (n : Z) : TypedArray :=
  {| elementType := ty; elements := replicate (Z.to_nat n) (num 0) |}.

(** [getHeight] and [setHeight], as above. *)
Fixpoint getHeight_loop (heights : TypedArray) (elementMultiplier : double)
    (index : Z) (n : nat) (i step : Z) (height : double) : double :=
  match n with
  | O => height
  | S n' =>
      getHeight_loop heights elementMultiplier index n' (i + step) step
        (add (mul height elementMultiplier) (readElement heights (index + i)))
  end.

Definition getHeight (heights : TypedArray) (elementsPerHeight : Z)
    (elementMultiplier : double) (stride : Z) (isBigEndian : bool) (index : Z)
  : double :=
  let index := index * stride in
  let height := num 0 in
  if isBigEndian then
    (* for (i = 0; i < elementsPerHeight; ++i) *)
    getHeight_loop heights elementMultiplier index
      (Z.to_nat elementsPerHeight) 0 1 height
  else
    (* for (i = elementsPerHeight - 1; i >= 0; --i) *)
    getHeight_loop heights elementMultiplier index
      (Z.to_nat elementsPerHeight) (elementsPerHeight - 1) (-1) height.

Fixpoint setHeight_loop (elementMultiplier : double) (index : Z)
    (n : nat) (i step : Z) (heights : TypedArray) (height divisor : double)
  : TypedArray * double * Z :=
  match n with
  | O => (heights, height, i)
  | S n' =>
      let heights :=
        writeElement heights (index + i) (num (ToInt32 (div height divisor))) in
      let height := sub height (mul (readElement heights (index + i)) divisor) in
      let divisor := div divisor elementMultiplier in
      setHeight_loop elementMultiplier index n' (i + step) step heights
        height divisor
  end.

Definition setHeight (heights : TypedArray) (elementsPerHeight : Z)
    (elementMultiplier divisor : double) (stride : Z) (isBigEndian : bool)
    (index : Z) (height : double) : TypedArray :=
  let index := index * stride in
  let '(heights, height, i) :=
    if isBigEndian then
      (* for (i = 0; i < elementsPerHeight - 1; ++i) *)
      setHeight_loop elementMultiplier index
        (Z.to_nat (elementsPerHeight - 1)) 0 1 heights height divisor
    else
      (* for (i = elementsPerHeight - 1; i > 0; --i) *)
      setHeight_loop elementMultiplier index
        (Z.to_nat (elementsPerHeight - 1)) (elementsPerHeight - 1) (-1)
        heights height divisor in
  writeElement heights (index + i) height.

End Binary64.

(** *** The doubles of the machine

    The primitive floating-point numbers of Rocq are the binary64 numbers
    of the processor.  They serve to compare the rounding written out in
    [Binary64] with that of the machine. *)

(** The value that the machine computed, as a [Binary64.double]. *)
Definition ofFloat (x : float) : Binary64.double :=
  match Prim2SF x with
  | S754_zero s => Binary64.Finite s 0%Qc
  | S754_infinity s => Binary64.Infinite s
  | S754_nan => Binary64.NaN
  | S754_finite s m e => Binary64.Finite s (Q2Qc (inject_Z (Zpos m) * 2 ^ e))
  end.

(** The double of the machine for an integer below 2^63 in magnitude. *)
Definition toFloat (z : Z) : float :=
  let x := PrimFloat.of_uint63 (Uint63.of_Z (Z.abs z)) in
  if z <? 0 then PrimFloat.opp x else x.

(** The same value of the format: the zeros are told apart, [NaN] is
    itself. *)
Definition sameValue (a b : Binary64.double) : bool :=
  match a, b with
  | Binary64.Finite s x, Binary64.Finite t y => Bool.eqb s t && Qeq_bool x y
  | Binary64.Infinite s, Binary64.Infinite t => Bool.eqb s t
  | Binary64.NaN, Binary64.NaN => true
  | _, _ => false
  end.

Definition operations
  : list ((float -> float -> float)
          * (Binary64.double -> Binary64.double -> Binary64.double)) :=
  [(PrimFloat.add, Binary64.add); (PrimFloat.sub, Binary64.sub);
   (PrimFloat.mul, Binary64.mul); (PrimFloat.div, Binary64.div)].

Definition operands : list Z :=
  [0; 1; -1; 2; 3; -7; 10; 255; 256; 9823; 179187; 709397; 1000003;
   9823029469; 9823738866; 709399128191; 709399307378; 1000006000009;
   9823058938088408; 9823768337216598; 9823768337395786; 2 ^ 53;
   2 ^ 53 + 1; - (2 ^ 53 + 3); 2 ^ 62 - 1; 4611686018427387393].

(** [x], [x * y], [x * y * y], ... on the machine and in [Binary64]. *)
Fixpoint products (n : nat) (x y : float) (a b : Binary64.double)
  : list (float * Binary64.double) :=
  match n with
  | O => []
  | S n' => (x, a) :: products n' (PrimFloat.mul x y) y (Binary64.mul a b) b
  end.

(** ** HeightmapTerrainData: interpolation *)

Record Rectangle := {
  west : Number;
  south : Number;
  east : Number;
  north : Number
}.

Definition triangleInterpolateHeight
    (dX dY southwestHeight southeastHeight northwestHeight northeastHeight : Number)
  : Number :=
  (* The HeightmapTessellator bisects the quad from southwest to northeast. *)
  if ltNumber dY dX then
    (* Lower right triangle *)
    (southwestHeight + (dX * (southeastHeight - southwestHeight))
       + (dY * (northeastHeight - southeastHeight)))%js
  else
    (* Upper left triangle *)
    (southwestHeight + (dX * (northeastHeight - northwestHeight))
       + (dY * (northwestHeight - southwestHeight)))%js.

Definition interpolateHeight (sourceHeights : TypedArray)
    (elementsPerHeight : Z) (elementMultiplier : Number) (stride : Z)
    (isBigEndian : bool) (sourceRectangle : Rectangle) (width height : Z)
    (longitude latitude : Number) : Number :=
  let fromWest :=
    ((longitude - west sourceRectangle) * num (width - 1)
       / (east sourceRectangle - west sourceRectangle))%js in
  let fromSouth :=
    ((latitude - south sourceRectangle) * num (height - 1)
       / (north sourceRectangle - south sourceRectangle))%js in
  let westInteger := ToInt32 fromWest in
  let eastInteger := westInteger + 1 in
  let '(eastInteger, westInteger) :=
    if decide (eastInteger >= width) then (width - 1, width - 2)
    else (eastInteger, westInteger) in
  let southInteger := ToInt32 fromSouth in
  let northInteger := southInteger + 1 in
  let '(northInteger, southInteger) :=
    if decide (northInteger >= height) then (height - 1, height - 2)
    else (northInteger, southInteger) in
  let dx := (fromWest - num westInteger)%js in
  let dy := (fromSouth - num southInteger)%js in
  let southInteger := height - 1 - southInteger in
  let northInteger := height - 1 - northInteger in
  let southwestHeight :=
    getHeight sourceHeights elementsPerHeight elementMultiplier stride
      isBigEndian (southInteger * width + westInteger) in
  let southeastHeight :=
    getHeight sourceHeights elementsPerHeight elementMultiplier stride
      isBigEndian (southInteger * width + eastInteger) in
  let northwestHeight :=
    getHeight sourceHeights elementsPerHeight elementMultiplier stride
      isBigEndian (northInteger * width + westInteger) in
  let northeastHeight :=
    getHeight sourceHeights elementsPerHeight elementMultiplier stride
      isBigEndian (northInteger * width + eastInteger) in
  triangleInterpolateHeight dx dy southwestHeight southeastHeight
    northwestHeight northeastHeight.

(** [TerrainEncoding], of which this module uses the capability to decode
    the height of a vertex and the vertex stride. *)
Record TerrainEncoding := {
  decodeHeight : list Number -> Z -> Number;
  getStride : Z
}.

Definition interpolateMeshHeight (buffer : list Number)
    (encoding : TerrainEncoding) (heightOffset heightScale skirtHeight : Number)
    (sourceRectangle : Rectangle) (width height : Z)
    (longitude latitude exaggeration : Number) : Number :=
  (* returns a height encoded according to the structure's heightScale and
     heightOffset. *)
  let fromWest :=
    ((longitude - west sourceRectangle) * num (width - 1)
       / (east sourceRectangle - west sourceRectangle))%js in
  let fromSouth :=
    ((latitude - south sourceRectangle) * num (height - 1)
       / (north sourceRectangle - south sourceRectangle))%js in
  let skirted := ltNumber (num 0) skirtHeight in
  let '(fromWest, fromSouth, width, height) :=
    if skirted then
      ((fromWest + num 1)%js, (fromSouth + num 1)%js, width + 2, height + 2)
    else (fromWest, fromSouth, width, height) in
  let widthEdge := if skirted then width - 1 else width in
  let westInteger := ToInt32 fromWest in
  let eastInteger := westInteger + 1 in
  let '(eastInteger, westInteger) :=
    if decide (eastInteger >= widthEdge) then (width - 1, width - 2)
    else (eastInteger, westInteger) in
  let heightEdge := if skirted then height - 1 else height in
  let southInteger := ToInt32 fromSouth in
  let northInteger := southInteger + 1 in
  let '(northInteger, southInteger) :=
    if decide (northInteger >= heightEdge) then (height - 1, height - 2)
    else (northInteger, southInteger) in
  let dx := (fromWest - num westInteger)%js in
  let dy := (fromSouth - num southInteger)%js in
  let southInteger := height - 1 - southInteger in
  let northInteger := height - 1 - northInteger in
  let decoded (n : Z) : Number :=
    ((decodeHeight encoding buffer n / exaggeration - heightOffset)
       / heightScale)%js in
  let southwestHeight := decoded (southInteger * width + westInteger) in
  let southeastHeight := decoded (southInteger * width + eastInteger) in
  let northwestHeight := decoded (northInteger * width + westInteger) in
  let northeastHeight := decoded (northInteger * width + eastInteger) in
  triangleInterpolateHeight dx dy southwestHeight southeastHeight
    northwestHeight northeastHeight.

(** ** HeightmapTerrainData: the object *)

Record Structure := {
  heightScale : Number;
  heightOffset : Number;
  elementsPerHeight : Z;
  stride : Z;
  elementMultiplier : Number;
  isBigEndian : bool;
  lowestEncodedHeight : Number;
  highestEncodedHeight : Number
}.

(** [options.structure]: every property may be missing. *)
Record StructureOptions := {
  opt_heightScale : option Qc;
  opt_heightOffset : option Qc;
  opt_elementsPerHeight : option Z;
  opt_stride : option Z;
  opt_elementMultiplier : option Qc;
  opt_isBigEndian : option bool;
  opt_lowestEncodedHeight : option Qc;
  opt_highestEncodedHeight : option Qc
}.

(** Modelled from the spec: [HeightmapTessellator.DEFAULT_STRUCTURE], with
    the defaults the constructor documents (scale 1, offset 0, one element
    per height, stride 1, multiplier 256, little-endian, no clamp). *)
Definition DEFAULT_STRUCTURE : Structure := {|
  heightScale := num 1;
  heightOffset := num 0;
  elementsPerHeight := 1;
  stride := 1;
  elementMultiplier := num 256;
  isBigEndian := false;
  lowestEncodedHeight := None;
  highestEncodedHeight := None
|}.

Definition Cartesian3 : Type := Number * Number * Number.

(** The parts of the tessellator's result that are only passed on. *)
Record MeshBounds := {
  boundingSphere3D : Cartesian3 * Number;
  occludeePointInScaledSpace : Cartesian3;
  orientedBoundingBox : Cartesian3 * list Number;
  westIndicesSouthToNorth : list Z;
  southIndicesEastToWest : list Z;
  eastIndicesNorthToSouth : list Z;
  northIndicesWestToEast : list Z
}.

(** What [createVerticesFromHeightmap] and
    [HeightmapTessellator.computeVertices] answer. *)
Record TessellatorResult := {
  result_vertices : list Number;
  gridWidth : Z;
  gridHeight : Z;
  result_minimumHeight : Number;
  result_maximumHeight : Number;
  numberOfAttributes : Z;
  result_encoding : TerrainEncoding;
  result_bounds : MeshBounds
}.

Record TerrainMesh := {
  center : Cartesian3;
  vertices : list Number;
  indices : list Z;
  minimumHeight : Number;
  maximumHeight : Number;
  mesh_stride : Z;
  encoding : TerrainEncoding;
  exaggeration : Number;
  bounds : MeshBounds
}.

Record TilingScheme := {
  tileXYToNativeRectangle : Z -> Z -> Z -> Rectangle;
  tileXYToRectangle : Z -> Z -> Z -> Rectangle;
  getNumberOfXTilesAtLevel : Z -> Z;
  (* ellipsoid.cartographicToCartesian(Rectangle.center(rectangle)) *)
  centerOfRectangle : Rectangle -> Cartesian3;
  (* TerrainProvider.getEstimatedLevelZeroGeometricErrorForAHeightmap(
       ellipsoid, width, numberOfTilesAtLevelZero) *)
  getEstimatedLevelZeroGeometricErrorForAHeightmap : Z -> Z -> Number;
  (* projection instanceof GeographicProjection *)
  isGeographic : bool
}.

Record HeightmapTerrainData := {
  _buffer : option TypedArray;
  _width : Z;
  _height : Z;
  _childTileMask : Z;
  _structure : Structure;
  _createdByUpsampling : bool;
  _waterMask : option TypedArray;
  _skirtHeight : Number;
  _bufferType : ArrayType;
  _mesh : option TerrainMesh
}.

Record Options := {
  opt_buffer : option TypedArray;
  opt_width : option Z;
  opt_height : option Z;
  opt_childTileMask : option Z;
  opt_waterMask : option TypedArray;
  opt_structure : option StructureOptions;
  opt_createdByUpsampling : option bool
}.

(** The constructor.  A structure given in the options has its missing
    properties filled from the default structure. *)
Definition HeightmapTerrainData_new (options : option Options)
  : completion HeightmapTerrainData :=
  match options with
  | None => Throw (DeveloperError "options.buffer is required.")
  | Some options =>
  match opt_buffer options with
  | None => Throw (DeveloperError "options.buffer is required.")
  | Some buffer =>
  match opt_width options with
  | None => Throw (DeveloperError "options.width is required.")
  | Some width =>
  match opt_height options with
  | None => Throw (DeveloperError "options.height is required.")
  | Some height =>
      let defaultStructure := DEFAULT_STRUCTURE in
      let structure :=
        match opt_structure options with
        | None => defaultStructure
        | Some s =>
            {| heightScale :=
                 Some (defaultValue (opt_heightScale s) (ofZ 1));
               heightOffset :=
                 Some (defaultValue (opt_heightOffset s) (ofZ 0));
               elementsPerHeight :=
                 defaultValue (opt_elementsPerHeight s)
                   (elementsPerHeight defaultStructure);
               stride := defaultValue (opt_stride s) (stride defaultStructure);
               elementMultiplier :=
                 Some (defaultValue (opt_elementMultiplier s) (ofZ 256));
               isBigEndian :=
                 defaultValue (opt_isBigEndian s) (isBigEndian defaultStructure);
               lowestEncodedHeight := opt_lowestEncodedHeight s;
               highestEncodedHeight := opt_highestEncodedHeight s |}
        end in
      Return {|
        _buffer := Some buffer;
        _width := width;
        _height := height;
        _childTileMask := defaultValue (opt_childTileMask options) 15;
        _structure := structure;
        _createdByUpsampling :=
          defaultValue (opt_createdByUpsampling options) false;
        _waterMask := opt_waterMask options;
        _skirtHeight := None;
        _bufferType := elementType buffer;
        _mesh := None
      |}
  end end end end.

(** [Math.min(a, b)] *)
Definition minNumber (a b : Number) : Number :=
  match a, b with
  | Some _, Some _ => if ltNumber b a then b else a
  | _, _ => NaN
  end.

(** The skirt height both mesh builders store in the tile first. *)
Definition computeSkirtHeight (this : HeightmapTerrainData)
    (tilingScheme : TilingScheme) (level : Z) : Number :=
  let levelZeroMaxError :=
    getEstimatedLevelZeroGeometricErrorForAHeightmap tilingScheme
      (_width this) (getNumberOfXTilesAtLevel tilingScheme 0) in
  let thisLevelMaxError := (levelZeroMaxError / num (shiftLeft 1 level))%js in
  minNumber (thisLevelMaxError * num 4)%js (num 1000).

Definition setSkirtHeight (this : HeightmapTerrainData) (h : Number)
  : HeightmapTerrainData :=
  {| _buffer := _buffer this; _width := _width this; _height := _height this;
     _childTileMask := _childTileMask this; _structure := _structure this;
     _createdByUpsampling := _createdByUpsampling this;
     _waterMask := _waterMask this; _skirtHeight := h;
     _bufferType := _bufferType this; _mesh := _mesh this |}.

Definition setBuffer (this : HeightmapTerrainData) (b : option TypedArray)
  : HeightmapTerrainData :=
  {| _buffer := b; _width := _width this; _height := _height this;
     _childTileMask := _childTileMask this; _structure := _structure this;
     _createdByUpsampling := _createdByUpsampling this;
     _waterMask := _waterMask this; _skirtHeight := _skirtHeight this;
     _bufferType := _bufferType this; _mesh := _mesh this |}.

Definition setMesh (this : HeightmapTerrainData) (m : option TerrainMesh)
  : HeightmapTerrainData :=
  {| _buffer := _buffer this; _width := _width this; _height := _height this;
     _childTileMask := _childTileMask this; _structure := _structure this;
     _createdByUpsampling := _createdByUpsampling this;
     _waterMask := _waterMask this; _skirtHeight := _skirtHeight this;
     _bufferType := _bufferType this; _mesh := m |}.

(** The argument checks shared by [createMesh] and [_createMeshSync]. *)
Definition checkMeshArguments (tilingScheme : option TilingScheme)
    (x y level : option Z) : completion (TilingScheme * Z * Z * Z) :=
  match tilingScheme with
  | None => Throw (DeveloperError "tilingScheme is required.")
  | Some ts =>
  match x with
  | None => Throw (DeveloperError "x is required.")
  | Some x =>
  match y with
  | None => Throw (DeveloperError "y is required.")
  | Some y =>
  match level with
  | None => Throw (DeveloperError "level is required.")
  | Some level => Return (ts, x, y, level)
  end end end end.

(** [createMesh], up to the point where it returns: the skirt height is
    stored and the tessellation is handed to the task processor, which
    either postpones it ([scheduled = false]: [undefined] is returned) or
    answers a promise.  The result is the tile and whether a promise was
    returned. *)
Definition createMesh (this : HeightmapTerrainData)
    (tilingScheme : option TilingScheme) (x y level : option Z)
    (exaggeration : Number) (scheduled : bool)
  : completion (HeightmapTerrainData * bool) :=
  match checkMeshArguments tilingScheme x y level with
  | Throw e => Throw e
  | Return (ts, x, y, level) =>
      let this := setSkirtHeight this (computeSkirtHeight this ts level) in
      Return (this, scheduled)
  end.

(** The callback of [createMesh], run when the promise of the task
    processor resolves with [result]: the mesh is stored in the tile, the
    buffer is dropped, and the mesh is the value of the returned promise. *)
Definition createMesh_resolved (getRegularGridIndices : Z -> Z -> list Z)
    (this : HeightmapTerrainData) (tilingScheme : TilingScheme)
    (x y level : Z) (exaggeration : Number) (result : TessellatorResult)
  : HeightmapTerrainData * TerrainMesh :=
  let rectangle := tileXYToRectangle tilingScheme x y level in
  let exaggeration :=
    match exaggeration with Some _ => exaggeration | None => num 1 end in
  let mesh := {|
    center := centerOfRectangle tilingScheme rectangle;
    vertices := result_vertices result;
    indices := getRegularGridIndices (gridWidth result) (gridHeight result);
    minimumHeight := result_minimumHeight result;
    maximumHeight := result_maximumHeight result;
    mesh_stride := numberOfAttributes result;
    encoding := result_encoding result;
    exaggeration := exaggeration;
    bounds := result_bounds result
  |} in
  let this := setMesh this (Some mesh) in
  (* Free memory received from server after mesh is created. *)
  let this := setBuffer this None in
  (this, mesh).

(** [_createMeshSync]: the tessellator ([computeVertices]) runs at once. *)
Definition _createMeshSync (getRegularGridIndices : Z -> Z -> list Z)
    (computeVertices :
       option TypedArray -> Structure -> Z -> Z -> Rectangle -> Rectangle ->
       Cartesian3 -> Number -> bool -> Number -> TessellatorResult)
    (this : HeightmapTerrainData) (tilingScheme : option TilingScheme)
    (x y level : option Z) (exaggeration : Number)
  : completion (HeightmapTerrainData * TerrainMesh) :=
  match checkMeshArguments tilingScheme x y level with
  | Throw e => Throw e
  | Return (ts, x, y, level) =>
      let nativeRectangle := tileXYToNativeRectangle ts x y level in
      let rectangle := tileXYToRectangle ts x y level in
      let exaggeration :=
        match exaggeration with Some _ => exaggeration | None => num 1 end in
      let center := centerOfRectangle ts rectangle in
      let structure := _structure this in
      let this := setSkirtHeight this (computeSkirtHeight this ts level) in
      let result :=
        computeVertices (_buffer this) structure (_width this) (_height this)
          nativeRectangle rectangle center (_skirtHeight this)
          (isGeographic ts) exaggeration in
      (* Free memory received from server after mesh is created. *)
      let this := setBuffer this None in
      let arrayWidth := _width this in
      let arrayHeight := _height this in
      let '(arrayWidth, arrayHeight) :=
        if ltNumber (num 0) (_skirtHeight this)
        then (arrayWidth + 2, arrayHeight + 2)
        else (arrayWidth, arrayHeight) in
      Return (this, {|
        center := center;
        vertices := result_vertices result;
        indices := getRegularGridIndices arrayWidth arrayHeight;
        minimumHeight := result_minimumHeight result;
        maximumHeight := result_maximumHeight result;
        mesh_stride := getStride (result_encoding result);
        encoding := result_encoding result;
        exaggeration := exaggeration;
        bounds := result_bounds result
      |})
  end.

(** [HeightmapTerrainData.prototype.interpolateHeight].  Without a mesh
    the buffer is read; a tile left with neither makes [getHeight] index
    [undefined], which throws as soon as one element is read. *)
Definition HeightmapTerrainData_interpolateHeight (this : HeightmapTerrainData)
    (rectangle : Rectangle) (longitude latitude : Number) : completion Number :=
  let width := _width this in
  let height := _height this in
  let structure := _structure this in
  match _mesh this with
  | Some mesh =>
      Return
        (interpolateMeshHeight (vertices mesh) (encoding mesh)
           (heightOffset structure) (heightScale structure) (_skirtHeight this)
           rectangle width height longitude latitude (exaggeration mesh))
  | None =>
      let sample (buffer : TypedArray) : Number :=
        let heightSample :=
          interpolateHeight buffer (elementsPerHeight structure)
            (elementMultiplier structure) (stride structure)
            (isBigEndian structure) rectangle width height longitude latitude in
        (heightSample * heightScale structure + heightOffset structure)%js in
      match _buffer this with
      | Some buffer => Return (sample buffer)
      | None =>
          if decide (1 <= elementsPerHeight structure)
          then Throw (TypeError "Cannot read properties of undefined")
          else Return (sample (newArray (_bufferType this) 0))
      end
  end.

(** Modelled from the spec: [CesiumMath.lerp], the linear interpolation
    between [p] and [q] at [time]. *)
Definition lerp (p q time : Number) : Number :=
  ((num 1 - time) * p + time * q)%js.

Definition structureOptions (s : Structure) : StructureOptions := {|
  opt_heightScale := heightScale s;
  opt_heightOffset := heightOffset s;
  opt_elementsPerHeight := Some (elementsPerHeight s);
  opt_stride := Some (stride s);
  opt_elementMultiplier := elementMultiplier s;
  opt_isBigEndian := Some (isBigEndian s);
  opt_lowestEncodedHeight := lowestEncodedHeight s;
  opt_highestEncodedHeight := highestEncodedHeight s
|}.

(** The two nested loops of [upsample] over the rows [j] and columns [i]
    of the new grid. *)
Definition upsample_fill (structure : Structure) (meshData : TerrainMesh)
    (skirtHeight : Number) (sourceRectangle destinationRectangle : Rectangle)
    (width height : Z) (heights : TypedArray) : TypedArray :=
  let stride := stride structure in
  let buffer := vertices meshData in
  let encoding := encoding meshData in
  let heightOffset := heightOffset structure in
  let heightScale := heightScale structure in
  let exaggeration := exaggeration meshData in
  let elementsPerHeight := elementsPerHeight structure in
  let elementMultiplier := elementMultiplier structure in
  let isBigEndian := isBigEndian structure in
  let divisor := powNumber elementMultiplier (elementsPerHeight - 1) in
  foldl (fun heights j =>
    let latitude :=
      lerp (north destinationRectangle) (south destinationRectangle)
        (num j / num (height - 1))%js in
    foldl (fun heights i =>
      let longitude :=
        lerp (west destinationRectangle) (east destinationRectangle)
          (num i / num (width - 1))%js in
      let heightSample :=
        interpolateMeshHeight buffer encoding heightOffset heightScale
          skirtHeight sourceRectangle width height longitude latitude
          exaggeration in
      (* Use conditionals here instead of Math.min and Math.max so that an
         undefined lowestEncodedHeight or highestEncodedHeight has no
         effect. *)
      let heightSample :=
        if ltNumber heightSample (lowestEncodedHeight structure)
        then lowestEncodedHeight structure else heightSample in
      let heightSample :=
        if ltNumber (highestEncodedHeight structure) heightSample
        then highestEncodedHeight structure else heightSample in
      setHeight heights elementsPerHeight elementMultiplier divisor stride
        isBigEndian (j * width + i) heightSample)
      heights (seqZ 0 width))
    heights (seqZ 0 height).

(** [HeightmapTerrainData.prototype.upsample]; [Return None] is the
    [undefined] that defers the request. *)
Definition upsample (this : HeightmapTerrainData)
    (tilingScheme : option TilingScheme)
    (thisX thisY thisLevel descendantX descendantY descendantLevel : option Z)
  : completion (option HeightmapTerrainData) :=
  match tilingScheme with
  | None => Throw (DeveloperError "tilingScheme is required.")
  | Some tilingScheme =>
  match thisX with
  | None => Throw (DeveloperError "thisX is required.")
  | Some thisX =>
  match thisY with
  | None => Throw (DeveloperError "thisY is required.")
  | Some thisY =>
  match thisLevel with
  | None => Throw (DeveloperError "thisLevel is required.")
  | Some thisLevel =>
  match descendantX with
  | None => Throw (DeveloperError "descendantX is required.")
  | Some descendantX =>
  match descendantY with
  | None => Throw (DeveloperError "descendantY is required.")
  | Some descendantY =>
  match descendantLevel with
  | None => Throw (DeveloperError "descendantLevel is required.")
  | Some descendantLevel =>
      let levelDifference := descendantLevel - thisLevel in
      if decide (levelDifference > 1) then
        Throw (DeveloperError
          "Upsampling through more than one level at a time is not currently supported.")
      else
        match _mesh this with
        | None => Return None
        | Some meshData =>
            let width := _width this in
            let height := _height this in
            let structure := _structure this in
            let skirtHeight := _skirtHeight this in
            let stride := stride structure in
            let heights := newArray (_bufferType this) (width * height * stride) in
            (* PERFORMANCE_IDEA: don't recompute these rectangles - the
               caller already knows them. *)
            let sourceRectangle :=
              tileXYToRectangle tilingScheme thisX thisY thisLevel in
            let destinationRectangle :=
              tileXYToRectangle tilingScheme descendantX descendantY
                descendantLevel in
            let heights :=
              upsample_fill structure meshData skirtHeight sourceRectangle
                destinationRectangle width height heights in
            match
              HeightmapTerrainData_new (Some {|
                opt_buffer := Some heights;
                opt_width := Some width;
                opt_height := Some height;
                opt_childTileMask := Some 0;
                opt_waterMask := None;
                opt_structure := Some (structureOptions (_structure this));
                opt_createdByUpsampling := Some true
              |})
            with
            | Return data => Return (Some data)
            | Throw e => Throw e
            end
        end
  end end end end end end end.

(** [HeightmapTerrainData.prototype.isChildAvailable] *)
Definition isChildAvailable (this : HeightmapTerrainData)
    (thisX thisY childX childY : option Z) : completion bool :=
  match thisX with
  | None => Throw (DeveloperError "thisX is required.")
  | Some thisX =>
  match thisY with
  | None => Throw (DeveloperError "thisY is required.")
  | Some thisY =>
  match childX with
  | None => Throw (DeveloperError "childX is required.")
  | Some childX =>
  match childY with
  | None => Throw (DeveloperError "childY is required.")
  | Some childY =>
      let bitNumber := 2 in (* northwest child *)
      let bitNumber :=
        if decide (childX <> thisX * 2) then bitNumber + 1 (* east child *)
        else bitNumber in
      let bitNumber :=
        if decide (childY <> thisY * 2) then bitNumber - 2 (* south child *)
        else bitNumber in
      Return (negb (bitAnd (_childTileMask this) (shiftLeft 1 bitNumber) =? 0))
  end end end end.

Definition wasCreatedByUpsampling (this : HeightmapTerrainData) : bool :=
  _createdByUpsampling this.

(** ** TerrainCache *)

(** The bytes of a decoded terrain tile. *)
Abbreviation ArrayBuffer := (list Z).

Record CacheEntry := {
  buffer : option ArrayBuffer;
  timestamp : Q
}.

Record TerrainCache := {
  _terrainCache : gmap string CacheEntry;
  _lastTidy : Q
}.

(** [JulianDate.secondsDifference(left, right)] *)
Definition secondsDifference (left right : Q) : Q := (left - right)%Q.

(** [a > b] on times. *)
Definition gtTime (a b : Q) : bool := negb (Qle_bool a b).

Definition TerrainCache_new (now : Q) : TerrainCache :=
  {| _terrainCache := ∅; _lastTidy := now |}.

Definition TerrainCache_add (now : Q) (this : TerrainCache) (quadKey : string)
    (buffer : option ArrayBuffer) : TerrainCache :=
  {| _terrainCache :=
       <[quadKey := {| buffer := buffer; timestamp := now |}]>
         (_terrainCache this);
     _lastTidy := _lastTidy this |}.

(** The buffer returned ([None] for [undefined]) and the cache afterwards. *)
Definition TerrainCache_get (this : TerrainCache) (quadKey : string)
  : option ArrayBuffer * TerrainCache :=
  let terrainCache := _terrainCache this in
  match terrainCache !! quadKey with
  | Some result =>
      (buffer result,
       {| _terrainCache := delete quadKey (_terrainCache this);
          _lastTidy := _lastTidy this |})
  | None => (None, this)
  end.

(** The loop of [tidy] deletes every key whose entry is older than ten
    seconds. *)
Definition TerrainCache_tidy (now : Q) (this : TerrainCache) : TerrainCache :=
  if gtTime (secondsDifference now (_lastTidy this)) 10 then
    let terrainCache := _terrainCache this in
    {| _terrainCache :=
         filter (fun ke : string * CacheEntry =>
                   gtTime (secondsDifference now (timestamp ke.2)) 10 = false)
           terrainCache;
       _lastTidy := now |}
  else this.

(** A history of cache calls, each with the time at which it is made. *)
Inductive CacheOp :=
| OpAdd (quadKey : string) (buffer : option ArrayBuffer)
| OpGet (quadKey : string)
| OpTidy.

Definition runCacheOp (now : Q) (op : CacheOp) (c : TerrainCache) : TerrainCache :=
  match op with
  | OpAdd quadKey buffer => TerrainCache_add now c quadKey buffer
  | OpGet quadKey => (TerrainCache_get c quadKey).2
  | OpTidy => TerrainCache_tidy now c
  end.

Fixpoint runCacheOps (ops : list (Q * CacheOp)) (c : TerrainCache) : TerrainCache :=
  match ops with
  | [] => c
  | (now, op) :: ops => runCacheOps ops (runCacheOp now op c)
  end.

(** The call, made at time [top.1], neither consumes nor overwrites the
    entry of [quadKey], and if it is a [tidy] it comes within ten seconds of
    [t0]. *)
Definition sparesEntry (quadKey : string) (t0 : Q) (top : Q * CacheOp) : Prop :=
  match top.2 with
  | OpAdd k _ => k <> quadKey
  | OpGet k => k <> quadKey
  | OpTidy => (secondsDifference top.1 t0 <= 10)%Q
  end.

(** ** GoogleEarthEnterpriseTerrainProvider *)

Inductive TerrainState := UNKNOWN | NONE | SELF | PARENT.

Inductive RequestState :=
| UNISSUED | ISSUED | ACTIVE | RECEIVED | CANCELLED | FAILED.

#[global] Instance TerrainState_eq_dec : EqDecision TerrainState.
Proof. solve_decision. Defined.

#[global] Instance RequestState_eq_dec : EqDecision RequestState.
Proof. solve_decision. Defined.

(** The tile information of the metadata, as far as the provider reads and
    writes it: [terrainState] is the property the provider attaches to it,
    [hasTerrain] the answer of [info.hasTerrain()], [childBitmask] that of
    [info.getChildBitmask()]. *)
Record TileInformation := {
  terrainState : option TerrainState;
  hasTerrain : bool;
  ancestorHasTerrain : bool;
  terrainVersion : Z;
  terrainProvider : Z;
  childBitmask : Z
}.

Definition setTerrainState (info : TileInformation) (s : TerrainState)
  : TileInformation :=
  {| terrainState := Some s; hasTerrain := hasTerrain info;
     ancestorHasTerrain := ancestorHasTerrain info;
     terrainVersion := terrainVersion info;
     terrainProvider := terrainProvider info;
     childBitmask := childBitmask info |}.

Definition setTerrainProvider (info : TileInformation) (provider : Z)
  : TileInformation :=
  {| terrainState := terrainState info; hasTerrain := hasTerrain info;
     ancestorHasTerrain := ancestorHasTerrain info;
     terrainVersion := terrainVersion info;
     terrainProvider := provider;
     childBitmask := childBitmask info |}.

(** The metadata: the tile information objects by quad key
    ([getTileInformationFromQuadKey] is the lookup; the objects are shared,
    so a write to one is a write in this store), the credits of the
    providers and the two altitude parameters handed to the terrain data.
    The entry of a quad key is an information object, or [null]
    ([nullInfo]: there is no such tile), or [undefined].  Of the other
    methods of [GoogleEarthEnterpriseMetadata], a class of another file,
    the provider calls [isValid], whose answer is taken as given, and
    [populateSubtree], whose calls are recorded, oldest first. *)
Record Metadata := {
  tileInfo : gmap string TileInformation;
  nullInfo : gset string;
  isValid : string -> bool;
  subtreeRequests : list (Z * Z * Z);
  providers : gmap Z string;
  negativeAltitudeExponentBias : Z;
  negativeAltitudeThreshold : Number
}.

Definition setTileInfo (metadata : Metadata)
    (infos : gmap string TileInformation) : Metadata :=
  {| tileInfo := infos; nullInfo := nullInfo metadata;
     isValid := isValid metadata;
     subtreeRequests := subtreeRequests metadata;
     providers := providers metadata;
     negativeAltitudeExponentBias := negativeAltitudeExponentBias metadata;
     negativeAltitudeThreshold := negativeAltitudeThreshold metadata |}.

(** [metadata.populateSubtree(x, y, level, request)], with the request
    object that [getTileDataAvailable] creates for it. *)
Definition populateSubtree (metadata : Metadata) (x y level : Z) : Metadata :=
  {| tileInfo := tileInfo metadata; nullInfo := nullInfo metadata;
     isValid := isValid metadata;
     subtreeRequests := subtreeRequests metadata ++ [(x, y, level)];
     providers := providers metadata;
     negativeAltitudeExponentBias := negativeAltitudeExponentBias metadata;
     negativeAltitudeThreshold := negativeAltitudeThreshold metadata |}.

(** [info.terrainState = s] for the information object of [quadKey]. *)
Definition writeTerrainState (metadata : Metadata) (quadKey : string)
    (s : TerrainState) : Metadata :=
  setTileInfo metadata
    (alter (fun info => setTerrainState info s) quadKey (tileInfo metadata)).

(** What a request answers with. *)
Inductive TerrainData :=
| GoogleEarthEnterpriseTerrainData (buffer : ArrayBuffer) (childTileMask : Z)
    (credits : option (list string))
    (negativeAltitudeExponentBias : Z) (negativeElevationThreshold : Number)
| Heightmap (data : HeightmapTerrainData).

Abbreviation PromiseId := nat.
Abbreviation RequestId := nat.

(** A continuation [.then(...).otherwise(...)] that a call of
    [requestTileGeometry] has attached to a shared promise: the quad key the
    call asked for, its own request object and the shared one
    ([terrainRequests[q]] as the call found it). *)
Record Waiter := {
  waiter_quadKey : string;
  waiter_request : RequestId;
  waiter_sharedRequest : option RequestId
}.

(** A fetch that has been issued and has not settled: its target, the
    version asked for, the continuation of the call that issued it (attached
    behind the [always] handler) and those of the calls that joined it
    later, oldest first. *)
Record Fetch := {
  fetch_q : string;
  fetch_version : Z;
  fetch_first : Waiter;
  fetch_others : list Waiter
}.

(** The provider, together with the part of its surroundings that its
    callbacks live in: the unsettled promises with their continuations, the
    [state] of the request objects, the fetches issued so far (oldest
    first) and the next fresh promise. *)
Record Provider := {
  _metadata : Metadata;
  _cache : TerrainCache;
  _terrainPromises : gmap string PromiseId;
  _terrainRequests : gmap string RequestId;
  _ready : bool;
  pending : gmap PromiseId Fetch;
  requestStates : gmap RequestId RequestState;
  fetchLog : list (string * Z);
  nextPromise : PromiseId
}.

Definition setMetadata (this : Provider) (metadata : Metadata) : Provider :=
  {| _metadata := metadata; _cache := _cache this;
     _terrainPromises := _terrainPromises this;
     _terrainRequests := _terrainRequests this; _ready := _ready this;
     pending := pending this; requestStates := requestStates this;
     fetchLog := fetchLog this; nextPromise := nextPromise this |}.

Definition setCache (this : Provider) (cache : TerrainCache) : Provider :=
  {| _metadata := _metadata this; _cache := cache;
     _terrainPromises := _terrainPromises this;
     _terrainRequests := _terrainRequests this; _ready := _ready this;
     pending := pending this; requestStates := requestStates this;
     fetchLog := fetchLog this; nextPromise := nextPromise this |}.

Definition setRequestStates (this : Provider)
    (states : gmap RequestId RequestState) : Provider :=
  {| _metadata := _metadata this; _cache := _cache this;
     _terrainPromises := _terrainPromises this;
     _terrainRequests := _terrainRequests this; _ready := _ready this;
     pending := pending this; requestStates := states;
     fetchLog := fetchLog this; nextPromise := nextPromise this |}.

(** [i.toString()] for a child index. *)
Definition childDigit (i : nat) : string := pretty i.

(** [q.substring(0, q.length - 1)] *)
Definition parentKey (q : string) : string :=
  String.substring 0 (String.length q - 1) q.

(** If the tile has its own terrain, then you can just use its child
    bitmask. If it was requested using it's parent then you need to check
    all of its children to see if they have terrain. *)
Definition computeChildMask (quadKey : string) (info : TileInformation)
    (metadata : Metadata) : Z :=
  let childMask := childBitmask info in
  if decide (terrainState info = Some PARENT) then
    foldl (fun childMask i =>
             match tileInfo metadata !! (quadKey +:+ childDigit i) with
             | Some child =>
                 if hasTerrain child
                 then bitOr childMask (shiftLeft 1 (Z.of_nat i))
                 else childMask
             | None => childMask
             end)
      0 (seq 0 4)
  else childMask.

(** [new GoogleEarthEnterpriseTerrainData({...})] as both places build it. *)
Definition terrainDataOf (metadata : Metadata) (quadKey : string)
    (info : TileInformation) (buffer : ArrayBuffer) : TerrainData :=
  let credit := providers metadata !! terrainProvider info in
  GoogleEarthEnterpriseTerrainData buffer
    (computeChildMask quadKey info metadata)
    (match credit with Some c => Some [c] | None => None end)
    (negativeAltitudeExponentBias metadata)
    (negativeAltitudeThreshold metadata).

(** What [requestTileGeometry] returns: a rejected or a resolved promise,
    [undefined] when the fetch is throttled, or a promise chained with
    [.then(...).otherwise(...)] on a shared promise: on the registered
    promise [p] itself for a call that joins it, behind the [always]
    handler for the call that created it. *)
Inductive RequestResult :=
| Rejected (e : Error)
| Resolved (data : TerrainData)
| Throttled
| Chained (p : PromiseId)
| ChainedAfterCleanup (p : PromiseId).

(** Where the terrain of a tile is to be loaded from, when the call does
    not end before. *)
Inductive Resolution :=
| Answer (r : RequestResult)
| Target (q : string) (terrainVersion : Z).

(** How a fetch and the decoding of its packet end. *)
Inductive Outcome :=
| Loaded (terrainTiles : list ArrayBuffer)
| Failed (e : Error).

(** How the promise returned to one caller settles. *)
Inductive WaiterResult :=
| Fulfilled (data : TerrainData)
| RejectedWith (e : Error).

Inductive Event :=
| BecomeReady
| RequestTileGeometry (now : Q) (x y level : Z) (request : RequestId)
    (throttled : bool)
| Settle (issuerFirst : bool) (now : Q) (p : PromiseId) (outcome : Outcome)
| GetTileDataAvailable (x y level : Z)
| SetRequestState (request : RequestId) (s : RequestState).

Definition notExist : RequestResult :=
  Rejected (RuntimeError "Terrain tile doesn't exist").

(** The constructor, for a metadata object that is given. *)
Definition GoogleEarthEnterpriseTerrainProvider_new (now : Q)
    (metadata : Metadata) : Provider :=
  {| _metadata := metadata;
     _cache := TerrainCache_new now;
     _terrainPromises := ∅;
     _terrainRequests := ∅;
     _ready := false;
     pending := ∅;
     requestStates := ∅;
     fetchLog := [];
     nextPromise := 0%nat |}.

(** The first part of [requestTileGeometry], for the quad key of the
    tile: the cache is tried and tidied, and the fetch target [q] and its
    version are determined. *)
Definition locateTerrain (this : Provider) (now : Q) (quadKey : string)
  : completion Resolution * Provider :=
  match tileInfo (_metadata this) !! quadKey with
  | None =>
      (* Check if this tile is even possibly available *)
      (Return (Answer notExist), this)
  | Some info =>
      let '(terrainState, info, this) :=
        match terrainState info with
        | Some s => (s, info, this)
        | None =>
            (* First time we have tried to load this tile, so set terrain
               state to UNKNOWN *)
            (UNKNOWN, setTerrainState info UNKNOWN,
             setMetadata this (writeTerrainState (_metadata this) quadKey UNKNOWN))
        end in
      (* If its in the cache, return it *)
      let '(buffer, cache) := TerrainCache_get (_cache this) quadKey in
      let this := setCache this cache in
      match buffer with
      | Some buffer =>
          (Return (Answer (Resolved
             (terrainDataOf (_metadata this) quadKey info buffer))), this)
      | None =>
          (* Clean up the cache *)
          let this := setCache this (TerrainCache_tidy now (_cache this)) in
          if negb (ancestorHasTerrain info) then
            (* We haven't reached a level with terrain, so return the
               ellipsoid *)
            match
              HeightmapTerrainData_new (Some {|
                opt_buffer := Some (newArray Uint8Array (16 * 16));
                opt_width := Some 16;
                opt_height := Some 16;
                opt_childTileMask := None;
                opt_waterMask := None;
                opt_structure := None;
                opt_createdByUpsampling := None
              |})
            with
            | Return data => (Return (Answer (Resolved (Heightmap data))), this)
            | Throw e => (Throw e, this)
            end
          else if decide (terrainState = NONE) then
            (* Already have info and there isn't any terrain here *)
            (Return (Answer notExist), this)
          else
            (* Figure out where we are getting the terrain and what
               version *)
            let q := quadKey in
            let version := -1 in
            let located : completion (string * Z) :=
              match terrainState with
              | SELF => Return (q, terrainVersion info)
              | PARENT =>
                  let q := parentKey q in
                  match tileInfo (_metadata this) !! q with
                  | Some parentInfo => Return (q, terrainVersion parentInfo)
                  | None =>
                      Throw (TypeError "Cannot read properties of undefined")
                  end
              | UNKNOWN =>
                  if hasTerrain info then Return (q, terrainVersion info)
                  else
                    let q := parentKey q in
                    match tileInfo (_metadata this) !! q with
                    | Some parentInfo =>
                        if hasTerrain parentInfo
                        then Return (q, terrainVersion parentInfo)
                        else Return (q, version)
                    | None => Return (q, version)
                    end
              | NONE => Return (q, version)
              end in
            match located with
            | Throw e => (Throw e, this)
            | Return (q, version) =>
                (* We can't figure out where to get the terrain *)
                if decide (version < 0)
                then (Return (Answer notExist), this)
                else (Return (Target q version), this)
            end
      end
  end.

(** The version [buildTerrainResource] puts in the url. *)
Definition resourceVersion (version : Z) : Z :=
  if decide (version > 0) then version else 1.

(** The second part of [requestTileGeometry]: join the fetch of [q] that
    is under way, or issue one ([throttled] tells whether
    [fetchArrayBuffer] answers [undefined]) and register it. *)
Definition loadTerrain (this : Provider) (quadKey q : string)
    (terrainVersion : Z) (request : RequestId) (throttled : bool)
  : RequestResult * Provider :=
  match _terrainPromises this !! q with
  | Some sharedPromise =>
      (* Already being loaded possibly from another child, so return
         existing promise *)
      let waiter := {|
        waiter_quadKey := quadKey;
        waiter_request := request;
        waiter_sharedRequest := _terrainRequests this !! q
      |} in
      let join (fetch : Fetch) : Fetch := {|
        fetch_q := fetch_q fetch;
        fetch_version := fetch_version fetch;
        fetch_first := fetch_first fetch;
        fetch_others := fetch_others fetch ++ [waiter]
      |} in
      (Chained sharedPromise,
       {| _metadata := _metadata this; _cache := _cache this;
          _terrainPromises := _terrainPromises this;
          _terrainRequests := _terrainRequests this; _ready := _ready this;
          pending := alter join sharedPromise (pending this);
          requestStates := requestStates this;
          fetchLog := fetchLog this; nextPromise := nextPromise this |})
  | None =>
      (* Create new request for terrain *)
      let sharedRequest := request in
      if throttled then (Throttled, this)
      else
        let sharedPromise := nextPromise this in
        let waiter := {|
          waiter_quadKey := quadKey;
          waiter_request := request;
          waiter_sharedRequest := Some sharedRequest
        |} in
        let fetch := {|
          fetch_q := q;
          fetch_version := resourceVersion terrainVersion;
          fetch_first := waiter;
          fetch_others := []
        |} in
        (ChainedAfterCleanup sharedPromise,
         {| _metadata := _metadata this; _cache := _cache this;
            (* Store promise without delete from terrainPromises *)
            _terrainPromises := <[q := sharedPromise]> (_terrainPromises this);
            _terrainRequests := <[q := sharedRequest]> (_terrainRequests this);
            _ready := _ready this;
            pending := <[sharedPromise := fetch]> (pending this);
            requestStates := requestStates this;
            fetchLog := fetchLog this ++ [(q, resourceVersion terrainVersion)];
            nextPromise := S sharedPromise |})
  end.

(** The body of the loop over the children in a decoded packet: the tile
    of a child the metadata knows goes to the cache and the child is marked
    [PARENT]. *)
Definition storeChild (now : Q) (q : string) (provider : Z)
    (terrainTiles : list ArrayBuffer) (this : Provider) (j : nat) : Provider :=
  let childKey := q +:+ childDigit j in
  match tileInfo (_metadata this) !! childKey with
  | Some child =>
      let this :=
        setCache this
          (TerrainCache_add now (_cache this) childKey
             (terrainTiles !! (j + 1)%nat)) in
      let child := setTerrainState child PARENT in
      let child :=
        if decide (terrainProvider child = 0)
        then setTerrainProvider child provider else child in
      setMetadata this
        (setTileInfo (_metadata this)
           (<[childKey := child]> (tileInfo (_metadata this))))
  | None => this
  end.

(** The callback that stores a decoded packet: the tile of [q] and its
    children go to the cache, [q] is marked [SELF] and each child the
    metadata knows [PARENT]. *)
Definition storeTerrain (now : Q) (this : Provider) (q : string)
    (terrainTiles : list ArrayBuffer) : completion Provider :=
  match tileInfo (_metadata this) !! q with
  | None => Throw (TypeError "Cannot set properties of undefined")
  | Some requestedInfo =>
      (* Add requested tile and mark it as SELF *)
      let this := setMetadata this (writeTerrainState (_metadata this) q SELF) in
      let this :=
        setCache this (TerrainCache_add now (_cache this) q (terrainTiles !! 0%nat)) in
      let provider := terrainProvider requestedInfo in
      (* Add children to cache *)
      let count := (length terrainTiles - 1)%nat in
      Return (foldl (storeChild now q provider terrainTiles) this (seq 0 count))
  end.

(** The continuation of one caller: with the shared promise fulfilled
    ([rejection = None]) its tile is taken from the cache; a rejection, of
    the shared promise or of this step, goes to the [otherwise] handler.
    The information object of the tile is read through the store: the
    metadata never drops one. *)
Definition runWaiter (rejection : option Error) (this : Provider) (w : Waiter)
  : Provider * WaiterResult :=
  let quadKey := waiter_quadKey w in
  let '(this, settled) :=
    match rejection with
    | Some error => (this, RejectedWith error)
    | None =>
        let '(buffer, cache) := TerrainCache_get (_cache this) quadKey in
        let this := setCache this cache in
        match buffer, tileInfo (_metadata this) !! quadKey with
        | Some buffer, Some info =>
            (this, Fulfilled (terrainDataOf (_metadata this) quadKey info buffer))
        | Some _, None =>
            (this, RejectedWith (TypeError "Cannot read properties of undefined"))
        | None, _ => (this, RejectedWith (RuntimeError "Failed to load terrain."))
        end
    end in
  match settled with
  | Fulfilled data => (this, Fulfilled data)
  | RejectedWith error =>
      match waiter_sharedRequest w with
      | None =>
          (this, RejectedWith (TypeError "Cannot read properties of undefined"))
      | Some sharedRequest =>
          if decide (requestStates this !! sharedRequest = Some CANCELLED) then
            (setRequestStates this
               (<[waiter_request w := CANCELLED]> (requestStates this)),
             RejectedWith error)
          else
            (setMetadata this (writeTerrainState (_metadata this) quadKey NONE),
             RejectedWith error)
      end
  end.

(** The continuations of a settled promise run one after the other; each
    caller's promise settles with its own result. *)
Definition runWaiters (rejection : option Error) (this : Provider)
    (ws : list Waiter) : Provider * list (Waiter * WaiterResult) :=
  foldl (fun '(this, results) w =>
           let '(this, r) := runWaiter rejection this w in
           (this, results ++ [(w, r)]))
    (this, []) ws.

(** The [always] handler of the fetch of [q], the promise [p]. *)
Definition unregister (this : Provider) (q : string) (p : PromiseId)
  : Provider :=
  {| _metadata := _metadata this; _cache := _cache this;
     _terrainPromises := delete q (_terrainPromises this);
     _terrainRequests := delete q (_terrainRequests this);
     _ready := _ready this;
     pending := delete p (pending this);
     requestStates := requestStates this;
     fetchLog := fetchLog this; nextPromise := nextPromise this |}.

(** The continuations of a fetch run, once its promise is settled.  The
    calls that joined are chained on the registered promise itself and see
    how it settled.  The call that issued the fetch is chained behind
    [always(...)], which is [then(f, f)]: the handler returns [undefined],
    so that the continuation of the issuing call runs as after a
    fulfilment, also when the fetch has failed.  In which order the
    continuations run is up to the promise library: that of the issuing
    call first ([issuerFirst], for a library that runs the handlers of a
    promise at once and in the order of their registration) or last (for
    one that runs them in a later turn); the joined calls run oldest
    first. *)
Definition runContinuations (issuerFirst : bool) (rejection : option Error)
    (this : Provider) (fetch : Fetch)
  : Provider * list (Waiter * WaiterResult) :=
  if issuerFirst then
    let '(this, r) := runWaiter None this (fetch_first fetch) in
    let '(this, rs) := runWaiters rejection this (fetch_others fetch) in
    (this, (fetch_first fetch, r) :: rs)
  else
    let '(this, rs) := runWaiters rejection this (fetch_others fetch) in
    let '(this, r) := runWaiter None this (fetch_first fetch) in
    (this, rs ++ [(fetch_first fetch, r)]).

(** The shared promise [p] settles: the packet is stored if there is one,
    the [always] handler removes the registration of [q], and the
    continuations run. *)
Definition settle (issuerFirst : bool) (now : Q) (this : Provider)
    (p : PromiseId) (outcome : Outcome)
  : Provider * list (Waiter * WaiterResult) :=
  match pending this !! p with
  | None => (this, [])
  | Some fetch =>
      let q := fetch_q fetch in
      let '(this, rejection) :=
        match outcome with
        | Loaded terrainTiles =>
            match storeTerrain now this q terrainTiles with
            | Return this => (this, None)
            | Throw e => (this, Some e)
            end
        | Failed e => (this, Some e)
        end in
      let this := unregister this q p in
      runContinuations issuerFirst rejection this fetch
  end.

Section Provider.

(** [GoogleEarthEnterpriseMetadata.tileXYToQuadKey] *)
Variable tileXYToQuadKey : Z -> Z -> Z -> string.

Definition requestTileGeometry (this : Provider) (now : Q) (x y level : Z)
    (request : RequestId) (throttled : bool)
  : completion RequestResult * Provider :=
  if negb (_ready this) then
    (Throw (DeveloperError
       "requestTileGeometry must not be called before the terrain provider is ready."),
     this)
  else
    let quadKey := tileXYToQuadKey x y level in
    match locateTerrain this now quadKey with
    | (Throw e, this) => (Throw e, this)
    | (Return (Answer r), this) => (Return r, this)
    | (Return (Target q terrainVersion), this) =>
        (* Load that terrain *)
        let '(r, this) :=
          loadTerrain this quadKey q terrainVersion request throttled in
        (Return r, this)
    end.

(** [getTileDataAvailable]; for a tile whose information is [undefined]
    and whose quad key is valid the metadata is asked to populate the
    subtree, and the answer is [false] for now. *)
Definition getTileDataAvailable (this : Provider) (x y level : Z)
  : bool * Provider :=
  let metadata := _metadata this in
  let quadKey := tileXYToQuadKey x y level in
  match tileInfo metadata !! quadKey with
  | Some info =>
      if negb (ancestorHasTerrain info) then
        (true, this) (* We'll just return the ellipsoid *)
      else
        match terrainState info with
        | Some NONE => (false, this) (* Terrain is not available *)
        | None | Some UNKNOWN =>
            let this :=
              setMetadata this (writeTerrainState metadata quadKey UNKNOWN) in
            if negb (hasTerrain info) then
              let quadKey := parentKey quadKey in
              match tileInfo metadata !! quadKey with
              | Some parentInfo =>
                  if hasTerrain parentInfo then (true, this) else (false, this)
              | None => (false, this)
              end
            else (true, this)
        | Some _ => (true, this)
        end
  | None =>
      if decide (quadKey ∈ nullInfo metadata) then (false, this)
      else if isValid metadata quadKey then
        (* We will need this tile, so request metadata and return false for
           now *)
        (false, setMetadata this (populateSubtree metadata x y level))
      else (false, this)
  end.

(** One step of the provider and its surroundings. *)
Definition step (this : Provider) (ev : Event) : Provider :=
  match ev with
  | BecomeReady =>
      {| _metadata := _metadata this; _cache := _cache this;
         _terrainPromises := _terrainPromises this;
         _terrainRequests := _terrainRequests this; _ready := true;
         pending := pending this; requestStates := requestStates this;
         fetchLog := fetchLog this; nextPromise := nextPromise this |}
  | RequestTileGeometry now x y level request throttled =>
      (requestTileGeometry this now x y level request throttled).2
  | Settle issuerFirst now p outcome =>
      (settle issuerFirst now this p outcome).1
  | GetTileDataAvailable x y level => (getTileDataAvailable this x y level).2
  | SetRequestState request s =>
      setRequestStates this (<[request := s]> (requestStates this))
  end.

Definition run (events : list Event) (this : Provider) : Provider :=
  foldl step this events.

End Provider.

(** ** Notions the properties are stated with *)

(** The two formulas of the triangulation rule. *)
Definition lowerRightTriangle (dx dy sw se ne : Number) : Number :=
  (sw + dx * (se - sw) + dy * (ne - se))%js.
Definition upperLeftTriangle (dx dy sw nw ne : Number) : Number :=
  (sw + dx * (ne - nw) + dy * (nw - sw))%js.

(** The rule itself: strictly below the diagonal the lower right triangle,
    otherwise the upper left one. *)
Definition triangulationRule (dx dy : Qc) (sw se nw ne : Number) : Number :=
  if Qclt_le_dec dy dx then lowerRightTriangle (Some dx) (Some dy) sw se ne
  else upperLeftTriangle (Some dx) (Some dy) sw nw ne.

(** A grid of one cell: the heights at its four corners, north row first. *)
Definition cellArray (ty : ArrayType) (nw ne sw se : Qc) : TypedArray :=
  {| elementType := ty; elements := [Some nw; Some ne; Some sw; Some se] |}.


(** The bit of the child mask for a child in the east column ([east]) and
    in the south row ([south]): SW=0, SE=1, NW=2, NE=3. *)
Definition childBit (east south : bool) : Z :=
  match east, south with
  | false, true => 0
  | true, true => 1
  | false, false => 2
  | true, false => 3
  end.

(** The tile of two by two samples 10, 20 (north row) and 30, 40 (south
    row) with the default structure and the given child mask. *)
Definition sampleTile (ty : ArrayType) (mask : Z) : HeightmapTerrainData := {|
  _buffer := Some {| elementType := ty;
                     elements := [num 10; num 20; num 30; num 40] |};
  _width := 2;
  _height := 2;
  _childTileMask := mask;
  _structure := DEFAULT_STRUCTURE;
  _createdByUpsampling := false;
  _waterMask := None;
  _skirtHeight := None;
  _bufferType := ty;
  _mesh := None
|}.

Definition unitRectangle : Rectangle :=
  {| west := num 0; south := num 0; east := num 1; north := num 1 |}.

(** A tiling scheme with one tile, for examples. *)
Definition unitTilingScheme : TilingScheme := {|
  tileXYToNativeRectangle := fun _ _ _ => unitRectangle;
  tileXYToRectangle := fun _ _ _ => unitRectangle;
  getNumberOfXTilesAtLevel := fun _ => 1;
  centerOfRectangle := fun _ => (num 0, num 0, num 0);
  getEstimatedLevelZeroGeometricErrorForAHeightmap := fun _ _ => num 100;
  isGeographic := true
|}.

(** Modelled from the spec: the geographic center of a rectangle that does
    not cross the antimeridian, the midpoint of its bounds. *)
Definition Rectangle_center (r : Rectangle) : Number * Number :=
  let half : Number := Some (Q2Qc (1 # 2)) in
  (((west r + east r) * half)%js, ((south r + north r) * half)%js).

Definition half : Qc := Q2Qc (1 # 2).

(** A tiling scheme of the unit square, halved in both directions at each
    level, rows counted from the north, for examples. *)
Definition quadTilingScheme : TilingScheme := {|
  tileXYToNativeRectangle := fun _ _ _ => unitRectangle;
  tileXYToRectangle := fun x y level =>
    let n := num (2 ^ level) in
    {| west := (num x / n)%js; south := (num 1 - num (y + 1) / n)%js;
       east := (num (x + 1) / n)%js; north := (num 1 - num y / n)%js |};
  getNumberOfXTilesAtLevel := fun _ => 1;
  centerOfRectangle := fun _ => (num 0, num 0, num 0);
  getEstimatedLevelZeroGeometricErrorForAHeightmap := fun _ _ => num 100;
  isGeographic := true
|}.

(** An encoding whose vertex buffer holds the heights themselves. *)
Definition flatEncoding : TerrainEncoding := {|
  decodeHeight := fun buffer n =>
    match buffer !! Z.to_nat n with Some v => v | None => NaN end;
  getStride := 1
|}.

Definition emptyBounds : MeshBounds := {|
  boundingSphere3D := ((num 0, num 0, num 0), num 0);
  occludeePointInScaledSpace := (num 0, num 0, num 0);
  orientedBoundingBox := ((num 0, num 0, num 0), []);
  westIndicesSouthToNorth := [];
  southIndicesEastToWest := [];
  eastIndicesNorthToSouth := [];
  northIndicesWestToEast := []
|}.

(** The sample tile once [createMesh] has resolved with a mesh of its four
    heights (its skirt height is still unset: no skirt). *)
Definition sampleMeshTile : HeightmapTerrainData :=
  (createMesh_resolved (fun _ _ => []) (sampleTile Uint8Array 15)
     quadTilingScheme 0 0 0 (num 1)
     {| result_vertices := [num 10; num 20; num 30; num 40];
        gridWidth := 2;
        gridHeight := 2;
        result_minimumHeight := num 10;
        result_maximumHeight := num 40;
        numberOfAttributes := 1;
        result_encoding := flatEncoding;
        result_bounds := emptyBounds |}).1.




(** A terrain state other than [UNKNOWN] has been determined. *)
Definition determined (info : TileInformation) : Prop :=
  exists s, terrainState info = Some s /\ s <> UNKNOWN.

(** The metadata of the examples: the tile "0" has terrain of its own. *)
Definition sampleMetadata : Metadata := {|
  tileInfo :=
    {[ "0" := {| terrainState := None; hasTerrain := true;
                 ancestorHasTerrain := true; terrainVersion := 1;
                 terrainProvider := 0; childBitmask := 0 |} ]};
  nullInfo := ∅;
  isValid := fun _ => true;
  subtreeRequests := [];
  providers := ∅;
  negativeAltitudeExponentBias := 32;
  negativeAltitudeThreshold := None
|}.

Definition sampleQuadKey (x y level : Z) : string := "0".

(** The registrations and the promise world of two states are the same. *)
Definition sameRegistrations (this this' : Provider) : Prop :=
  _terrainPromises this' = _terrainPromises this
  /\ _terrainRequests this' = _terrainRequests this
  /\ pending this' = pending this
  /\ nextPromise this' = nextPromise this
  /\ fetchLog this' = fetchLog this.

(** Every determined terrain state of [m] is still determined in [m']. *)
Definition keepsDetermined (m m' : Metadata) : Prop :=
  forall k info,
    tileInfo m !! k = Some info -> determined info ->
    exists info', tileInfo m' !! k = Some info' /\ determined info'.

(** Every determined terrain state of [m] is the same in [m']. *)
Definition keepsDeterminedStates (m m' : Metadata) : Prop :=
  forall k info,
    tileInfo m !! k = Some info -> determined info ->
    exists info',
      tileInfo m' !! k = Some info' /\ terrainState info' = terrainState info.

(** The event is not the settlement of a fetch. *)
Definition notSettle (ev : Event) : Prop :=
  match ev with Settle _ _ _ _ => False | _ => True end.

(** The provider of the examples once the tile "0" has been requested,
    loaded and handed to its caller: its terrain state is [SELF]. *)
Definition loadedProvider : Provider :=
  run sampleQuadKey
    [BecomeReady; RequestTileGeometry 0 0 0 0 7%nat false;
     Settle true 1 0%nat (Loaded [[1; 2; 3]])]
    (GoogleEarthEnterpriseTerrainProvider_new 0 sampleMetadata).

(** The metadata of a tile "0" above the levels with terrain. *)
Definition seaMetadata : Metadata := {|
  tileInfo :=
    {[ "0" := {| terrainState := None; hasTerrain := false;
                 ancestorHasTerrain := false; terrainVersion := 1;
                 terrainProvider := 0; childBitmask := 0 |} ]};
  nullInfo := ∅;
  isValid := fun _ => true;
  subtreeRequests := [];
  providers := ∅;
  negativeAltitudeExponentBias := 32;
  negativeAltitudeThreshold := None
|}.

(** The metadata of a tile "0" below a level with terrain, with no terrain
    of its own and no parent that has some. *)
Definition bareMetadata : Metadata := {|
  tileInfo :=
    {[ "0" := {| terrainState := None; hasTerrain := false;
                 ancestorHasTerrain := true; terrainVersion := 1;
                 terrainProvider := 0; childBitmask := 0 |} ]};
  nullInfo := ∅;
  isValid := fun _ => true;
  subtreeRequests := [];
  providers := ∅;
  negativeAltitudeExponentBias := 32;
  negativeAltitudeThreshold := None
|}.

(** What [storeChild] leaves of a child the metadata knows. *)
Definition storedChild (provider : Z) (child : TileInformation) : TileInformation :=
  let child := setTerrainState child PARENT in
  if decide (terrainProvider child = 0) then setTerrainProvider child provider
  else child.

(** [this._levelZeroMaximumGeometricError], set by the constructor of the
    provider to 40075.16. *)
Definition _levelZeroMaximumGeometricError : Number :=
  Some (Q2Qc (4007516 # 100)).

(** [GoogleEarthEnterpriseTerrainProvider.prototype.getLevelMaximumGeometricError] *)
Definition getLevelMaximumGeometricError (level : Z) : Number :=
  (_levelZeroMaximumGeometricError / num (shiftLeft 1 level))%js.






(** * Properties *)

(** ** Numbers *)

Lemma ofZ_add a b : ofZ (a + b) = (ofZ a + ofZ b)%Qc.
Proof.
  apply Qc_is_canon. unfold ofZ. simpl.
  rewrite !Qred_correct. rewrite inject_Z_plus. reflexivity.
Qed.

Lemma ofZ_mul a b : ofZ (a * b) = (ofZ a * ofZ b)%Qc.
Proof.
  apply Qc_is_canon. unfold ofZ. simpl.
  rewrite !Qred_correct. rewrite inject_Z_mult. reflexivity.
Qed.

Lemma ofZ_opp a : ofZ (- a) = (- ofZ a)%Qc.
Proof.
  apply Qc_is_canon. unfold ofZ. simpl.
  rewrite !Qred_correct. rewrite inject_Z_opp. reflexivity.
Qed.

Lemma ofZ_sub a b : ofZ (a - b) = (ofZ a - ofZ b)%Qc.
Proof.
  unfold Qcminus. rewrite <- ofZ_opp, <- ofZ_add. f_equal.
Qed.

Lemma ofZ_inj a b : ofZ a = ofZ b -> a = b.
Proof.
  unfold ofZ. intros H. apply Q2Qc_eq_iff in H.
  unfold Qeq in H. simpl in H. lia.
Qed.

Lemma ofZ_this z : (this (ofZ z) == inject_Z z)%Q.
Proof. unfold ofZ. simpl. apply Qred_correct. Qed.

Lemma ToInteger_ofZ z : ToInteger (ofZ z) = z.
Proof.
  unfold ToInteger. 
  rewrite (Qfloor_comp _ _ (ofZ_this z)), (Qceiling_comp _ _ (ofZ_this z)).
  rewrite Qfloor_Z, Qceiling_Z. destruct (Qle_bool _ _); reflexivity.
Qed.

Lemma wrapSigned_small bits z :
  0 < bits -> - 2 ^ (bits - 1) <= z < 2 ^ (bits - 1) -> wrapSigned bits z = z.
Proof.
  intros Hb H. unfold wrapSigned.
  assert (E : 2 ^ bits = 2 * 2 ^ (bits - 1)).
  { rewrite <- Z.pow_succ_r by lia. f_equal. lia. }
  rewrite Z.mod_small; lia.
Qed.

Lemma ofZ_nonzero z : z <> 0 -> ofZ z <> 0%Qc.
Proof. intros H E. apply H. apply ofZ_inj. exact E. Qed.


Lemma length_writeElement hs p v :
  length (elements (writeElement hs p v)) = length (elements hs).
Proof. unfold writeElement. case_decide; [apply length_insert | reflexivity]. Qed.

Lemma elementType_writeElement hs p v :
  elementType (writeElement hs p v) = elementType hs.
Proof. unfold writeElement. case_decide; reflexivity. Qed.

Lemma read_write_ne hs p q v :
  p <> q -> readElement (writeElement hs p v) q = readElement hs q.
Proof.
  intros H. unfold readElement, writeElement.
  destruct (decide (0 <= q)); [|reflexivity].
  destruct (decide (0 <= p)); [|reflexivity]. simpl.
  rewrite list_lookup_insert_ne by lia. reflexivity.
Qed.

Lemma digit_mod_pow m r a b :
  0 < m -> 0 <= b < a -> ((r mod m ^ a) / m ^ b) mod m = (r / m ^ b) mod m.
Proof.
  intros Hm Hab.
  assert (Hpb : 0 < m ^ b) by (apply Z.pow_pos_nonneg; lia).
  assert (Hpa : 0 < m ^ a) by (apply Z.pow_pos_nonneg; lia).
  assert (Ea : m ^ a = m ^ b * (m * m ^ (a - b - 1))).
  { rewrite <- Z.pow_succ_r by lia. rewrite <- Z.pow_add_r by lia. f_equal. lia. }
  assert (E : r mod m ^ a = r + (- (m * m ^ (a - b - 1) * (r / m ^ a))) * m ^ b).
  { rewrite Z.mod_eq by lia. rewrite Ea at 1. ring. }
  rewrite E, Z.div_add by lia.
  replace (r / m ^ b + - (m * m ^ (a - b - 1) * (r / m ^ a)))
    with (r / m ^ b + (- (m ^ (a - b - 1) * (r / m ^ a))) * m) by ring.
  apply Z.mod_add. lia.
Qed.

Lemma mod_mod_pow m r a : 0 < m -> 1 <= a -> (r mod m ^ a) mod m = r mod m.
Proof.
  intros Hm Ha. pose proof (digit_mod_pow m r a 0 Hm ltac:(lia)) as H.
  rewrite Z.pow_0_r, !Z.div_1_r in H. exact H.
Qed.

(** ** Double precision: rounding *)

Section Rounding.
Import Binary64.
Local Open Scope Q_scope.


Lemma pow2_pos e : 0 < 2 ^ e.
Proof. apply Qpower_0_lt. reflexivity. Qed.

Lemma pow2_succ e : 2 ^ (e + 1) == 2 * 2 ^ e.
Proof. rewrite Qpower_plus by discriminate. rewrite Qpower_1_r. ring. Qed.

Lemma pow2_le a b : (a <= b)%Z -> 2 ^ a <= 2 ^ b.
Proof. intros H. apply Qpower_le_compat_l; [exact H | discriminate]. Qed.

Lemma pow2_inject n : (0 <= n)%Z -> inject_Z (2 ^ n) == 2 ^ n.
Proof. intros H. rewrite Zpower_Qpower by exact H. reflexivity. Qed.

Lemma pow2_cancel a b : 2 ^ a * 2 ^ b == 2 ^ (a + b).
Proof. rewrite Qpower_plus by discriminate. reflexivity. Qed.

(** The binade of a positive rational. *)
Lemma floorLog2_spec x :
  0 < x -> 2 ^ floorLog2 x <= x /\ x < 2 ^ (floorLog2 x + 1).
Proof.
  destruct x as [a b]. intros Hx.
  assert (Ha : (0 < a)%Z).
  { unfold Qlt in Hx. simpl in Hx. lia. }
  unfold floorLog2. cbn [Qnum Qden].
  set (la := Z.log2 a). set (lb := Z.log2 (Z.pos b)).
  destruct (Z.log2_spec a Ha) as [Ha1 Ha2].
  destruct (Z.log2_spec (Z.pos b) ltac:(lia)) as [Hb1 Hb2].
  fold la in Ha1, Ha2. fold lb in Hb1, Hb2.
  assert (Hla : (0 <= la)%Z) by apply Z.log2_nonneg.
  assert (Hlb : (0 <= lb)%Z) by apply Z.log2_nonneg.
  rewrite Z.pow_succ_r in Ha2, Hb2 by assumption.
  rewrite Zle_Qle, pow2_inject in Ha1, Hb1 by assumption.
  rewrite Zlt_Qlt, inject_Z_mult, pow2_inject in Ha2, Hb2 by assumption.
  change (inject_Z 2) with 2 in Ha2, Hb2.
  pose proof (pow2_pos la) as HA. pose proof (pow2_pos lb) as HB.
  assert (Ex : a # b == inject_Z a / inject_Z (Z.pos b)) by apply Qmake_Qdiv.
  assert (Hbpos : 0 < inject_Z (Z.pos b)) by (eapply Qlt_le_trans; eassumption).
  assert (El : 2 ^ (la - lb) == 2 ^ la / 2 ^ lb).
  { apply Qpower_minus. discriminate. }
  destruct (Qle_bool (2 ^ (la - lb)) (a # b)) eqn:Hc.
  - apply Qle_bool_iff in Hc. split; [exact Hc|].
    rewrite pow2_succ, El, Ex.
    apply Qlt_shift_div_r; [exact Hbpos|].
    setoid_replace (2 * (2 ^ la / 2 ^ lb) * inject_Z (Z.pos b))
      with ((2 * 2 ^ la) * (inject_Z (Z.pos b) / 2 ^ lb)) using relation Qeq by (field; lra).
    assert (1 <= inject_Z (Z.pos b) / 2 ^ lb).
    { apply Qle_shift_div_l; [exact HB | lra]. }
    nra.
  - assert (Hlt : a # b < 2 ^ (la - lb)).
    { apply Qnot_le_lt. intros H. apply Qle_bool_iff in H. congruence. }
    replace (la - lb - 1 + 1)%Z with (la - lb)%Z by lia.
    split; [|exact Hlt].
    assert (E1 : 2 ^ (la - lb - 1) == 2 ^ la / (2 * 2 ^ lb)).
    { replace (la - lb - 1)%Z with (la - (lb + 1))%Z by lia.
      rewrite Qpower_minus by discriminate. rewrite pow2_succ. reflexivity. }
    rewrite E1, Ex.
    apply Qle_shift_div_l; [exact Hbpos|].
    setoid_replace (2 ^ la / (2 * 2 ^ lb) * inject_Z (Z.pos b))
      with (2 ^ la * (inject_Z (Z.pos b) / (2 * 2 ^ lb))) using relation Qeq by (field; lra).
    assert (inject_Z (Z.pos b) / (2 * 2 ^ lb) <= 1).
    { apply Qle_shift_div_r; lra. }
    nra.
Qed.

Lemma binade_unique x e1 e2 :
  2 ^ e1 <= x -> x < 2 ^ (e1 + 1) -> 2 ^ e2 <= x -> x < 2 ^ (e2 + 1) -> e1 = e2.
Proof.
  intros H1 H2 H3 H4.
  destruct (Z.lt_trichotomy e1 e2) as [H|[H|H]]; [|exact H|].
  - pose proof (pow2_le (e1 + 1) e2 ltac:(lia)). lra.
  - pose proof (pow2_le (e2 + 1) e1 ltac:(lia)). lra.
Qed.

Lemma roundHalfEven_comp x y : x == y -> roundHalfEven x = roundHalfEven y.
Proof.
  intros E. unfold roundHalfEven. rewrite (Qfloor_comp _ _ E).
  assert (E' : x - inject_Z (Qfloor y) == y - inject_Z (Qfloor y)) by (rewrite E; reflexivity).
  rewrite (Qcompare_comp _ _ E' _ _ (Qeq_refl _)). reflexivity.
Qed.

Lemma roundHalfEven_Z k : roundHalfEven (inject_Z k) = k.
Proof.
  unfold roundHalfEven. rewrite Qfloor_Z.
  assert (H : (inject_Z k - inject_Z k ?= 1 # 2) = Lt).
  { apply -> Qlt_alt. lra. }
  rewrite H. reflexivity.
Qed.

Lemma roundHalfEven_upper x : inject_Z (roundHalfEven x) <= x + (1 # 2).
Proof.
  unfold roundHalfEven. pose proof (Qfloor_le x) as Hf.
  destruct (x - inject_Z (Qfloor x) ?= 1 # 2) eqn:Hc.
  - apply <- Qeq_alt in Hc.
    destruct (Z.even (Qfloor x)); [lra|]. rewrite inject_Z_plus.
    change (inject_Z 1) with 1. lra.
  - lra.
  - apply <- Qgt_alt in Hc. rewrite inject_Z_plus. change (inject_Z 1) with 1. lra.
Qed.

Lemma roundHalfEven_lower x k : inject_Z k <= x -> (k <= roundHalfEven x)%Z.
Proof.
  intros H. apply Qfloor_resp_le in H. rewrite Qfloor_Z in H.
  unfold roundHalfEven.
  destruct (x - inject_Z (Qfloor x) ?= 1 # 2); [destruct (Z.even _)| |]; lia.
Qed.

(** Rounding inside a binade above the subnormal range. *)
Lemma roundMagnitude_binade x e :
  2 ^ e <= x -> x < 2 ^ (e + 1) -> (-1022 <= e)%Z ->
  roundMagnitude x
  == inject_Z (roundHalfEven (x / 2 ^ (e - 52))) * 2 ^ (e - 52).
Proof.
  intros H1 H2 He. pose proof (pow2_pos e) as Hp.
  assert (Hx : 0 < x) by lra.
  unfold roundMagnitude.
  assert (Hc : Qle_bool x 0 = false).
  { apply not_true_iff_false. intros H. apply Qle_bool_iff in H. lra. }
  rewrite Hc. unfold ulp.
  destruct (floorLog2_spec x Hx) as [H3 H4].
  rewrite (binade_unique x _ e H3 H4 H1 H2).
  rewrite Z.max_l by lia. reflexivity.
Qed.

Lemma roundMagnitude_zero x : x == 0 -> roundMagnitude x == 0.
Proof.
  intros E. unfold roundMagnitude.
  assert (Hc : Qle_bool x 0 = true) by (apply Qle_bool_iff; lra).
  rewrite Hc. reflexivity.
Qed.

(** The integers below 2^53 are values of the format. *)
Lemma roundMagnitude_Z x z :
  x == inject_Z z -> (0 <= z <= 2 ^ 53)%Z -> roundMagnitude x == inject_Z z.
Proof.
  intros E Hz. destruct (decide (z = 0)%Z) as [->|Hnz].
  { apply roundMagnitude_zero. exact E. }
  destruct (decide (z = 2 ^ 53)%Z) as [->|Hmax].
  { assert (E53 : inject_Z (2 ^ 53) == 2 ^ 53) by (apply pow2_inject; lia).
    rewrite (roundMagnitude_binade x 53).
    - assert (En : x / 2 ^ (53 - 52) == inject_Z (2 ^ 52)).
      { rewrite E, E53. reflexivity. }
      rewrite (roundHalfEven_comp _ _ En), roundHalfEven_Z. reflexivity.
    - rewrite E, E53. apply Qle_refl.
    - rewrite E, E53. reflexivity.
    - lia. }
  assert (Hpos : (0 < z)%Z) by lia.
  destruct (Z.log2_spec z Hpos) as [Hl1 Hl2].
  set (e := Z.log2 z) in *.
  assert (He0 : (0 <= e)%Z) by apply Z.log2_nonneg.
  assert (He : (e < 53)%Z).
  { apply (Z.pow_lt_mono_r_iff 2); lia. }
  rewrite Z.pow_succ_r in Hl2 by lia.
  rewrite Zle_Qle, pow2_inject in Hl1 by lia.
  rewrite Zlt_Qlt, inject_Z_mult, pow2_inject in Hl2 by lia.
  change (inject_Z 2) with 2 in Hl2.
  rewrite (roundMagnitude_binade x e).
  - assert (En : x / 2 ^ (e - 52) == inject_Z (z * 2 ^ (52 - e))).
    { rewrite inject_Z_mult, pow2_inject, E by lia.
      replace (e - 52)%Z with (- (52 - e))%Z by lia.
      rewrite Qpower_opp. field.
      pose proof (pow2_pos (52 - e)). lra. }
    rewrite (roundHalfEven_comp _ _ En), roundHalfEven_Z.
    rewrite inject_Z_mult, pow2_inject by lia.
    rewrite <- Qmult_assoc, pow2_cancel.
    replace (52 - e + (e - 52))%Z with 0%Z by lia.
    rewrite Qpower_0_r. ring.
  - rewrite E. exact Hl1.
  - rewrite E, pow2_succ. exact Hl2.
  - lia.
Qed.

(** The quotient of two integers, rounded, has the integer part of the
    exact quotient. *)
Lemma roundMagnitude_quotient x a d :
  x == inject_Z a / inject_Z d ->
  (0 <= a < 2 ^ 53)%Z -> (1 <= d <= 2 ^ 53)%Z ->
  inject_Z (a / d) <= roundMagnitude x
  /\ roundMagnitude x < inject_Z (a / d + 1).
Proof.
  intros E Ha Hd.
  assert (Hdq : 1 <= inject_Z d).
  { change 1 with (inject_Z 1). rewrite <- Zle_Qle. lia. }
  assert (Haq : 0 <= inject_Z a).
  { change 0 with (inject_Z 0). rewrite <- Zle_Qle. lia. }
  destruct (decide (a = 0)%Z) as [->|Hnz].
  { rewrite Z.div_0_l by lia.
    rewrite (roundMagnitude_zero x).
    - split; [apply Qle_refl | reflexivity].
    - rewrite E. change (inject_Z 0) with 0. field. lra. }
  set (k := (a / d)%Z).
  assert (Hk : (0 <= k)%Z) by (apply Z.div_pos; lia).
  assert (Hkd : (k * d <= a < (k + 1) * d)%Z).
  { unfold k. pose proof (Z.div_mod a d ltac:(lia)).
    pose proof (Z.mod_pos_bound a d ltac:(lia)). nia. }
  assert (Hlow : inject_Z k <= x).
  { rewrite E. apply Qle_shift_div_l; [lra|].
    rewrite <- inject_Z_mult, <- Zle_Qle. lia. }
  assert (Hup : x <= inject_Z (k + 1) - 1 / inject_Z d).
  { rewrite E.
    setoid_replace (inject_Z (k + 1) - 1 / inject_Z d)
      with ((inject_Z (k + 1) * inject_Z d - 1) / inject_Z d) using relation Qeq by (field; lra).
    apply Qmult_le_r with (z := inject_Z d); [lra|].
    setoid_replace (inject_Z a / inject_Z d * inject_Z d) with (inject_Z a) using relation Qeq
      by (field; lra).
    setoid_replace ((inject_Z (k + 1) * inject_Z d - 1) / inject_Z d * inject_Z d)
      with (inject_Z (k + 1) * inject_Z d - 1) using relation Qeq by (field; lra).
    rewrite <- inject_Z_mult. change 1 with (inject_Z 1).
    unfold Qminus. rewrite <- inject_Z_opp, <- inject_Z_plus, <- Zle_Qle. lia. }
  assert (Hx : 0 < x).
  { rewrite E. apply Qlt_shift_div_l; [lra|]. rewrite Qmult_0_l.
    change 0 with (inject_Z 0). rewrite <- Zlt_Qlt. lia. }
  destruct (floorLog2_spec x Hx) as [H1 H2].
  set (e := floorLog2 x) in *.
  pose proof (pow2_pos e) as Hpe.
  assert (Hxa : x * inject_Z d == inject_Z a).
  { rewrite E. field. lra. }
  assert (Ha53 : inject_Z a < 2 ^ 53).
  { rewrite <- pow2_inject by lia. rewrite <- Zlt_Qlt. lia. }
  assert (Hd53 : inject_Z d <= 2 ^ 53).
  { rewrite <- pow2_inject by lia. rewrite <- Zle_Qle. lia. }
  assert (Hxle : x <= inject_Z a).
  { rewrite <- Hxa. nra. }
  assert (He52 : (e <= 52)%Z).
  { destruct (Z_le_gt_dec e 52) as [H|H]; [exact H|].
    pose proof (pow2_le 53 e ltac:(lia)). lra. }
  assert (Hem : (-53 <= e)%Z).
  { destruct (Z_le_gt_dec (-53) e) as [H|H]; [exact H|].
    pose proof (pow2_le (e + 1) (-53) ltac:(lia)) as Hle.
    assert (E53 : 2 ^ (-53) * 2 ^ 53 == 1) by (rewrite pow2_cancel; reflexivity).
    assert (1 <= inject_Z a).
    { change 1 with (inject_Z 1). rewrite <- Zle_Qle. lia. }
    assert (x * inject_Z d < 1); [|lra].
    pose proof (pow2_pos (-53)).
    assert (x < 2 ^ (-53)) by lra. nra. }
  pose proof (pow2_pos (e - 52)) as Hu.
  rewrite (roundMagnitude_binade x e H1 H2 ltac:(lia)).
  set (u := 2 ^ (e - 52)) in *.
  split.
  - destruct (decide (k = 0)%Z) as [Hk0|Hk0].
    + rewrite Hk0.
      assert (0 <= roundHalfEven (x / u))%Z.
      { apply roundHalfEven_lower. change (inject_Z 0) with 0.
        apply Qle_shift_div_l; [exact Hu | lra]. }
      assert (0 <= inject_Z (roundHalfEven (x / u))).
      { change 0 with (inject_Z 0). rewrite <- Zle_Qle. assumption. }
      change (inject_Z 0) with 0. nra.
    + assert (He0 : (0 <= e)%Z).
      { destruct (Z_le_gt_dec 0 e) as [H|H]; [exact H|].
        pose proof (pow2_le (e + 1) 0 ltac:(lia)) as Hle.
        change (2 ^ 0) with 1 in Hle.
        assert (1 <= inject_Z k).
        { change 1 with (inject_Z 1). rewrite <- Zle_Qle. lia. }
        lra. }
      assert (Eu : inject_Z (2 ^ (52 - e)) * u == 1).
      { unfold u. rewrite pow2_inject, pow2_cancel by lia.
        replace (52 - e + (e - 52))%Z with 0%Z by lia. reflexivity. }
      assert (HK : (k * 2 ^ (52 - e) <= roundHalfEven (x / u))%Z).
      { apply roundHalfEven_lower. rewrite inject_Z_mult.
        apply Qle_shift_div_l; [exact Hu|].
        rewrite <- Qmult_assoc, Eu. lra. }
      rewrite Zle_Qle, inject_Z_mult in HK.
      setoid_replace (inject_Z k) with (inject_Z k * inject_Z (2 ^ (52 - e)) * u) using relation Qeq
        by (rewrite <- Qmult_assoc, Eu; ring).
      apply Qmult_le_compat_r; [exact HK | lra].
  - pose proof (roundHalfEven_upper (x / u)) as Hr.
    assert (Hr' : inject_Z (roundHalfEven (x / u)) * u <= x + u / 2).
    { setoid_replace (x + u / 2) with ((x / u + (1 # 2)) * u) using relation Qeq by (field; lra).
      apply Qmult_le_compat_r; [exact Hr | lra]. }
    eapply Qle_lt_trans; [exact Hr'|].
    assert (Hdu : inject_Z d * u < 2).
    { assert (E2 : u * 2 ^ 52 == 2 ^ e).
      { unfold u. rewrite pow2_cancel. replace (e - 52 + 52)%Z with e by lia.
        reflexivity. }
      assert (E53 : 2 ^ 53 == 2 * 2 ^ 52) by (rewrite <- pow2_succ; reflexivity).
      pose proof (pow2_pos 52).
      assert (inject_Z d * (u * 2 ^ 52) < 2 * 2 ^ 52); [|nra].
      rewrite E2. rewrite <- E53. 
      apply Qle_lt_trans with (y := inject_Z a); [|exact Ha53].
      rewrite <- Hxa. nra. }
    assert (u / 2 < 1 / inject_Z d).
    { apply Qlt_shift_div_l; [lra|].
      setoid_replace (u / 2 * inject_Z d) with (inject_Z d * u / 2) using relation Qeq by (field; lra).
      apply Qlt_shift_div_r; lra. }
    lra.
Qed.

Lemma below_overflow r z :
  r == inject_Z z -> (0 <= z <= 2 ^ 53)%Z -> Qle_bool (2 ^ 1024) r = false.
Proof.
  intros E Hz. apply not_true_iff_false. intros H. apply Qle_bool_iff in H.
  assert (inject_Z z <= 2 ^ 53).
  { rewrite <- pow2_inject by lia. rewrite <- Zle_Qle. lia. }
  assert (2 ^ 53 < 2 ^ 1024) by reflexivity.
  lra.
Qed.

Lemma round_Z s x z :
  x == inject_Z z -> (0 <= z <= 2 ^ 53)%Z -> round s x = Finite s (ofZ z).
Proof.
  intros E Hz. unfold round.
  pose proof (roundMagnitude_Z x z E Hz) as Hr.
  rewrite (below_overflow _ z Hr) by lia.
  f_equal. apply Q2Qc_eq_iff. exact Hr.
Qed.

Lemma num_exact z : (0 <= z <= 2 ^ 53)%Z -> num z = Finite false (ofZ z).
Proof.
  intros Hz. unfold num.
  assert (E : (z <? 0)%Z = false) by lia. rewrite E.
  apply round_Z; [|exact Hz]. rewrite Z.abs_eq by lia. reflexivity.
Qed.

Lemma binary64_mul_num a b :
  (0 <= a <= 2 ^ 53)%Z -> (0 <= b <= 2 ^ 53)%Z -> (a * b <= 2 ^ 53)%Z ->
  mul (num a) (num b) = num (a * b).
Proof.
  intros Ha Hb Hab. rewrite !num_exact by lia. unfold mul. simpl xorb.
  apply round_Z; [|lia]. rewrite !ofZ_this, inject_Z_mult. reflexivity.
Qed.

Lemma binary64_add_num a b :
  (0 <= a)%Z -> (0 <= b)%Z -> (a + b <= 2 ^ 53)%Z ->
  add (num a) (num b) = num (a + b).
Proof.
  intros Ha Hb Hab. rewrite !num_exact by lia. unfold add, signed.
  assert (E : this (ofZ a) + this (ofZ b) == inject_Z (a + b)).
  { rewrite !ofZ_this, inject_Z_plus. reflexivity. }
  destruct (Qeq_bool _ _) eqn:Hz.
  - apply Qeq_bool_iff in Hz. rewrite E in Hz.
    assert (E0 : (a + b = 0)%Z) by (unfold Qeq in Hz; simpl in Hz; lia).
    rewrite E0. reflexivity.
  - assert (Hc : Qle_bool 0 (this (ofZ a) + this (ofZ b)) = true).
    { apply Qle_bool_iff. rewrite E. change 0 with (inject_Z 0).
      rewrite <- Zle_Qle. lia. }
    rewrite Hc. apply round_Z; [exact E | lia].
Qed.

Lemma binary64_sub_num a b :
  (0 <= b <= a)%Z -> (a <= 2 ^ 53)%Z -> sub (num a) (num b) = num (a - b).
Proof.
  intros Hb Ha. rewrite !num_exact by lia. unfold sub, opp, add, signed.
  simpl negb. cbv iota.
  assert (E : this (ofZ a) + - this (ofZ b) == inject_Z (a - b)).
  { rewrite !ofZ_this. unfold Z.sub. rewrite inject_Z_plus, inject_Z_opp.
    reflexivity. }
  destruct (Qeq_bool _ _) eqn:Hz.
  - apply Qeq_bool_iff in Hz. rewrite E in Hz.
    assert (E0 : (a - b = 0)%Z) by (unfold Qeq in Hz; simpl in Hz; lia).
    rewrite E0. reflexivity.
  - assert (Hc : Qle_bool 0 (this (ofZ a) + - this (ofZ b)) = true).
    { apply Qle_bool_iff. rewrite E. change 0 with (inject_Z 0).
      rewrite <- Zle_Qle. lia. }
    rewrite Hc. apply round_Z; [exact E | lia].
Qed.

Lemma binary64_div_exact a b :
  (0 <= a)%Z -> (1 <= b <= 2 ^ 53)%Z -> (a * b <= 2 ^ 53)%Z ->
  div (num (a * b)) (num b) = num a.
Proof.
  intros Ha Hb Hab.
  assert (a <= a * b)%Z by nia.
  rewrite !num_exact by lia. unfold div.
  destruct (decide (ofZ b = 0%Qc)) as [E|_].
  { apply (ofZ_inj b 0) in E. lia. }
  simpl xorb. apply round_Z; [|lia].
  rewrite !ofZ_this, inject_Z_mult. field.
  intros E. unfold Qeq in E. simpl in E. lia.
Qed.

Lemma binary64_ToInt32_div a d :
  (0 <= a < 2 ^ 53)%Z -> (1 <= d <= 2 ^ 53)%Z -> (a / d < 2 ^ 31)%Z ->
  ToInt32 (div (num a) (num d)) = (a / d)%Z.
Proof.
  intros Ha Hd Hq. rewrite !num_exact by lia. unfold div.
  destruct (decide (ofZ d = 0%Qc)) as [E|_].
  { apply (ofZ_inj d 0) in E. lia. }
  simpl xorb. unfold round.
  assert (Ex : this (ofZ a) / this (ofZ d) == inject_Z a / inject_Z d).
  { rewrite !ofZ_this. reflexivity. }
  destruct (roundMagnitude_quotient _ a d Ex Ha ltac:(lia)) as [Hlo Hhi].
  set (r := roundMagnitude (this (ofZ a) / this (ofZ d))) in *.
  assert (Hk : (0 <= a / d)%Z) by (apply Z.div_pos; lia).
  assert (Hov : Qle_bool (2 ^ 1024) r = false).
  { apply not_true_iff_false. intros H. apply Qle_bool_iff in H.
    assert (inject_Z (a / d + 1) <= 2 ^ 53).
    { rewrite <- pow2_inject by lia. rewrite <- Zle_Qle. lia. }
    assert (2 ^ 53 < 2 ^ 1024) by reflexivity.
    lra. }
  rewrite Hov. unfold ToInt32, ToInteger.
  assert (Ef : Qfloor (Q2Qc r) = (a / d)%Z).
  { assert (Er : this (Q2Qc r) == r) by apply Qred_correct.
    rewrite (Qfloor_comp _ _ Er).
    pose proof (Qfloor_le r) as H1. pose proof (Qlt_floor r) as H2.
    assert (Qfloor r < a / d + 1)%Z.
    { rewrite Zlt_Qlt. eapply Qle_lt_trans; eassumption. }
    assert (a / d < Qfloor r + 1)%Z.
    { rewrite Zlt_Qlt. eapply Qle_lt_trans; eassumption. }
    lia. }
  rewrite Ef. apply wrapSigned_small; [lia|]. simpl. lia.
Qed.
End Rounding.

Example binary64_ties_to_even :
  Binary64.add (Binary64.num (2 ^ 53)) (Binary64.num 1) = Binary64.num (2 ^ 53)
  /\ Binary64.add (Binary64.num (2 ^ 53)) (Binary64.num 3)
     = Binary64.num (2 ^ 53 + 4)
  /\ Binary64.num (2 ^ 53 + 1) = Binary64.num (2 ^ 53).
Proof. repeat split; vm_compute; reflexivity. Qed.

Example binary64_tenths :
  Binary64.add (Binary64.div (Binary64.num 1) (Binary64.num 10))
    (Binary64.div (Binary64.num 2) (Binary64.num 10))
  = Binary64.Finite false (Q2Qc (5404319552844596 # 2 ^ 54))
  /\ Binary64.div (Binary64.num 3) (Binary64.num 10)
     = Binary64.Finite false (Q2Qc (5404319552844595 # 2 ^ 54)).
Proof. split; vm_compute; reflexivity. Qed.

Example binary64_division_by_zero :
  Binary64.div (Binary64.num 1) (Binary64.num 0) = Binary64.Infinite false
  /\ Binary64.div (Binary64.num (-1)) (Binary64.num 0) = Binary64.Infinite true
  /\ Binary64.div (Binary64.num 0) (Binary64.num 0) = Binary64.NaN
  /\ Binary64.ToInt32 (Binary64.div (Binary64.num 1) (Binary64.num 0)) = 0.
Proof. repeat split; vm_compute; reflexivity. Qed.

Example binary64_largest :
  Binary64.mul (Binary64.num (2 ^ 1023)) (Binary64.num 2) = Binary64.Infinite false
  /\ Binary64.num (2 ^ 1024 - 2 ^ 970) = Binary64.Infinite false
  /\ Binary64.num (2 ^ 1024 - 2 ^ 970 - 1)
     = Binary64.num (2 ^ 1024 - 2 ^ 971).
Proof. repeat split; vm_compute; reflexivity. Qed.

(** The rounding written out in [Binary64] is that of the machine: the
    four operations agree on every pair of the operands, among them the
    numbers that occur in the example with the multiplier 1000003 below,
    zeros of both signs, and operands above 2^53. *)
Example binary64_agrees_with_the_machine :
  forallb (fun a => sameValue (ofFloat (toFloat a)) (Binary64.num a)) operands
  = true
  /\ forallb (fun '(f, g) =>
       forallb (fun a =>
         forallb (fun b =>
           sameValue (ofFloat (f (toFloat a) (toFloat b)))
             (g (Binary64.num a) (Binary64.num b)))
           operands) operands) operations
     = true.
Proof. split; vm_compute; reflexivity. Qed.

(** They agree on operands that are not integers. *)
Example binary64_agrees_on_quotients :
  forallb (fun '(f, g) =>
    forallb (fun a => forallb (fun b => forallb (fun c => forallb (fun d =>
      sameValue
        (ofFloat (f (toFloat a / toFloat b)%float (toFloat c / toFloat d)%float))
        (g (Binary64.div (Binary64.num a) (Binary64.num b))
           (Binary64.div (Binary64.num c) (Binary64.num d))))
      [0; 3; -7; 10; 1000003; 2 ^ 53 + 1]) [1; -1; 10; 9823; 2 ^ 53])
      [0; 1; 3; 10; 709399307378]) [1; 3; -7; 1000003; 2 ^ 62 - 1]) operations
  = true.
Proof. vm_compute. reflexivity. Qed.

(** They agree down to the subnormal numbers and zero, and up to the
    overflow: the powers of 3 / 1000003 are subnormal from the 56th on
    (multiples of 2^-1074 below 2^52) and zero from the 59th on; those of
    (2^62 - 1) / (-3) are infinite from the 17th on. *)
Example binary64_agrees_at_the_ends :
  let small := (toFloat 3 / toFloat 1000003)%float in
  let small' := Binary64.div (Binary64.num 3) (Binary64.num 1000003) in
  let large := (toFloat (2 ^ 62 - 1) / toFloat (-3))%float in
  let large' := Binary64.div (Binary64.num (2 ^ 62 - 1)) (Binary64.num (-3)) in
  let smaller := products 62 (toFloat 1) small (Binary64.num 1) small' in
  let larger := products 22 (toFloat 1) large (Binary64.num 1) large' in
  let subnormal (n : Z) := Binary64.Finite false (Q2Qc (inject_Z n * 2 ^ (-1074))) in
  forallb (fun '(x, a) => sameValue (ofFloat x) a) (smaller ++ larger) = true
  /\ Forall2 (fun i v => (sameValue v <$> (snd <$> smaller !! i)) = Some true)
       [56; 57; 58; 59]%nat
       [subnormal 105908946016877; subnormal 317725885; subnormal 953;
        Binary64.Finite false 0%Qc]
  /\ Forall2 (fun i v => (sameValue v <$> (snd <$> larger !! i)) = Some true)
       [17; 18]%nat [Binary64.Infinite true; Binary64.Infinite false].
Proof.
  cbv zeta. split; [vm_compute; reflexivity|].
  split; repeat constructor; vm_compute; reflexivity.
Qed.

(** ** The codec in double precision *)

Lemma binary64_length_writeElement hs p v :
  length (Binary64.elements (Binary64.writeElement hs p v))
  = length (Binary64.elements hs).
Proof.
  unfold Binary64.writeElement. case_decide; [apply length_insert | reflexivity].
Qed.

Lemma binary64_elementType_writeElement hs p v :
  Binary64.elementType (Binary64.writeElement hs p v) = Binary64.elementType hs.
Proof. unfold Binary64.writeElement. case_decide; reflexivity. Qed.

Lemma binary64_read_write_eq hs p v :
  0 <= p < Z.of_nat (length (Binary64.elements hs)) ->
  Binary64.readElement (Binary64.writeElement hs p v) p
  = Binary64.toElement (Binary64.elementType hs) v.
Proof.
  intros H. unfold Binary64.readElement, Binary64.writeElement.
  destruct (decide (0 <= p)); [|lia]. simpl.
  rewrite list_lookup_insert_eq by lia. reflexivity.
Qed.

Lemma binary64_read_write_ne hs p q v :
  p <> q ->
  Binary64.readElement (Binary64.writeElement hs p v) q
  = Binary64.readElement hs q.
Proof.
  intros H. unfold Binary64.readElement, Binary64.writeElement.
  destruct (decide (0 <= q)); [|reflexivity].
  destruct (decide (0 <= p)); [|reflexivity]. simpl.
  rewrite list_lookup_insert_ne by lia. reflexivity.
Qed.

Section Codec.
Import Binary64.
Variable ty : ArrayType.
Variable m : Z.
Hypothesis Hm : 1 <= m.
Hypothesis Hfit : forall d, 0 <= d < m -> toElement ty (num d) = num d.

Lemma binary64_setHeight_loop_spec (index step : Z)
    (Hstep : step = 1 \/ step = -1) n :
  forall i heights r,
    elementType heights = ty ->
    m ^ (Z.of_nat n + 1) <= 2 ^ 53 ->
    0 <= r < m ^ (Z.of_nat n + 1) ->
    (forall j, 0 <= j < Z.of_nat n ->
       0 <= index + i + step * j < Z.of_nat (length (elements heights))) ->
    exists heights',
      setHeight_loop (num m) index n i step heights (num r)
        (num (m ^ Z.of_nat n))
      = (heights', num (r mod m), i + step * Z.of_nat n)
      /\ elementType heights' = ty
      /\ length (elements heights') = length (elements heights)
      /\ (forall j, 0 <= j < Z.of_nat n ->
            readElement heights' (index + i + step * j)
            = num ((r / m ^ (Z.of_nat n - j)) mod m))
      /\ (forall p, (forall j, 0 <= j < Z.of_nat n -> p <> index + i + step * j) ->
            readElement heights' p = readElement heights p).
Proof.
  induction n as [|n IH]; intros i heights r Hty Hbound Hr Hb.
  - exists heights. simpl. rewrite Z.pow_1_r in Hr.
    rewrite Z.mod_small by lia. rewrite Z.mul_0_r, Z.add_0_r.
    repeat split; auto. intros j Hj. lia.
  - assert (Hpn : 0 < m ^ Z.of_nat (S n)) by (apply Z.pow_pos_nonneg; lia).
    assert (Hpn' : 0 < m ^ Z.of_nat n) by (apply Z.pow_pos_nonneg; lia).
    assert (Epow : m ^ (Z.of_nat (S n) + 1) = m ^ Z.of_nat (S n) * m).
    { rewrite Z.pow_add_r, Z.pow_1_r by lia. reflexivity. }
    assert (Epow' : m ^ Z.of_nat (S n) = m ^ Z.of_nat n * m).
    { rewrite Nat2Z.inj_succ, Z.pow_succ_r by lia. ring. }
    assert (Hd : 0 <= r / m ^ Z.of_nat (S n) < m).
    { split. apply Z.div_pos; lia.
      apply Z.div_lt_upper_bound; lia. }
    assert (Hdiv : m ^ Z.of_nat (S n) < 2 ^ 53).
    { destruct (decide (m = 1)) as [->|Hm1].
      - rewrite Z.pow_1_l by lia. lia.
      - nia. }
    assert (Hm31 : m < 2 ^ 31).
    { assert (m * m <= 2 ^ 53) by nia. nia. }
    assert (Hmod : 0 <= r mod m ^ Z.of_nat (S n) < m ^ Z.of_nat (S n))
      by (apply Z.mod_pos_bound; lia).
    assert (Hprod : r / m ^ Z.of_nat (S n) * m ^ Z.of_nat (S n) <= r).
    { pose proof (Z.div_mod r (m ^ Z.of_nat (S n)) ltac:(lia)). lia. }
    cbn [setHeight_loop].
    rewrite binary64_ToInt32_div by lia.
    rewrite binary64_read_write_eq.
    2:{ specialize (Hb 0 ltac:(lia)). rewrite Z.mul_0_r, Z.add_0_r in Hb. exact Hb. }
    rewrite Hty, Hfit by exact Hd.
    set (heights1 := writeElement heights (index + i) (num (r / m ^ Z.of_nat (S n)))).
    assert (E1 : sub (num r) (mul (num (r / m ^ Z.of_nat (S n))) (num (m ^ Z.of_nat (S n))))
                 = num (r mod m ^ Z.of_nat (S n))).
    { rewrite binary64_mul_num, binary64_sub_num by lia.
      f_equal. rewrite Z.mod_eq by lia. ring. }
    assert (E2 : div (num (m ^ Z.of_nat (S n))) (num m) = num (m ^ Z.of_nat n)).
    { rewrite Epow'. apply binary64_div_exact; lia. }
    rewrite E1, E2.
    destruct (IH (i + step) heights1 (r mod m ^ Z.of_nat (S n)))
      as (hs' & Hrun & Hty' & Hlen & Hdig & Hframe).
    { unfold heights1. rewrite binary64_elementType_writeElement. exact Hty. }
    { replace (Z.of_nat n + 1) with (Z.of_nat (S n)) by lia. lia. }
    { replace (Z.of_nat n + 1) with (Z.of_nat (S n)) by lia. exact Hmod. }
    { intros j Hj. unfold heights1. rewrite binary64_length_writeElement.
      specialize (Hb (j + 1) ltac:(lia)).
      replace (index + (i + step) + step * j) with (index + i + step * (j + 1)) by ring.
      exact Hb. }
    exists hs'. rewrite Hrun.
    rewrite mod_mod_pow by lia.
    split; [f_equal; rewrite Nat2Z.inj_succ; ring|].
    split; [exact Hty'|].
    split; [rewrite Hlen; apply binary64_length_writeElement|].
    split.
    + intros j Hj. destruct (decide (j = 0)) as [->|Hj0].
      * rewrite Z.mul_0_r, Z.add_0_r, Z.sub_0_r.
        rewrite Hframe.
        2:{ intros j' Hj'. destruct Hstep; subst step; lia. }
        unfold heights1. rewrite binary64_read_write_eq.
        2:{ specialize (Hb 0 ltac:(lia)). rewrite Z.mul_0_r, Z.add_0_r in Hb. exact Hb. }
        rewrite Hty, Hfit by exact Hd. rewrite Z.mod_small by exact Hd. reflexivity.
      * specialize (Hdig (j - 1) ltac:(lia)).
        replace (index + (i + step) + step * (j - 1)) with (index + i + step * j) in Hdig by ring.
        rewrite Hdig.
        replace (Z.of_nat n - (j - 1)) with (Z.of_nat (S n) - j) by lia.
        rewrite digit_mod_pow by lia. reflexivity.
    + intros p Hp. rewrite Hframe.
      * unfold heights1. apply binary64_read_write_ne.
        specialize (Hp 0 ltac:(lia)). rewrite Z.mul_0_r, Z.add_0_r in Hp. congruence.
      * intros j Hj. specialize (Hp (j + 1) ltac:(lia)).
        replace (index + (i + step) + step * j) with (index + i + step * (j + 1)) by ring.
        exact Hp.
Qed.

Lemma binary64_getHeight_loop_spec heights (index step r : Z) n :
  m <= 2 ^ 53 ->
  0 <= r < 2 ^ 53 ->
  forall i acc,
    (forall j, 0 <= j < Z.of_nat n ->
       readElement heights (index + i + step * j)
       = num ((r / m ^ (Z.of_nat n - 1 - j)) mod m)) ->
    acc = r / m ^ Z.of_nat n ->
    getHeight_loop heights (num m) index n i step (num acc) = num r.
Proof.
  intros Hm53 Hr.
  induction n as [|n IH]; intros i acc Hdig Hacc.
  - simpl. rewrite Z.pow_0_r, Z.div_1_r in Hacc. congruence.
  - cbn [getHeight_loop].
    pose proof (Hdig 0 ltac:(lia)) as H0.
    rewrite Z.mul_0_r, Z.add_0_r in H0. rewrite H0.
    replace (Z.of_nat (S n) - 1 - 0) with (Z.of_nat n) by lia.
    assert (Hp : 0 < m ^ Z.of_nat n) by (apply Z.pow_pos_nonneg; lia).
    assert (Hq : 0 <= r / m ^ Z.of_nat n <= r).
    { split; [apply Z.div_pos; lia|].
      apply Z.div_le_upper_bound; [lia|]. nia. }
    assert (Hstep : r / m ^ Z.of_nat n = acc * m + (r / m ^ Z.of_nat n) mod m).
    { subst acc. rewrite Nat2Z.inj_succ, Z.pow_succ_r by lia.
      rewrite (Z.mul_comm m), <- Z.div_div by lia.
      pose proof (Z.div_mod (r / m ^ Z.of_nat n) m ltac:(lia)). lia. }
    assert (Hmod : 0 <= (r / m ^ Z.of_nat n) mod m < m)
      by (apply Z.mod_pos_bound; lia).
    assert (Hacc0 : 0 <= acc).
    { subst acc. apply Z.div_pos; [lia|]. apply Z.pow_pos_nonneg; lia. }
    rewrite binary64_mul_num, binary64_add_num by nia.
    apply IH.
    + intros j Hj. specialize (Hdig (j + 1) ltac:(lia)).
      replace (index + (i + step) + step * j) with (index + i + step * (j + 1)) by ring.
      rewrite Hdig.
      replace (Z.of_nat (S n) - 1 - (j + 1)) with (Z.of_nat n - 1 - j) by lia.
      reflexivity.
    + lia.
Qed.
End Codec.

Lemma binary64_ToInteger_num z :
  0 <= z <= 2 ^ 53 -> Binary64.ToInteger (Binary64.num z) = z.
Proof.
  intros Hz. rewrite num_exact by exact Hz. unfold Binary64.ToInteger.
  rewrite (Qfloor_comp _ _ (ofZ_this z)). apply Qfloor_Z.
Qed.

(** C2, amended: in double precision, for a structure with at least one
    element per height, a multiplier [m >= 1] with
    [m ^ elementsPerHeight <= 2^53] whose digits the element type of the
    buffer stores unchanged, and an integer height [h] with [0 <= h < m ^
    elementsPerHeight], writing [h] with [setHeight] (called with the
    divisor [m ^ (elementsPerHeight - 1)]) at an index inside the buffer and
    reading that index with [getHeight] gives [h] back; the element written
    last (the first one, or the last one when big-endian) holds the
    remainder [h mod m]. *)
Theorem setHeight_getHeight_roundtrip heights elementsPerHeight (m : Z)
    stride isBigEndian index (h : Z) :
  1 <= elementsPerHeight ->
  1 <= m ->
  m ^ elementsPerHeight <= 2 ^ 53 ->
  (forall d, 0 <= d < m ->
     Binary64.toElement (Binary64.elementType heights) (Binary64.num d)
     = Binary64.num d) ->
  0 <= index * stride ->
  index * stride + elementsPerHeight
    <= Z.of_nat (length (Binary64.elements heights)) ->
  0 <= h < m ^ elementsPerHeight ->
  let heights' :=
    Binary64.setHeight heights elementsPerHeight (Binary64.num m)
      (Binary64.num (m ^ (elementsPerHeight - 1))) stride isBigEndian index
      (Binary64.num h) in
  Binary64.getHeight heights' elementsPerHeight (Binary64.num m) stride
    isBigEndian index
  = Binary64.num h
  /\ Binary64.readElement heights'
       (index * stride + (if isBigEndian then elementsPerHeight - 1 else 0))
     = Binary64.num (h mod m).
Proof.
  intros He Hm Hexact Hfit Hlo Hhi Hh.
  set (n := Z.to_nat (elementsPerHeight - 1)).
  assert (En : Z.of_nat n = elementsPerHeight - 1) by (unfold n; lia).
  set (i0 := if isBigEndian then 0 else elementsPerHeight - 1).
  set (step := if isBigEndian then 1 else -1).
  assert (Hstep : step = 1 \/ step = -1) by (unfold step; destruct isBigEndian; auto).
  assert (Hpos : forall j, 0 <= j <= Z.of_nat n ->
            0 <= index * stride + i0 + step * j
              < Z.of_nat (length (Binary64.elements heights))).
  { intros j Hj. unfold i0, step. destruct isBigEndian; lia. }
  destruct (binary64_setHeight_loop_spec (Binary64.elementType heights) m Hm Hfit
              (index * stride) step Hstep n i0 heights h)
    as (hs1 & Hrun & Hty & Hlen & Hdig & Hframe).
  { reflexivity. }
  { rewrite En. replace (elementsPerHeight - 1 + 1) with elementsPerHeight by lia.
    exact Hexact. }
  { rewrite En. replace (elementsPerHeight - 1 + 1) with elementsPerHeight by lia. exact Hh. }
  { intros j Hj. apply Hpos. lia. }
  set (last := index * stride + (i0 + step * Z.of_nat n)).
  assert (Hlast : last = index * stride + (if isBigEndian then elementsPerHeight - 1 else 0)).
  { unfold last, i0, step. destruct isBigEndian; lia. }
  assert (Hlastb : 0 <= last < Z.of_nat (length (Binary64.elements hs1))).
  { rewrite Hlen. unfold last. rewrite Z.add_assoc. apply Hpos. lia. }
  assert (Hmod : 0 <= h mod m < m) by (apply Z.mod_pos_bound; lia).
  assert (Hset : Binary64.setHeight heights elementsPerHeight (Binary64.num m)
      (Binary64.num (m ^ (elementsPerHeight - 1))) stride isBigEndian index
      (Binary64.num h)
    = Binary64.writeElement hs1 last (Binary64.num (h mod m))).
  { unfold Binary64.setHeight.
    replace (Z.to_nat (elementsPerHeight - 1)) with n by reflexivity.
    rewrite <- En.
    unfold last. unfold i0, step in Hrun |- *. rewrite En in Hrun |- *.
    destruct isBigEndian; rewrite Hrun; reflexivity. }
  intros heights'. unfold heights'. clear heights'. rewrite Hset.
  assert (Hrd : Binary64.readElement
                  (Binary64.writeElement hs1 last (Binary64.num (h mod m))) last
                = Binary64.num (h mod m)).
  { rewrite binary64_read_write_eq by exact Hlastb.
    rewrite Hty, Hfit by exact Hmod. reflexivity. }
  split; [|rewrite <- Hlast; exact Hrd].
  unfold Binary64.getHeight.
  replace (Z.to_nat elementsPerHeight) with (S n) by (unfold n; lia).
  assert (Hg : forall hs, (if isBigEndian
           then Binary64.getHeight_loop hs (Binary64.num m) (index * stride) (S n)
                  0 1 (Binary64.num 0)
           else Binary64.getHeight_loop hs (Binary64.num m) (index * stride) (S n)
                  (elementsPerHeight - 1) (-1) (Binary64.num 0))
    = Binary64.getHeight_loop hs (Binary64.num m) (index * stride) (S n) i0 step
        (Binary64.num 0)).
  { intros hs. unfold i0, step. destruct isBigEndian; reflexivity. }
  rewrite Hg.
  assert (Hm53 : m <= m ^ elementsPerHeight).
  { replace elementsPerHeight with (Z.succ (elementsPerHeight - 1)) by lia.
    rewrite Z.pow_succ_r by lia.
    assert (0 < m ^ (elementsPerHeight - 1)) by (apply Z.pow_pos_nonneg; lia).
    nia. }
  apply (binary64_getHeight_loop_spec m ltac:(lia)).
  - lia.
  - lia.
  - intros j Hj.
    replace (Z.of_nat (S n) - 1 - j) with (Z.of_nat n - j) by lia.
    destruct (decide (j = Z.of_nat n)) as [->|Hne].
    + replace (index * stride + i0 + step * Z.of_nat n) with last by (unfold last; ring).
      rewrite Hrd. rewrite Z.sub_diag, Z.pow_0_r, Z.div_1_r. reflexivity.
    + rewrite binary64_read_write_ne.
      * apply Hdig. lia.
      * unfold last. destruct Hstep as [-> | ->]; lia.
  - symmetry. apply Z.div_small.
    replace (Z.of_nat (S n)) with elementsPerHeight by lia. exact Hh.
Qed.

Lemma setHeight_getHeight_roundtrip_witness :
  let heights' :=
    Binary64.setHeight (Binary64.newArray Uint8Array 4) 2 (Binary64.num 256)
      (Binary64.num (256 ^ (2 - 1))) 2 false 1 (Binary64.num 1000) in
  Binary64.getHeight heights' 2 (Binary64.num 256) 2 false 1 = Binary64.num 1000
  /\ Binary64.readElement heights' (1 * 2 + 0) = Binary64.num (1000 mod 256).
Proof.
  apply (setHeight_getHeight_roundtrip (Binary64.newArray Uint8Array 4) 2 256 2
           false 1 1000).
  - lia.
  - lia.
  - lia.
  - intros d Hd. simpl. rewrite binary64_ToInteger_num by lia.
    rewrite Z.mod_small by lia. reflexivity.
  - lia.
  - simpl. lia.
  - lia.
Defined.

(** C2 as stated fails once [m ^ elementsPerHeight] exceeds 2^53.  With the
    multiplier 1000003, three elements per height in a [Uint32Array] and
    the height 9823768337395786, an integer that double precision
    represents and that is below 1000003^3: the product 9823 * 1000003^2
    is rounded, the elements written are 179187, 709397 and 9823, and
    reading them gives 9823768337395784. *)
Lemma setHeight_getHeight_loses_low_bit :
  let m := 1000003 in
  let h := 9823768337395786 in
  let heights' :=
    Binary64.setHeight (Binary64.newArray Uint32Array 3) 3 (Binary64.num m)
      (Binary64.num (m ^ (3 - 1))) 3 false 0 (Binary64.num h) in
  (1 <= m <= 2 ^ 31 /\ 0 <= h < m ^ 3 /\ 2 ^ 53 < m ^ 3)
  /\ (forall d, 0 <= d < m ->
        Binary64.toElement Uint32Array (Binary64.num d) = Binary64.num d)
  /\ Binary64.num h = Binary64.Finite false (ofZ h)
  /\ Binary64.mul (Binary64.num 9823) (Binary64.num (m ^ 2))
     = Binary64.num (9823 * m ^ 2 + 1)
  /\ Binary64.elements heights'
     = [Binary64.num 179187; Binary64.num 709397; Binary64.num 9823]
  /\ Binary64.getHeight heights' 3 (Binary64.num m) 3 false 0
     = Binary64.num 9823768337395784
  /\ Binary64.num 9823768337395784 <> Binary64.num h.
Proof.
  intros m h heights'.
  split; [unfold m, h; lia|].
  split.
  { intros d Hd. unfold m in Hd. simpl.
    rewrite binary64_ToInteger_num by lia.
    rewrite Z.mod_small by lia. reflexivity. }
  repeat split; try (vm_compute; reflexivity).
  vm_compute. discriminate.
Qed.

(** The same steps with the doubles of the machine: the two quotients of
    [setHeight], which truncate to 9823 and 709397, its two subtractions,
    the first of a rounded product, and the sum of [getHeight]. *)
Example setHeight_getHeight_on_the_machine :
  let m := toFloat 1000003 in
  let divisor := toFloat (1000003 ^ 2) in
  let h := toFloat 9823768337395786 in
  (PrimFloat.leb (toFloat 9823) (h / divisor)
   && PrimFloat.ltb (h / divisor) (toFloat 9824) = true
   /\ toFloat 9823 * divisor = toFloat (9823 * 1000003 ^ 2 + 1)
   /\ h - toFloat 9823 * divisor = toFloat 709399307378
   /\ divisor / m = m
   /\ PrimFloat.leb (toFloat 709397) (toFloat 709399307378 / m)
      && PrimFloat.ltb (toFloat 709399307378 / m) (toFloat 709398) = true
   /\ toFloat 709399307378 - toFloat 709397 * m = toFloat 179187
   /\ (toFloat 9823 * m + toFloat 709397) * m + toFloat 179187
      = toFloat 9823768337395784
   /\ PrimFloat.eqb (toFloat 9823768337395784) h = false)%float.
Proof. repeat split; vm_compute; reflexivity. Qed.

Example setHeight_little_endian :
  elements (setHeight (newArray Uint8Array 4) 2 (num 256)
              (powNumber (num 256) (2 - 1)) 2 false 1 (num 1000))
  = [num 0; num 0; num 232; num 3].
Proof. vm_compute. reflexivity. Qed.

Example setHeight_big_endian :
  elements (setHeight (newArray Uint8Array 4) 2 (num 256)
              (powNumber (num 256) (2 - 1)) 2 true 1 (num 1000))
  = [num 0; num 0; num 3; num 232].
Proof. vm_compute. reflexivity. Qed.

Example getHeight_big_endian :
  getHeight
    {| elementType := Uint8Array; elements := [num 0; num 0; num 3; num 232] |}
    2 (num 256) 2 true 1
  = num 1000.
Proof. vm_compute. reflexivity. Qed.

(** ** Interpolation *)

Lemma ToInteger_unit (q : Qc) : (0 <= q)%Qc -> (q < 1)%Qc -> ToInteger q = 0.
Proof.
  intros H0 H1. unfold ToInteger.
  assert (Hb : Qle_bool 0 q = true) by (apply Qle_bool_iff; exact H0).
  rewrite Hb.
  pose proof (Qfloor_le q) as Hl. pose proof (Qlt_floor q) as Hu.
  assert (Qfloor q < 1).
  { rewrite Zlt_Qlt. eapply Qle_lt_trans; [exact Hl | exact H1]. }
  assert (0 < Qfloor q + 1).
  { rewrite Zlt_Qlt. eapply Qle_lt_trans; [exact H0 | exact Hu]. }
  lia.
Qed.

Lemma ToInt32_unit (q : Qc) : (0 <= q)%Qc -> (q < 1)%Qc -> ToInt32 (Some q) = 0.
Proof. intros H0 H1. unfold ToInt32. rewrite ToInteger_unit by assumption. reflexivity. Qed.

Lemma ToInt32_num z : - 2 ^ 31 <= z < 2 ^ 31 -> ToInt32 (num z) = z.
Proof.
  intros H. unfold ToInt32, num. rewrite ToInteger_ofZ.
  apply wrapSigned_small; simpl; lia.
Qed.

Lemma ltNumber_true (x y : Qc) : ltNumber (Some x) (Some y) = true <-> (x < y)%Qc.
Proof.
  unfold ltNumber. rewrite Qclt_alt. destruct (x ?= y)%Qc; split; congruence.
Qed.

Lemma ltNumber_false (x y : Qc) : ltNumber (Some x) (Some y) = false <-> (y <= x)%Qc.
Proof.
  rewrite <- not_true_iff_false, ltNumber_true. split.
  - apply Qcnot_lt_le.
  - apply Qcle_not_lt.
Qed.

Lemma getHeight_single (hs : TypedArray) (m : Qc) bigEndian index (v : Qc) :
  readElement hs index = Some v ->
  getHeight hs 1 (Some m) 1 bigEndian index = Some v.
Proof.
  intros H. unfold getHeight. rewrite Z.mul_1_r.
  assert (E : (num 0 * Some m + Some v)%js = Some v).
  { unfold num, nmul, nadd, lift2. f_equal. change (ofZ 0) with 0%Qc. ring. }
  change (Z.to_nat 1) with 1%nat. change (1 - 1) with 0.
  destruct bigEndian; cbn [getHeight_loop]; rewrite Z.add_0_r, H; exact E.
Qed.

(** The offset of a query in a grid of one cell. *)
Lemma cell_offset (lo hi d : Qc) :
  (lo < hi)%Qc ->
  ((Some (lo + d * (hi - lo))%Qc - Some lo) * num (2 - 1) / (Some hi - Some lo))%js
  = Some d.
Proof.
  intros H. unfold nsub, nmul, ndiv, lift2, num.
  destruct (decide ((hi - lo)%Qc = 0%Qc)) as [E|Hne].
  - exfalso. assert (hi = lo) by (rewrite <- (Qcplus_0_l lo), <- E; ring).
    exact (Qclt_not_eq _ _ H (eq_sym H0)).
  - f_equal. change (ofZ (2 - 1)) with 1%Qc. field. exact Hne.
Qed.

Lemma cell_locate (d : Qc) :
  (0 <= d)%Qc -> (d <= 1)%Qc ->
  (if decide (ToInt32 (Some d) + 1 >= 2) then (2 - 1, 2 - 2)
   else (ToInt32 (Some d) + 1, ToInt32 (Some d))) = (1, 0).
Proof.
  intros H0 H1. destruct (Qcle_lt_or_eq _ _ H1) as [Hlt | ->].
  - rewrite ToInt32_unit by assumption. reflexivity.
  - reflexivity.
Qed.

Lemma interpolateHeight_cell ty (m : Qc) bigEndian (r : Rectangle)
    (w s e n dx dy nw ne sw se : Qc) :
  west r = Some w -> south r = Some s -> east r = Some e -> north r = Some n ->
  (w < e)%Qc -> (s < n)%Qc ->
  (0 <= dx)%Qc -> (dx <= 1)%Qc -> (0 <= dy)%Qc -> (dy <= 1)%Qc ->
  interpolateHeight (cellArray ty nw ne sw se) 1 (Some m) 1 bigEndian r 2 2
    (Some (w + dx * (e - w))%Qc) (Some (s + dy * (n - s))%Qc)
  = triangleInterpolateHeight (Some dx) (Some dy) (Some sw) (Some se) (Some nw) (Some ne).
Proof.
  intros Hw Hs He Hn Hwe Hsn Hx0 Hx1 Hy0 Hy1.
  unfold interpolateHeight. rewrite Hw, Hs, He, Hn.
  rewrite !cell_offset by assumption.
  rewrite (cell_locate dx), (cell_locate dy) by assumption.
  cbn zeta.
  assert (E0 : forall d : Qc, (Some d - num 0)%js = Some d).
  { intros d. unfold nsub, lift2, num. f_equal. change (ofZ 0) with 0%Qc. ring. }
  rewrite !E0.
  rewrite (getHeight_single _ m bigEndian _ sw) by reflexivity.
  rewrite (getHeight_single _ m bigEndian _ se) by reflexivity.
  rewrite (getHeight_single _ m bigEndian _ nw) by reflexivity.
  rewrite (getHeight_single _ m bigEndian _ ne) by reflexivity.
  reflexivity.
Qed.

Lemma triangleInterpolateHeight_rule (dx dy : Qc) sw se nw ne :
  triangleInterpolateHeight (Some dx) (Some dy) sw se nw ne
  = triangulationRule dx dy sw se nw ne.
Proof.
  unfold triangleInterpolateHeight, triangulationRule.
  destruct (Qclt_le_dec dy dx) as [Hlt | Hle].
  - apply ltNumber_true in Hlt. rewrite Hlt. reflexivity.
  - apply ltNumber_false in Hle. rewrite Hle. reflexivity.
Qed.






Lemma center_coordinate (lo hi : Qc) :
  ((Some lo + Some hi) * Some half)%js = Some (lo + half * (hi - lo))%Qc.
Proof.
  unfold nadd, nmul, lift2. f_equal.
  assert (E : (half + half = 1)%Qc) by (apply Qc_is_canon; reflexivity).
  transitivity ((lo + hi) * half + lo * (1 - (half + half)))%Qc.
  - rewrite E. ring.
  - ring.
Qed.

Lemma center_height :
  (triangleInterpolateHeight (Some half) (Some half) (num 30) (num 40)
     (num 10) (num 20) * num 1 + num 0)%js = num 25.
Proof.
  rewrite triangleInterpolateHeight_rule. unfold triangulationRule.
  destruct (Qclt_le_dec half half) as [Hlt|_].
  - exfalso. exact (Qclt_not_eq _ _ Hlt eq_refl).
  - unfold upperLeftTriangle, nadd, nsub, nmul, lift2, num.
    f_equal; try (apply Qc_is_canon; reflexivity).
Qed.

(** C8: the tile of width 2 and height 2 with the buffer 10, 20, 30, 40
    (north row first) and the default structure has height 25 at the center
    of its rectangle. *)
Theorem interpolateHeight_center (ty : ArrayType) (r : Rectangle) (w s e n : Qc) :
  west r = Some w -> south r = Some s -> east r = Some e -> north r = Some n ->
  (w < e)%Qc -> (s < n)%Qc ->
  match
    HeightmapTerrainData_new (Some {|
      opt_buffer :=
        Some {| elementType := ty;
                elements := [num 10; num 20; num 30; num 40] |};
      opt_width := Some 2;
      opt_height := Some 2;
      opt_childTileMask := None;
      opt_waterMask := None;
      opt_structure := None;
      opt_createdByUpsampling := None
    |})
  with
  | Return tile =>
      HeightmapTerrainData_interpolateHeight tile r
        (Rectangle_center r).1 (Rectangle_center r).2
      = Return (num 25)
  | Throw _ => False
  end.
Proof.
  intros Hw Hs He Hn Hwe Hsn.
  cbn [HeightmapTerrainData_new opt_buffer opt_width opt_height opt_structure].
  unfold HeightmapTerrainData_interpolateHeight.
  cbn [_mesh _buffer _structure _width _height DEFAULT_STRUCTURE elementsPerHeight
       elementMultiplier stride isBigEndian heightScale heightOffset].
  unfold Rectangle_center. cbn [fst snd]. rewrite Hw, Hs, He, Hn.
  fold half. rewrite !center_coordinate.
  assert (H0 : (0 <= half)%Qc) by (vm_compute; discriminate).
  assert (H1 : (half <= 1)%Qc) by (vm_compute; discriminate).
  pose proof (interpolateHeight_cell ty (ofZ 256) false r w s e n half half
                (ofZ 10) (ofZ 20) (ofZ 30) (ofZ 40) Hw Hs He Hn Hwe Hsn H0 H1 H0 H1)
    as Hcell.
  unfold cellArray in Hcell. unfold num at 5. 
  f_equal. change (Some (ofZ 256)) with (num 256) in Hcell.
  etransitivity; [|exact center_height].
  f_equal. f_equal. exact Hcell.
Qed.

Lemma interpolateHeight_center_witness :
  HeightmapTerrainData_interpolateHeight (sampleTile Uint8Array 15) unitRectangle
    (Rectangle_center unitRectangle).1 (Rectangle_center unitRectangle).2
  = Return (num 25).
Proof.
  refine (interpolateHeight_center Uint8Array unitRectangle (ofZ 0) (ofZ 0)
            (ofZ 1) (ofZ 1) eq_refl eq_refl eq_refl eq_refl _ _);
    vm_compute; reflexivity.
Defined.

(** ** Child availability *)

Lemma wrapSigned_mod z : wrapSigned 32 z mod 2 ^ 32 = z mod 2 ^ 32.
Proof.
  unfold wrapSigned. rewrite Zminus_mod_idemp_l. f_equal. lia.
Qed.

Lemma testbit_wrapSigned z b :
  0 <= b < 32 -> Z.testbit (wrapSigned 32 z) b = Z.testbit z b.
Proof.
  intros Hb.
  rewrite <- (Z.mod_pow2_bits_low (wrapSigned 32 z) 32 b) by lia.
  rewrite wrapSigned_mod. apply Z.mod_pow2_bits_low. lia.
Qed.

Lemma land_pow2_eqb a b :
  0 <= b -> (Z.land a (2 ^ b) =? 0) = negb (Z.testbit a b).
Proof.
  intros Hb. destruct (Z.testbit a b) eqn:E; simpl.
  - apply Z.eqb_neq. intros H0.
    assert (Hbit : Z.testbit (Z.land a (2 ^ b)) b = true).
    { rewrite Z.land_spec, E, Z.pow2_bits_true by lia. reflexivity. }
    rewrite H0, Z.bits_0 in Hbit. discriminate.
  - apply Z.eqb_eq. apply Z.bits_inj'. intros n Hn.
    rewrite Z.land_spec, Z.bits_0.
    destruct (decide (n = b)) as [->|Hne].
    + rewrite E. reflexivity.
    + rewrite Z.pow2_bits_false by lia. apply andb_false_r.
Qed.

Lemma mask_bit mask b :
  0 <= b < 4 ->
  negb (bitAnd mask (shiftLeft 1 b) =? 0) = Z.testbit mask b.
Proof.
  intros Hb. unfold bitAnd.
  assert (E : wrapSigned 32 (shiftLeft 1 b) = 2 ^ b).
  { assert (b = 0 \/ b = 1 \/ b = 2 \/ b = 3) as [-> | [-> | [-> | ->]]] by lia;
      reflexivity. }
  rewrite E, land_pow2_eqb by lia.
  rewrite negb_involutive. apply testbit_wrapSigned. lia.
Qed.

Lemma isChildAvailable_bit this (thisX thisY childX childY : Z) :
  isChildAvailable this (Some thisX) (Some thisY) (Some childX) (Some childY)
  = Return (Z.testbit (_childTileMask this)
              (childBit (bool_decide (childX <> thisX * 2))
                        (bool_decide (childY <> thisY * 2)))).
Proof.
  unfold isChildAvailable. f_equal.
  destruct (decide (childX <> thisX * 2)) as [Hx|Hx];
    destruct (decide (childY <> thisY * 2)) as [Hy|Hy];
    rewrite ?(bool_decide_eq_true_2 _ Hx), ?(bool_decide_eq_false_2 _ Hx),
            ?(bool_decide_eq_true_2 _ Hy), ?(bool_decide_eq_false_2 _ Hy);
    simpl childBit; apply mask_bit; lia.
Qed.

(** C4, amended: for every parent [(x, y)] and every mask,
    [isChildAvailable] returns bit 2 (northwest) of the mask for the child
    [(2x, 2y)], bit 3 (northeast) for [(2x+1, 2y)], bit 0 (southwest) for
    [(2x, 2y+1)] and bit 1 (southeast) for [(2x+1, 2y+1)]: the row
    [thisY * 2] is the north one. *)
Theorem isChildAvailable_children this (x y : Z) :
  isChildAvailable this (Some x) (Some y) (Some (x * 2)) (Some (y * 2))
    = Return (Z.testbit (_childTileMask this) 2)
  /\ isChildAvailable this (Some x) (Some y) (Some (x * 2 + 1)) (Some (y * 2))
    = Return (Z.testbit (_childTileMask this) 3)
  /\ isChildAvailable this (Some x) (Some y) (Some (x * 2)) (Some (y * 2 + 1))
    = Return (Z.testbit (_childTileMask this) 0)
  /\ isChildAvailable this (Some x) (Some y) (Some (x * 2 + 1)) (Some (y * 2 + 1))
    = Return (Z.testbit (_childTileMask this) 1).
Proof.
  rewrite !isChildAvailable_bit.
  rewrite (bool_decide_eq_false_2 (x * 2 <> x * 2)) by congruence.
  rewrite (bool_decide_eq_false_2 (y * 2 <> y * 2)) by congruence.
  rewrite (bool_decide_eq_true_2 (x * 2 + 1 <> x * 2)) by lia.
  rewrite (bool_decide_eq_true_2 (y * 2 + 1 <> y * 2)) by lia.
  repeat split.
Qed.

(** C4 as stated fails: with only the southwest bit (bit 0) set, the child
    [(2x, 2y)] of the tile [(0, 0)] is reported unavailable. *)
Lemma isChildAvailable_2x_2y_is_not_bit_0 :
  isChildAvailable (sampleTile Uint8Array 1) (Some 0) (Some 0) (Some (0 * 2)) (Some (0 * 2))
    = Return false
  /\ Z.testbit (_childTileMask (sampleTile Uint8Array 1)) 0 = true.
Proof. split; reflexivity. Qed.



(** ** Upsampling *)

(** C7: [upsample] throws a [DeveloperError] whenever the descendant
    level exceeds this level by more than one, and on a tile without a mesh
    it never returns a tile: it returns [undefined] when the arguments pass
    the checks. *)
Theorem upsample_preconditions (this : HeightmapTerrainData)
    (tilingScheme : option TilingScheme)
    (thisX thisY thisLevel descendantX descendantY descendantLevel : option Z) :
  (forall l dl,
     thisLevel = Some l -> descendantLevel = Some dl -> dl - l > 1 ->
     exists message,
       upsample this tilingScheme thisX thisY thisLevel descendantX
         descendantY descendantLevel = Throw (DeveloperError message))
  /\ (_mesh this = None ->
      (forall data,
         upsample this tilingScheme thisX thisY thisLevel descendantX
           descendantY descendantLevel <> Return (Some data))
      /\ (forall ts x y l dx dy dl,
            tilingScheme = Some ts -> thisX = Some x -> thisY = Some y ->
            thisLevel = Some l -> descendantX = Some dx ->
            descendantY = Some dy -> descendantLevel = Some dl ->
            dl - l <= 1 ->
            upsample this tilingScheme thisX thisY thisLevel descendantX
              descendantY descendantLevel = Return None)).
Proof.
  split; [|intros Hmesh; split].
  - intros l dl -> -> Hdiff. unfold upsample.
    destruct tilingScheme; [|eauto]. destruct thisX; [|eauto].
    destruct thisY; [|eauto]. destruct descendantX; [|eauto].
    destruct descendantY; [|eauto].
    destruct (decide (dl - l > 1)); [eauto | lia].
  - intros data. unfold upsample.
    destruct tilingScheme; [|discriminate]. destruct thisX; [|discriminate].
    destruct thisY; [|discriminate]. destruct thisLevel; [|discriminate].
    destruct descendantX; [|discriminate]. destruct descendantY; [|discriminate].
    destruct descendantLevel; [|discriminate].
    destruct (decide _); [discriminate|]. rewrite Hmesh. discriminate.
  - intros ts x y l dx dy dl -> -> -> -> -> -> -> Hdiff. unfold upsample.
    destruct (decide (dl - l > 1)); [lia|]. rewrite Hmesh. reflexivity.
Qed.

Lemma upsample_preconditions_witness :
  (forall l dl,
     Some 3 = Some l -> Some 5 = Some dl -> dl - l > 1 ->
     exists message,
       upsample (sampleTile Uint8Array 15) (Some unitTilingScheme) (Some 0) (Some 0)
         (Some 3) (Some 0) (Some 0) (Some 5) = Throw (DeveloperError message))
  /\ (_mesh (sampleTile Uint8Array 15) = None ->
      (forall data,
         upsample (sampleTile Uint8Array 15) (Some unitTilingScheme) (Some 0) (Some 0)
           (Some 3) (Some 0) (Some 0) (Some 5) <> Return (Some data))
      /\ (forall ts x y l dx dy dl,
            Some unitTilingScheme = Some ts -> Some 0 = Some x -> Some 0 = Some y ->
            Some 3 = Some l -> Some 0 = Some dx ->
            Some 0 = Some dy -> Some 5 = Some dl ->
            dl - l <= 1 ->
            upsample (sampleTile Uint8Array 15) (Some unitTilingScheme) (Some 0) (Some 0)
              (Some 3) (Some 0) (Some 0) (Some 5) = Return None)).
Proof.
  exact (upsample_preconditions (sampleTile Uint8Array 15) (Some unitTilingScheme)
           (Some 0) (Some 0) (Some 3) (Some 0) (Some 0) (Some 5)).
Defined.

(** With a mesh and at most one level down, [upsample] answers a tile
    marked as upsampled, without children and without a mesh of its own. *)
Lemma upsample_result this ts x y l dx dy dl mesh :
  _mesh this = Some mesh -> dl - l <= 1 ->
  exists data,
    upsample this (Some ts) (Some x) (Some y) (Some l) (Some dx) (Some dy) (Some dl)
    = Return (Some data)
    /\ _childTileMask data = 0
    /\ _createdByUpsampling data = true
    /\ _mesh data = None
    /\ _width data = _width this /\ _height data = _height this.
Proof.
  intros Hm Hd. unfold upsample. destruct (decide (dl - l > 1)); [lia|].
  rewrite Hm. simpl. eexists. repeat split.
Qed.

Example upsample_northwest_child :
  match
    upsample sampleMeshTile (Some quadTilingScheme) (Some 0) (Some 0) (Some 0)
      (Some 0) (Some 0) (Some 1)
  with
  | Return (Some data) =>
      elements <$> _buffer data = Some [num 10; num 15; num 20; num 25]
  | _ => False
  end.
Proof. vm_compute. reflexivity. Qed.

Example upsample_southeast_child :
  match
    upsample sampleMeshTile (Some quadTilingScheme) (Some 0) (Some 0) (Some 0)
      (Some 1) (Some 1) (Some 1)
  with
  | Return (Some data) =>
      elements <$> _buffer data = Some [num 25; num 30; num 35; num 40]
  | _ => False
  end.
Proof. vm_compute. reflexivity. Qed.

(** ** Mesh creation *)

Lemma createMesh_resolved_supersedes getRegularGridIndices this tilingScheme
    x y level exaggeration result :
  let '(this', mesh) :=
    createMesh_resolved getRegularGridIndices this tilingScheme x y level
      exaggeration result in
  _buffer this' = None /\ _mesh this' = Some mesh.
Proof. simpl. split; reflexivity. Qed.

(** C9: [_createMeshSync] drops the buffer of the tile and leaves its
    [_mesh] as it was, so that a tile built from a buffer is left with
    neither representation, while the callback of [createMesh] stores the
    mesh. *)
Theorem createMeshSync_drops_buffer_keeps_mesh_field getRegularGridIndices
    computeVertices (this : HeightmapTerrainData) (tilingScheme : TilingScheme)
    (x y level : Z) (exaggeration : Number) :
  exists this' mesh,
    _createMeshSync getRegularGridIndices computeVertices this
      (Some tilingScheme) (Some x) (Some y) (Some level) exaggeration
    = Return (this', mesh)
    /\ _buffer this' = None
    /\ _mesh this' = _mesh this.
Proof.
  unfold _createMeshSync, checkMeshArguments.
  match goal with |- context [ltNumber ?a ?b] => destruct (ltNumber a b) end;
    eexists _, _; repeat split.
Qed.

(** After [_createMeshSync] a tile built from a buffer has neither
    representation, and a height query on it throws. *)
Lemma createMeshSync_then_interpolateHeight getRegularGridIndices computeVertices :
  exists this' mesh,
    _createMeshSync getRegularGridIndices computeVertices
      (sampleTile Uint8Array 15) (Some unitTilingScheme) (Some 0) (Some 0)
      (Some 0) (num 1)
    = Return (this', mesh)
    /\ _buffer this' = None /\ _mesh this' = None
    /\ exists message,
         HeightmapTerrainData_interpolateHeight this' unitRectangle
           (Some (Q2Qc (1 # 2))) (Some (Q2Qc (1 # 2)))
         = Throw (TypeError message).
Proof.
  unfold _createMeshSync, checkMeshArguments.
  match goal with |- context [ltNumber ?a ?b] => destruct (ltNumber a b) end;
    eexists _, _; (split; [reflexivity|]); repeat split; eexists; reflexivity.
Qed.

(** ** TerrainCache *)

Lemma gtTime_false a b : gtTime a b = false <-> (a <= b)%Q.
Proof.
  unfold gtTime. rewrite negb_false_iff. apply Qle_bool_iff.
Qed.

Lemma gtTime_true a b : gtTime a b = true <-> (b < a)%Q.
Proof.
  unfold gtTime. rewrite negb_true_iff, <- not_true_iff_false, Qle_bool_iff.
  split; [apply Qnot_le_lt | apply Qlt_not_le].
Qed.

Lemma tidy_keeps_young now (c : TerrainCache) k e :
  _terrainCache c !! k = Some e ->
  (secondsDifference now (timestamp e) <= 10)%Q ->
  _terrainCache (TerrainCache_tidy now c) !! k = Some e.
Proof.
  intros Hk Hage. unfold TerrainCache_tidy.
  destruct (gtTime (secondsDifference now (_lastTidy c)) 10); [|exact Hk].
  simpl. apply map_lookup_filter_Some. split; [exact Hk|].
  simpl. apply gtTime_false. exact Hage.
Qed.

Lemma tidy_evicts_old now (c : TerrainCache) k e :
  _terrainCache c !! k = Some e ->
  (10 < secondsDifference now (timestamp e))%Q ->
  (10 < secondsDifference now (_lastTidy c))%Q ->
  _terrainCache (TerrainCache_tidy now c) !! k = None.
Proof.
  intros Hk Hage Hlast. unfold TerrainCache_tidy.
  apply gtTime_true in Hlast. rewrite Hlast. simpl.
  apply map_lookup_filter_None. right. intros e' He'. simpl.
  rewrite Hk in He'. injection He' as <-.
  apply gtTime_true in Hage. rewrite Hage. discriminate.
Qed.

Lemma tidy_rate_limited now (c : TerrainCache) :
  (secondsDifference now (_lastTidy c) <= 10)%Q -> TerrainCache_tidy now c = c.
Proof.
  intros H. unfold TerrainCache_tidy. apply gtTime_false in H. rewrite H. reflexivity.
Qed.

Lemma runCacheOps_keeps ops : forall (c : TerrainCache) k e,
  _terrainCache c !! k = Some e ->
  Forall (sparesEntry k (timestamp e)) ops ->
  _terrainCache (runCacheOps ops c) !! k = Some e.
Proof.
  induction ops as [|[now op] ops IH]; intros c k e Hk Hops.
  - exact Hk.
  - inversion Hops as [|? ? Hspare Hrest]; subst. unfold sparesEntry in Hspare.
    simpl. apply IH; [|exact Hrest].
    destruct op as [k' b'|k'|]; simpl in *.
    + rewrite lookup_insert_ne by exact Hspare. exact Hk.
    + unfold TerrainCache_get. destruct (_terrainCache c !! k'); simpl.
      * rewrite lookup_delete_ne by exact Hspare. exact Hk.
      * exact Hk.
    + apply tidy_keeps_young; assumption.
Qed.

(** C6, amended: an entry added at time [t0] and neither consumed nor
    overwritten is returned by a [get] made while every [tidy] in between
    comes within ten seconds of [t0]; a [tidy] made more than ten seconds
    after [t0] evicts it provided more than ten seconds have also passed
    since the last sweep, and a [tidy] within ten seconds of the last sweep
    does nothing. *)
Theorem cache_entry_ttl (c : TerrainCache) (t0 : Q) (k : string)
    (b : option ArrayBuffer) (ops : list (Q * CacheOp)) :
  Forall (sparesEntry k t0) ops ->
  let c' := runCacheOps ops (TerrainCache_add t0 c k b) in
  (TerrainCache_get c' k).1 = b
  /\ (forall now,
        (10 < secondsDifference now t0)%Q ->
        (10 < secondsDifference now (_lastTidy c'))%Q ->
        _terrainCache (TerrainCache_tidy now c') !! k = None)
  /\ (forall now,
        (secondsDifference now (_lastTidy c') <= 10)%Q ->
        TerrainCache_tidy now c' = c').
Proof.
  intros Hops c'.
  assert (Hk : _terrainCache c' !! k = Some {| buffer := b; timestamp := t0 |}).
  { apply runCacheOps_keeps.
    - simpl. apply lookup_insert_eq.
    - exact Hops. }
  split; [|split].
  - unfold TerrainCache_get. rewrite Hk. reflexivity.
  - intros now Hage Hlast. eapply tidy_evicts_old; eauto.
  - intros now. apply tidy_rate_limited.
Qed.

Lemma cache_entry_ttl_witness :
  let c' := runCacheOps [(4%Q, OpTidy); (6%Q, OpAdd "1" None)]
              (TerrainCache_add 0 (TerrainCache_new 0) "0" (Some [7])) in
  (TerrainCache_get c' "0").1 = Some [7]
  /\ (forall now,
        (10 < secondsDifference now 0)%Q ->
        (10 < secondsDifference now (_lastTidy c'))%Q ->
        _terrainCache (TerrainCache_tidy now c') !! "0" = None)
  /\ (forall now,
        (secondsDifference now (_lastTidy c') <= 10)%Q ->
        TerrainCache_tidy now c' = c').
Proof.
  apply (cache_entry_ttl (TerrainCache_new 0) 0 "0" (Some [7])
           [(4%Q, OpTidy); (6%Q, OpAdd "1" None)]).
  repeat constructor; unfold sparesEntry; simpl; discriminate.
Defined.

(** C6 as stated fails: the entry inserted at time 5 is still there after
    the [tidy] at time 16, eleven seconds later, because the sweep at time
    11 has made that call a no-op. *)
Lemma tidy_after_ttl_can_keep_entry :
  let c := TerrainCache_tidy 16
             (TerrainCache_tidy 11
                (TerrainCache_add 5 (TerrainCache_new 0) "0" (Some [7]))) in
  gtTime (secondsDifference 16 5) 10 = true
  /\ _terrainCache c !! "0" = Some {| buffer := Some [7]; timestamp := 5 |}.
Proof. split; reflexivity. Qed.

(** ** The provider: what leaves the registrations alone *)

Lemma sameRegistrations_refl this : sameRegistrations this this.
Proof. repeat split. Qed.

Lemma sameRegistrations_trans a b c :
  sameRegistrations a b -> sameRegistrations b c -> sameRegistrations a c.
Proof.
  unfold sameRegistrations. intros (?&?&?&?&?) (?&?&?&?&?).
  repeat split; congruence.
Qed.

Lemma locateTerrain_registrations this now quadKey :
  sameRegistrations this (locateTerrain this now quadKey).2
  /\ requestStates (locateTerrain this now quadKey).2 = requestStates this
  /\ _ready (locateTerrain this now quadKey).2 = _ready this.
Proof.
  unfold sameRegistrations, locateTerrain.
  repeat case_match; simplify_eq; simpl; tauto.
Qed.

Lemma storeChild_registrations now q provider terrainTiles this j :
  sameRegistrations this (storeChild now q provider terrainTiles this j).
Proof.
  unfold storeChild.
  destruct (tileInfo (_metadata this) !! (q +:+ childDigit j));
    repeat split.
Qed.

Lemma foldl_registrations {A} (f : Provider -> A -> Provider) (l : list A) :
  (forall this a, sameRegistrations this (f this a)) ->
  forall this, sameRegistrations this (foldl f this l).
Proof.
  intros Hf. induction l as [|a l IH]; intros this; simpl.
  - apply sameRegistrations_refl.
  - eapply sameRegistrations_trans; [apply Hf | apply IH].
Qed.

Lemma storeTerrain_registrations now this q terrainTiles this' :
  storeTerrain now this q terrainTiles = Return this' ->
  sameRegistrations this this'.
Proof.
  unfold storeTerrain. destruct (tileInfo (_metadata this) !! q); [|discriminate].
  intros [= <-].
  eapply sameRegistrations_trans; [|apply foldl_registrations].
  - repeat split.
  - intros. apply storeChild_registrations.
Qed.

Lemma runWaiter_registrations rejection this w :
  sameRegistrations this (runWaiter rejection this w).1.
Proof.
  unfold sameRegistrations, runWaiter.
  repeat case_match; simplify_eq; simpl; tauto.
Qed.

Lemma runWaiters_app rejection ws : forall this results,
  foldl (fun '(this, results) w =>
           let '(this, r) := runWaiter rejection this w in
           (this, results ++ [(w, r)]))
    (this, results) ws
  = ((runWaiters rejection this ws).1, results ++ (runWaiters rejection this ws).2).
Proof.
  unfold runWaiters.
  induction ws as [|w ws IH]; intros this results; simpl.
  - rewrite app_nil_r. reflexivity.
  - destruct (runWaiter rejection this w) as [this1 r].
    rewrite (IH this1 (results ++ [(w, r)])), (IH this1 [(w, r)]).
    simpl. rewrite <- app_assoc. reflexivity.
Qed.

Lemma runWaiters_cons rejection this w ws :
  runWaiters rejection this (w :: ws)
  = let '(this1, r) := runWaiter rejection this w in
    ((runWaiters rejection this1 ws).1, (w, r) :: (runWaiters rejection this1 ws).2).
Proof.
  unfold runWaiters at 1. simpl.
  destruct (runWaiter rejection this w) as [this1 r].
  rewrite runWaiters_app. reflexivity.
Qed.

Lemma runWaiters_registrations rejection ws : forall this,
  sameRegistrations this (runWaiters rejection this ws).1.
Proof.
  induction ws as [|w ws IH]; intros this.
  - apply sameRegistrations_refl.
  - rewrite runWaiters_cons.
    pose proof (runWaiter_registrations rejection this w) as H.
    destruct (runWaiter rejection this w) as [this1 r]. simpl in *.
    eapply sameRegistrations_trans; [exact H | apply IH].
Qed.

Lemma getTileDataAvailable_registrations f this x y level :
  sameRegistrations this (getTileDataAvailable f this x y level).2.
Proof.
  unfold sameRegistrations, getTileDataAvailable.
  repeat case_match; simplify_eq; simpl; tauto.
Qed.

(** ** The provider: registrations and fetches in flight agree *)





Lemma runContinuations_registrations issuerFirst rejection this fetch :
  sameRegistrations this (runContinuations issuerFirst rejection this fetch).1.
Proof.
  unfold runContinuations. destruct issuerFirst.
  - pose proof (runWaiter_registrations None this (fetch_first fetch)) as H1.
    destruct (runWaiter None this (fetch_first fetch)) as [this1 r].
    pose proof (runWaiters_registrations rejection (fetch_others fetch) this1) as H2.
    destruct (runWaiters rejection this1 (fetch_others fetch)) as [this2 rs].
    simpl in *. eapply sameRegistrations_trans; eassumption.
  - pose proof (runWaiters_registrations rejection (fetch_others fetch) this) as H1.
    destruct (runWaiters rejection this (fetch_others fetch)) as [this1 rs].
    pose proof (runWaiter_registrations None this1 (fetch_first fetch)) as H2.
    destruct (runWaiter None this1 (fetch_first fetch)) as [this2 r].
    simpl in *. eapply sameRegistrations_trans; eassumption.
Qed.

(** What [settle] amounts to for a fetch in flight. *)
Lemma settle_in_flight issuerFirst now this p fetch outcome :
  pending this !! p = Some fetch ->
  exists this1 rejection,
    sameRegistrations this this1
    /\ (forall e, outcome = Failed e -> rejection = Some e /\ this1 = this)
    /\ (forall terrainTiles, outcome = Loaded terrainTiles ->
          match storeTerrain now this (fetch_q fetch) terrainTiles with
          | Return stored => rejection = None /\ this1 = stored
          | Throw e => rejection = Some e /\ this1 = this
          end)
    /\ settle issuerFirst now this p outcome
       = runContinuations issuerFirst rejection
           (unregister this1 (fetch_q fetch) p) fetch.
Proof.
  intros Hp. unfold settle. rewrite Hp.
  destruct outcome as [terrainTiles|e].
  - destruct (storeTerrain now this (fetch_q fetch) terrainTiles) as [this1|e] eqn:Hs.
    + exists this1, None.
      split; [eapply storeTerrain_registrations; eauto|].
      split; [discriminate|]. split; [|reflexivity].
      intros tiles [= <-]. rewrite Hs. auto.
    + exists this, (Some e).
      split; [apply sameRegistrations_refl|].
      split; [discriminate|]. split; [|reflexivity].
      intros tiles [= <-]. rewrite Hs. auto.
  - exists this, (Some e). split; [apply sameRegistrations_refl|].
    split; [intros e' [= <-]; auto|]. split; [discriminate | reflexivity].
Qed.










(** ** The provider: terrain states *)

Lemma determined_state info info' :
  terrainState info' = terrainState info -> determined info -> determined info'.
Proof. intros E (s & Hs & Hne). exists s. rewrite E. auto. Qed.

Lemma keepsDeterminedStates_refl m : keepsDeterminedStates m m.
Proof. intros k info Hk _. eauto. Qed.

Lemma keepsDeterminedStates_trans a b c :
  keepsDeterminedStates a b -> keepsDeterminedStates b c ->
  keepsDeterminedStates a c.
Proof.
  intros Hab Hbc k info Hk Hd.
  destruct (Hab k info Hk Hd) as (info1 & Hk1 & E1).
  destruct (Hbc k info1 Hk1 (determined_state _ _ E1 Hd)) as (info2 & Hk2 & E2).
  exists info2. split; [exact Hk2 | congruence].
Qed.

Lemma keepsDeterminedStates_weaken m m' :
  keepsDeterminedStates m m' -> keepsDetermined m m'.
Proof.
  intros H k info Hk Hd. destruct (H k info Hk Hd) as (info' & Hk' & E).
  exists info'. split; [exact Hk' | exact (determined_state _ _ E Hd)].
Qed.

Lemma keepsDetermined_refl m : keepsDetermined m m.
Proof. intros k info Hk Hd. eauto. Qed.

Lemma keepsDetermined_trans a b c :
  keepsDetermined a b -> keepsDetermined b c -> keepsDetermined a c.
Proof.
  intros Hab Hbc k info Hk Hd.
  destruct (Hab k info Hk Hd) as (info1 & Hk1 & Hd1). eauto.
Qed.

(** Writing [UNKNOWN] where no state is determined changes no determined
    state. *)
Lemma writeUnknown_keeps m k info :
  tileInfo m !! k = Some info -> ~ determined info ->
  keepsDeterminedStates m (writeTerrainState m k UNKNOWN).
Proof.
  intros Hk Hnd k' info' Hk' Hd'. unfold writeTerrainState. simpl.
  destruct (decide (k = k')) as [<-|Hne].
  - rewrite Hk in Hk'. injection Hk' as <-. contradiction.
  - exists info'. rewrite lookup_alter_ne by exact Hne. auto.
Qed.

(** Writing a state other than [UNKNOWN] keeps every node determined. *)
Lemma writeState_keeps m k s :
  s <> UNKNOWN -> keepsDetermined m (writeTerrainState m k s).
Proof.
  intros Hs k' info' Hk' Hd'. unfold writeTerrainState. simpl.
  destruct (decide (k = k')) as [<-|Hne].
  - exists (setTerrainState info' s). rewrite lookup_alter_eq, Hk'.
    split; [reflexivity|]. exists s. auto.
  - exists info'. rewrite lookup_alter_ne by exact Hne. auto.
Qed.

Lemma undetermined_None info : terrainState info = None -> ~ determined info.
Proof. intros E (s & Hs & _). congruence. Qed.

Lemma undetermined_UNKNOWN info :
  terrainState info = Some UNKNOWN -> ~ determined info.
Proof. intros E (s & Hs & Hne). congruence. Qed.

Lemma locateTerrain_states this now quadKey :
  keepsDeterminedStates (_metadata this) (_metadata (locateTerrain this now quadKey).2).
Proof.
  unfold locateTerrain.
  destruct (tileInfo (_metadata this) !! quadKey) as [info|] eqn:Hk;
    [|apply keepsDeterminedStates_refl].
  destruct (terrainState info) as [s|] eqn:Hs.
  - repeat case_match; simplify_eq; simpl; apply keepsDeterminedStates_refl.
  - pose proof (writeUnknown_keeps _ _ _ Hk (undetermined_None _ Hs)) as Hw.
    repeat case_match; simplify_eq; simpl; exact Hw.
Qed.

Lemma loadTerrain_metadata this quadKey q version request throttled :
  _metadata (loadTerrain this quadKey q version request throttled).2 = _metadata this.
Proof.
  unfold loadTerrain. repeat case_match; reflexivity.
Qed.

Lemma getTileDataAvailable_states f this x y level :
  keepsDeterminedStates (_metadata this)
    (_metadata (getTileDataAvailable f this x y level).2).
Proof.
  unfold getTileDataAvailable.
  destruct (tileInfo (_metadata this) !! f x y level) as [info|] eqn:Hk.
  2:{ repeat case_match; simpl; intros k info Hk' _; eauto. }
  destruct (negb (ancestorHasTerrain info)); [apply keepsDeterminedStates_refl|].
  destruct (terrainState info) as [[]|] eqn:Hs;
    try apply keepsDeterminedStates_refl.
  - pose proof (writeUnknown_keeps _ _ _ Hk (undetermined_UNKNOWN _ Hs)) as Hw.
    repeat case_match; simplify_eq; simpl; exact Hw.
  - pose proof (writeUnknown_keeps _ _ _ Hk (undetermined_None _ Hs)) as Hw.
    repeat case_match; simplify_eq; simpl; exact Hw.
Qed.

Lemma storeChild_determined now q provider terrainTiles this j :
  keepsDetermined (_metadata this)
    (_metadata (storeChild now q provider terrainTiles this j)).
Proof.
  unfold storeChild.
  destruct (tileInfo (_metadata this) !! (q +:+ childDigit j)) as [child|] eqn:Hc;
    [|apply keepsDetermined_refl].
  intros k info Hk Hd. simpl.
  destruct (decide (q +:+ childDigit j = k)) as [<-|Hne].
  - rewrite lookup_insert_eq. eexists. split; [reflexivity|].
    exists PARENT. split; [|discriminate].
    case_decide; reflexivity.
  - rewrite lookup_insert_ne by exact Hne. eauto.
Qed.

Lemma foldl_determined {A} (f : Provider -> A -> Provider) (l : list A) :
  (forall this a, keepsDetermined (_metadata this) (_metadata (f this a))) ->
  forall this, keepsDetermined (_metadata this) (_metadata (foldl f this l)).
Proof.
  intros Hf. induction l as [|a l IH]; intros this; simpl.
  - apply keepsDetermined_refl.
  - eapply keepsDetermined_trans; [apply Hf | apply IH].
Qed.

Lemma storeTerrain_determined now this q terrainTiles this' :
  storeTerrain now this q terrainTiles = Return this' ->
  keepsDetermined (_metadata this) (_metadata this').
Proof.
  unfold storeTerrain. destruct (tileInfo (_metadata this) !! q); [|discriminate].
  intros [= <-].
  eapply keepsDetermined_trans; [|apply foldl_determined].
  - simpl. apply writeState_keeps. discriminate.
  - intros. apply storeChild_determined.
Qed.

Lemma runWaiter_determined rejection this w :
  keepsDetermined (_metadata this) (_metadata (runWaiter rejection this w).1).
Proof.
  assert (Hn : forall k, keepsDetermined (_metadata this)
                           (writeTerrainState (_metadata this) k NONE)).
  { intros k. apply writeState_keeps. discriminate. }
  unfold runWaiter.
  repeat case_match; simplify_eq; simpl;
    first [apply keepsDetermined_refl | apply Hn].
Qed.

Lemma runWaiters_determined rejection ws : forall this,
  keepsDetermined (_metadata this) (_metadata (runWaiters rejection this ws).1).
Proof.
  induction ws as [|w ws IH]; intros this.
  - apply keepsDetermined_refl.
  - rewrite runWaiters_cons.
    pose proof (runWaiter_determined rejection this w) as H.
    destruct (runWaiter rejection this w) as [this1 r]. simpl in *.
    eapply keepsDetermined_trans; [exact H | apply IH].
Qed.

Lemma runContinuations_determined issuerFirst rejection this fetch :
  keepsDetermined (_metadata this)
    (_metadata (runContinuations issuerFirst rejection this fetch).1).
Proof.
  unfold runContinuations. destruct issuerFirst.
  - pose proof (runWaiter_determined None this (fetch_first fetch)) as H1.
    destruct (runWaiter None this (fetch_first fetch)) as [this1 r].
    pose proof (runWaiters_determined rejection (fetch_others fetch) this1) as H2.
    destruct (runWaiters rejection this1 (fetch_others fetch)) as [this2 rs].
    simpl in *. eapply keepsDetermined_trans; eassumption.
  - pose proof (runWaiters_determined rejection (fetch_others fetch) this) as H1.
    destruct (runWaiters rejection this (fetch_others fetch)) as [this1 rs].
    pose proof (runWaiter_determined None this1 (fetch_first fetch)) as H2.
    destruct (runWaiter None this1 (fetch_first fetch)) as [this2 r].
    simpl in *. eapply keepsDetermined_trans; eassumption.
Qed.

Lemma settle_determined issuerFirst now this p outcome :
  keepsDetermined (_metadata this)
    (_metadata (settle issuerFirst now this p outcome).1).
Proof.
  unfold settle. destruct (pending this !! p) as [fetch|]; [|apply keepsDetermined_refl].
  destruct outcome as [terrainTiles|e].
  - destruct (storeTerrain now this (fetch_q fetch) terrainTiles) as [this1|e] eqn:Hs.
    + eapply keepsDetermined_trans; [eapply storeTerrain_determined; eauto|].
      apply (runContinuations_determined issuerFirst None
               (unregister this1 (fetch_q fetch) p)).
    + apply (runContinuations_determined issuerFirst (Some e)
               (unregister this (fetch_q fetch) p)).
  - apply (runContinuations_determined issuerFirst (Some e)
             (unregister this (fetch_q fetch) p)).
Qed.

Lemma step_states f this ev :
  notSettle ev ->
  keepsDeterminedStates (_metadata this) (_metadata (step f this ev)).
Proof.
  destruct ev as [|now x y level request throttled|issuerFirst now p outcome
                  |x y level|request s];
    simpl; intros Hns; try contradiction; try apply keepsDeterminedStates_refl.
  - unfold requestTileGeometry.
    destruct (negb (_ready this)); [apply keepsDeterminedStates_refl|].
    pose proof (locateTerrain_states this now (f x y level)) as Hl.
    destruct (locateTerrain this now (f x y level)) as [[[r|q version]|e] this1];
      simpl in *; try exact Hl.
    pose proof (loadTerrain_metadata this1 (f x y level) q version request throttled) as E.
    destruct (loadTerrain this1 (f x y level) q version request throttled); simpl in *.
    rewrite E. exact Hl.
  - apply getTileDataAvailable_states.
Qed.

Lemma step_determined f this ev :
  keepsDetermined (_metadata this) (_metadata (step f this ev)).
Proof.
  destruct ev as [|now x y level request throttled|issuerFirst now p outcome
                  |x y level|request s].
  3: apply settle_determined.
  all: apply keepsDeterminedStates_weaken, step_states; exact I.
Qed.

(** C5, amended: a terrain state that has been determined ([SELF],
    [PARENT] or [NONE]) is never [UNKNOWN] or undefined again, whatever the
    provider does, and stays the same as long as no fetch settles; the
    settlement of a fetch may replace one determined state by another. *)
Theorem determined_state_stays_determined (tileXYToQuadKey : Z -> Z -> Z -> string)
    (events : list Event) (this : Provider) (k : string) (info : TileInformation) :
  tileInfo (_metadata this) !! k = Some info ->
  determined info ->
  exists info',
    tileInfo (_metadata (run tileXYToQuadKey events this)) !! k = Some info'
    /\ determined info'
    /\ (Forall notSettle events -> terrainState info' = terrainState info).
Proof.
  unfold run. revert this info.
  induction events as [|ev events IH]; intros this info Hk Hd; simpl.
  - exists info. auto.
  - destruct (step_determined tileXYToQuadKey this ev k info Hk Hd) as (info1 & Hk1 & Hd1).
    destruct (IH _ info1 Hk1 Hd1) as (info2 & Hk2 & Hd2 & Hsame).
    exists info2. split; [exact Hk2|]. split; [exact Hd2|].
    intros Hall. inversion Hall as [|? ? Hev Hrest]; subst.
    rewrite (Hsame Hrest).
    destruct (step_states tileXYToQuadKey this ev Hev k info Hk Hd) as (info1' & Hk1' & E).
    congruence.
Qed.

Lemma determined_state_stays_determined_witness :
  let info := {| terrainState := Some SELF; hasTerrain := true;
                 ancestorHasTerrain := true; terrainVersion := 1;
                 terrainProvider := 0; childBitmask := 0 |} in
  let events := [GetTileDataAvailable 0 0 0; RequestTileGeometry 2 0 0 0 8%nat true] in
  (tileInfo (_metadata loadedProvider) !! "0" = Some info /\ determined info)
  /\ exists info',
       tileInfo (_metadata (run sampleQuadKey events loadedProvider)) !! "0"
       = Some info'
       /\ determined info'
       /\ (Forall notSettle events -> terrainState info' = terrainState info).
Proof.
  intros info events.
  assert (H1 : tileInfo (_metadata loadedProvider) !! "0" = Some info) by reflexivity.
  assert (H2 : determined info) by (exists SELF; split; [reflexivity | discriminate]).
  split; [auto|].
  exact (determined_state_stays_determined sampleQuadKey events loadedProvider "0"
           info H1 H2).
Defined.

(** C5 as stated fails: the tile "0" is [SELF] once loaded; it is
    requested again and the fetch fails, which leaves it [NONE]. *)
Lemma self_state_becomes_none :
  let this' :=
    run sampleQuadKey
      [RequestTileGeometry 2 0 0 0 8%nat false;
       Settle true 3 1%nat (Failed (RuntimeError "Failed to load terrain."))]
      loadedProvider in
  terrainState <$> tileInfo (_metadata loadedProvider) !! "0" = Some (Some SELF)
  /\ terrainState <$> tileInfo (_metadata this') !! "0" = Some (Some NONE).
Proof. split; reflexivity. Qed.

(** ** The codec: what a write touches *)

Lemma setHeight_loop_shape m index step n : forall i heights height divisor,
  let r := setHeight_loop m index n i step heights height divisor in
  elementType r.1.1 = elementType heights
  /\ length (elements r.1.1) = length (elements heights)
  /\ r.2 = i + step * Z.of_nat n
  /\ (forall p, (forall j, 0 <= j < Z.of_nat n -> p <> index + i + step * j) ->
        readElement r.1.1 p = readElement heights p).
Proof.
  induction n as [|n IH]; intros i heights height divisor.
  - simpl. repeat split; auto. lia.
  - cbn [setHeight_loop]. cbv zeta.
    match goal with |- context [setHeight_loop m index n (i + step) step ?hs ?h ?d] =>
      specialize (IH (i + step) hs h d); cbv zeta in IH;
      destruct (setHeight_loop m index n (i + step) step hs h d) as [[hs' h'] i'] end.
    simpl in *. destruct IH as (Ht & Hl & Hi & Hf).
    rewrite elementType_writeElement in Ht. rewrite length_writeElement in Hl.
    repeat split; auto.
    + rewrite Hi, Nat2Z.inj_succ. ring.
    + intros p Hp. rewrite Hf.
      * apply read_write_ne. specialize (Hp 0 ltac:(lia)).
        rewrite Z.mul_0_r, Z.add_0_r in Hp. congruence.
      * intros j Hj. specialize (Hp (j + 1) ltac:(lia)).
        replace (index + (i + step) + step * j) with (index + i + step * (j + 1)) by ring.
        exact Hp.
Qed.

(** The positions [setHeight] may write are those of the sample. *)
Lemma setHeight_shape heights e m divisor stride bigEndian index height :
  1 <= e ->
  let heights' := setHeight heights e m divisor stride bigEndian index height in
  elementType heights' = elementType heights
  /\ length (elements heights') = length (elements heights)
  /\ (forall p, ~ (index * stride <= p < index * stride + e) ->
        readElement heights' p = readElement heights p).
Proof.
  intros He. unfold setHeight.
  set (n := Z.to_nat (e - 1)).
  assert (En : Z.of_nat n = e - 1) by (unfold n; lia).
  destruct bigEndian.
  - pose proof (setHeight_loop_shape m (index * stride) 1 n 0 heights height divisor) as H.
    cbv zeta in H.
    destruct (setHeight_loop m (index * stride) n 0 1 heights height divisor)
      as [[hs' h'] i']. simpl in H. destruct H as (Ht & Hl & Hi & Hf).
    cbv zeta. rewrite elementType_writeElement, length_writeElement.
    repeat split; auto.
    intros p Hp. rewrite read_write_ne by lia. apply Hf. intros j Hj. lia.
  - pose proof (setHeight_loop_shape m (index * stride) (-1) n (e - 1) heights height divisor) as H.
    cbv zeta in H.
    destruct (setHeight_loop m (index * stride) n (e - 1) (-1) heights height divisor)
      as [[hs' h'] i']. simpl in H. destruct H as (Ht & Hl & Hi & Hf).
    cbv zeta. rewrite elementType_writeElement, length_writeElement.
    repeat split; auto.
    intros p Hp. rewrite read_write_ne by lia. apply Hf. intros j Hj. lia.
Qed.

Lemma getHeight_loop_ext hs1 hs2 m index step n : forall i acc,
  (forall j, 0 <= j < Z.of_nat n ->
     readElement hs1 (index + i + step * j) = readElement hs2 (index + i + step * j)) ->
  getHeight_loop hs1 m index n i step acc = getHeight_loop hs2 m index n i step acc.
Proof.
  induction n as [|n IH]; intros i acc H.
  - reflexivity.
  - cbn [getHeight_loop].
    pose proof (H 0 ltac:(lia)) as H0. rewrite Z.mul_0_r, Z.add_0_r in H0.
    rewrite H0. apply IH. intros j Hj. specialize (H (j + 1) ltac:(lia)).
    replace (index + (i + step) + step * j) with (index + i + step * (j + 1)) by ring.
    exact H.
Qed.

(** [getHeight] reads the elements of its sample only. *)
Lemma getHeight_ext hs1 hs2 e m stride bigEndian index :
  (forall p, index * stride <= p < index * stride + e ->
     readElement hs1 p = readElement hs2 p) ->
  getHeight hs1 e m stride bigEndian index = getHeight hs2 e m stride bigEndian index.
Proof.
  intros H. unfold getHeight. destruct bigEndian; apply getHeight_loop_ext;
    intros j Hj; apply H; lia.
Qed.

(** X1: a write leaves every other sample as it was. *)
Theorem setHeight_other_samples heights e m divisor stride bigEndian
    (index other : Z) height :
  1 <= e <= stride ->
  other <> index ->
  getHeight (setHeight heights e m divisor stride bigEndian index height)
    e m stride bigEndian other
  = getHeight heights e m stride bigEndian other.
Proof.
  intros He Hne.
  apply getHeight_ext. intros p Hp.
  destruct (setHeight_shape heights e m divisor stride bigEndian index height
              ltac:(lia)) as (_ & _ & Hf).
  apply Hf. nia.
Qed.

Lemma readElement_out_of_range hs p :
  Z.of_nat (length (elements hs)) <= p -> readElement hs p = NaN.
Proof.
  intros H. unfold readElement. destruct (decide (0 <= p)); [|reflexivity].
  rewrite lookup_ge_None_2 by lia. reflexivity.
Qed.

Lemma writeElement_out_of_range hs p v :
  Z.of_nat (length (elements hs)) <= p -> writeElement hs p v = hs.
Proof.
  intros H. unfold writeElement. destruct (decide (0 <= p)); [|reflexivity].
  rewrite list_insert_ge by lia. destruct hs; reflexivity.
Qed.

Lemma writeElement_negative hs p v : p < 0 -> writeElement hs p v = hs.
Proof. intros H. unfold writeElement. destruct (decide (0 <= p)); [lia|reflexivity]. Qed.

Lemma typedArray_eq (a b : TypedArray) :
  elementType a = elementType b -> elements a = elements b -> a = b.
Proof. destruct a, b. simpl. intros -> ->. reflexivity. Qed.

Lemma getHeight_loop_nan hs m index step n : forall i,
  getHeight_loop hs m index n i step NaN = NaN.
Proof.
  induction n as [|n IH]; intros i; [reflexivity|].
  cbn [getHeight_loop]. apply IH.
Qed.

Lemma getHeight_loop_missing hs m index step n : forall i acc,
  (exists j, 0 <= j < Z.of_nat n /\ readElement hs (index + i + step * j) = NaN) ->
  getHeight_loop hs m index n i step acc = NaN.
Proof.
  induction n as [|n IH]; intros i acc (j & Hj & Hr); [lia|].
  cbn [getHeight_loop]. destruct (decide (j = 0)) as [->|Hne].
  - rewrite Z.mul_0_r, Z.add_0_r in Hr. rewrite Hr.
    replace (acc * m + NaN)%js with NaN by (destruct acc, m; reflexivity).
    apply getHeight_loop_nan.
  - apply IH. exists (j - 1). split; [lia|].
    replace (index + (i + step) + step * (j - 1)) with (index + i + step * j) by ring.
    exact Hr.
Qed.

(** X2: bounds.  A write never changes the length or the element type of
    the buffer, a write whose sample lies beyond the end of the buffer
    changes nothing, and a read there is [NaN]. *)
Theorem codec_out_of_range heights e m divisor stride bigEndian index height :
  1 <= e ->
  let heights' := setHeight heights e m divisor stride bigEndian index height in
  elementType heights' = elementType heights
  /\ length (elements heights') = length (elements heights)
  /\ (Z.of_nat (length (elements heights)) <= index * stride ->
      heights' = heights
      /\ getHeight heights e m stride bigEndian index = NaN).
Proof.
  intros He heights'.
  destruct (setHeight_shape heights e m divisor stride bigEndian index height He)
    as (Ht & Hl & Hf).
  fold heights' in Ht, Hl, Hf.
  split; [exact Ht|]. split; [exact Hl|]. intros Hout. split.
  - apply typedArray_eq; [exact Ht|].
    apply list_eq. intros k.
    destruct (decide (k < length (elements heights))%nat) as [Hk|Hk].
    + specialize (Hf (Z.of_nat k) ltac:(lia)). unfold readElement in Hf.
      destruct (decide (0 <= Z.of_nat k)); [|lia]. rewrite Nat2Z.id in Hf.
      destruct (lookup_lt_is_Some_2 (elements heights) k Hk) as [v Hv].
      destruct (lookup_lt_is_Some_2 (elements heights') k ltac:(lia)) as [v' Hv'].
      rewrite Hv, Hv' in Hf |- *. congruence.
    + rewrite !lookup_ge_None_2 by lia. reflexivity.
  - unfold getHeight.
    destruct bigEndian; apply getHeight_loop_missing.
    + exists 0. split; [lia|]. apply readElement_out_of_range. lia.
    + exists 0. split; [lia|]. apply readElement_out_of_range. lia.
Qed.

Lemma codec_out_of_range_witness :
  let heights := newArray Uint8Array 4 in
  let heights' := setHeight heights 2 (num 256) (num 256) 2 false 2 (num 1000) in
  elementType heights' = elementType heights
  /\ length (elements heights') = length (elements heights)
  /\ (Z.of_nat (length (elements heights)) <= 2 * 2 ->
      heights' = heights
      /\ getHeight heights 2 (num 256) 2 false 2 = NaN).
Proof.
  apply (codec_out_of_range (newArray Uint8Array 4) 2 (num 256) (num 256) 2 false 2
           (num 1000)). lia.
Defined.

Lemma setHeight_other_samples_witness :
  getHeight (setHeight (newArray Uint8Array 6) 2 (num 256) (num 256) 3 true 1 (num 1000))
    2 (num 256) 3 true 0
  = getHeight (newArray Uint8Array 6) 2 (num 256) 3 true 0.
Proof.
  apply (setHeight_other_samples (newArray Uint8Array 6) 2 (num 256) (num 256) 3 true 1 0
           (num 1000)); lia.
Defined.

(** ** TerrainCache: consumption, overwriting and sweeping *)

(** X8: a tile is handed out once.  After a [get] of [quadKey] a second
    [get] finds nothing; the other entries and the time of the last sweep
    are untouched, and a [get] that finds nothing changes nothing. *)
Theorem TerrainCache_get_consumes (this : TerrainCache) (quadKey : string) :
  let this' := (TerrainCache_get this quadKey).2 in
  TerrainCache_get this' quadKey = (None, this')
  /\ (forall k, k <> quadKey -> _terrainCache this' !! k = _terrainCache this !! k)
  /\ _lastTidy this' = _lastTidy this
  /\ (_terrainCache this !! quadKey = None ->
      TerrainCache_get this quadKey = (None, this)).
Proof.
  unfold TerrainCache_get.
  destruct (_terrainCache this !! quadKey) as [e|] eqn:Hk; simpl.
  - rewrite lookup_delete_eq. repeat split; try discriminate.
    intros k Hne. apply lookup_delete_ne. congruence.
  - rewrite Hk. repeat split.
Qed.

Lemma TerrainCache_get_consumes_witness :
  let this := TerrainCache_add 0 (TerrainCache_new 0) "0" (Some [1; 2]) in
  TerrainCache_get (TerrainCache_get this "0").2 "0"
  = (None, (TerrainCache_get this "0").2)
  /\ _terrainCache (TerrainCache_get this "0").2 !! "1" = _terrainCache this !! "1".
Proof.
  destruct (TerrainCache_get_consumes
              (TerrainCache_add 0 (TerrainCache_new 0) "0" (Some [1; 2])) "0")
    as (H1 & H2 & _).
  split; [exact H1 | apply H2; discriminate].
Defined.

(** X9: [add] then [get] gives the buffer back and leaves the cache without
    the entry; a second [add] for the same key replaces the first, and
    [add] touches no other key. *)
Theorem TerrainCache_add_get (now now2 : Q) (this : TerrainCache)
    (quadKey : string) (b b2 : option ArrayBuffer) :
  (TerrainCache_get (TerrainCache_add now this quadKey b) quadKey).1 = b
  /\ _terrainCache (TerrainCache_get (TerrainCache_add now this quadKey b) quadKey).2
     = delete quadKey (_terrainCache this)
  /\ TerrainCache_add now2 (TerrainCache_add now this quadKey b) quadKey b2
     = TerrainCache_add now2 this quadKey b2
  /\ (forall k, k <> quadKey ->
        _terrainCache (TerrainCache_add now this quadKey b) !! k
        = _terrainCache this !! k).
Proof.
  unfold TerrainCache_get, TerrainCache_add. simpl.
  rewrite lookup_insert_eq. simpl. repeat split.
  - apply delete_insert_eq.
  - rewrite insert_insert_eq. reflexivity.
  - intros k Hne. apply lookup_insert_ne. congruence.
Qed.

Lemma TerrainCache_add_get_witness :
  (TerrainCache_get (TerrainCache_add 1 (TerrainCache_new 0) "0" (Some [1; 2])) "0").1
  = Some [1; 2]
  /\ _terrainCache (TerrainCache_add 1 (TerrainCache_new 0) "0" (Some [1; 2])) !! "1"
     = _terrainCache (TerrainCache_new 0) !! "1".
Proof.
  destruct (TerrainCache_add_get 1 2 (TerrainCache_new 0) "0" (Some [1; 2]) None)
    as (H1 & _ & _ & H2).
  split; [exact H1 | apply H2; discriminate].
Defined.

(** X10: a sweep keeps exactly the entries that are at most ten seconds old,
    as they are, and only runs when the last one is more than ten seconds
    back; [tidy] twice at the same time is [tidy] once. *)
Theorem TerrainCache_tidy_sweep (now : Q) (this : TerrainCache) :
  (forall k e,
     _terrainCache (TerrainCache_tidy now this) !! k = Some e
     <-> _terrainCache this !! k = Some e
         /\ ((secondsDifference now (_lastTidy this) <= 10)%Q
             \/ (secondsDifference now (timestamp e) <= 10)%Q))
  /\ _lastTidy (TerrainCache_tidy now this)
     = (if gtTime (secondsDifference now (_lastTidy this)) 10 then now
        else _lastTidy this)
  /\ TerrainCache_tidy now (TerrainCache_tidy now this) = TerrainCache_tidy now this.
Proof.
  unfold TerrainCache_tidy.
  destruct (gtTime (secondsDifference now (_lastTidy this)) 10) eqn:Hdue.
  - apply gtTime_true in Hdue. split; [|split].
    + intros k e. simpl. rewrite map_lookup_filter_Some. simpl.
      rewrite gtTime_false. split.
      * intros [Hk Hage]. auto.
      * intros [Hk [Hlast|Hage]]; [|auto].
        exfalso. apply (Qlt_not_le _ _ Hdue Hlast).
    + reflexivity.
    + simpl.
      assert (E : gtTime (secondsDifference now now) 10 = false).
      { apply gtTime_false. unfold secondsDifference. lra. }
      rewrite E. reflexivity.
  - rewrite Hdue. apply gtTime_false in Hdue. split; [|split]; try reflexivity.
    intros k e. tauto.
Qed.

Lemma TerrainCache_tidy_sweep_witness :
  _terrainCache
    (TerrainCache_tidy 11 (TerrainCache_add 5 (TerrainCache_new 0) "0" (Some [1; 2])))
    !! "0"
  = Some {| buffer := Some [1; 2]; timestamp := 5 |}.
Proof.
  destruct (TerrainCache_tidy_sweep 11
              (TerrainCache_add 5 (TerrainCache_new 0) "0" (Some [1; 2])))
    as (H & _).
  apply H. split; [reflexivity|]. right. vm_compute. discriminate.
Defined.

(** ** The provider: answers that need no fetch *)

(** X11: for a tile marked [PARENT] the child mask is built from the
    metadata: it is below 16 and bit [i] is set exactly when the child
    [quadKey + i] is known and has terrain; the tile's own bitmask plays no
    part. *)
Theorem computeChildMask_of_parent_loaded quadKey info metadata :
  terrainState info = Some PARENT ->
  0 <= computeChildMask quadKey info metadata < 16
  /\ forall i : nat, (i < 4)%nat ->
       Z.testbit (computeChildMask quadKey info metadata) (Z.of_nat i)
       = match tileInfo metadata !! (quadKey +:+ childDigit i) with
         | Some child => hasTerrain child
         | None => false
         end.
Proof.
  intros Hs. unfold computeChildMask.
  rewrite decide_True by exact Hs.
  cbn [seq foldl].
  destruct (tileInfo metadata !! (quadKey +:+ childDigit 0)) as [c0|] eqn:E0;
    [destruct (hasTerrain c0) eqn:H0|];
    (destruct (tileInfo metadata !! (quadKey +:+ childDigit 1)) as [c1|] eqn:E1;
       [destruct (hasTerrain c1) eqn:H1|]);
    (destruct (tileInfo metadata !! (quadKey +:+ childDigit 2)) as [c2|] eqn:E2;
       [destruct (hasTerrain c2) eqn:H2|]);
    (destruct (tileInfo metadata !! (quadKey +:+ childDigit 3)) as [c3|] eqn:E3;
       [destruct (hasTerrain c3) eqn:H3|]);
    (split; [vm_compute; split; [discriminate | reflexivity]|]);
    intros [|[|[|[|i]]]] Hi; try lia;
    rewrite ?E0, ?E1, ?E2, ?E3, ?H0, ?H1, ?H2, ?H3; reflexivity.
Qed.

Lemma computeChildMask_of_parent_loaded_witness :
  0 <= computeChildMask "0"
         {| terrainState := Some PARENT; hasTerrain := false;
            ancestorHasTerrain := true; terrainVersion := 1;
            terrainProvider := 0; childBitmask := 9 |} sampleMetadata < 16
  /\ forall i : nat, (i < 4)%nat ->
       Z.testbit (computeChildMask "0"
         {| terrainState := Some PARENT; hasTerrain := false;
            ancestorHasTerrain := true; terrainVersion := 1;
            terrainProvider := 0; childBitmask := 9 |} sampleMetadata) (Z.of_nat i)
       = match tileInfo sampleMetadata !! ("0" +:+ childDigit i) with
         | Some child => hasTerrain child
         | None => false
         end.
Proof.
  apply (computeChildMask_of_parent_loaded "0"
           {| terrainState := Some PARENT; hasTerrain := false;
              ancestorHasTerrain := true; terrainVersion := 1;
              terrainProvider := 0; childBitmask := 9 |} sampleMetadata).
  reflexivity.
Defined.

Lemma terrainDataOf_unknown metadata quadKey info buffer :
  terrainState info = None ->
  terrainDataOf (writeTerrainState metadata quadKey UNKNOWN) quadKey
    (setTerrainState info UNKNOWN) buffer
  = terrainDataOf metadata quadKey info buffer.
Proof.
  intros Hs. unfold terrainDataOf, computeChildMask. simpl.
  rewrite Hs. reflexivity.
Qed.

(** X12: a tile whose buffer is in the cache is answered from it at once,
    whatever its terrain state and however old the entry is: the promise
    is resolved with that buffer, the entry is consumed, and nothing is
    fetched or registered. *)
Theorem cached_tile_is_served (tileXYToQuadKey : Z -> Z -> Z -> string)
    this now x y level request throttled info entry b :
  _ready this = true ->
  tileInfo (_metadata this) !! tileXYToQuadKey x y level = Some info ->
  _terrainCache (_cache this) !! tileXYToQuadKey x y level = Some entry ->
  buffer entry = Some b ->
  let r := requestTileGeometry tileXYToQuadKey this now x y level request throttled in
  r.1 = Return (Resolved (terrainDataOf (_metadata this) (tileXYToQuadKey x y level) info b))
  /\ _terrainCache (_cache r.2) !! tileXYToQuadKey x y level = None
  /\ (forall k, k <> tileXYToQuadKey x y level ->
        _terrainCache (_cache r.2) !! k = _terrainCache (_cache this) !! k)
  /\ sameRegistrations this r.2.
Proof.
  intros Hready Hinfo Hentry Hb. cbv zeta.
  unfold requestTileGeometry, locateTerrain. rewrite Hready, Hinfo. simpl negb. cbv iota.
  destruct (terrainState info) as [s|] eqn:Hs; cbn [_cache setMetadata];
    unfold TerrainCache_get; rewrite Hentry, Hb; cbn.
  - rewrite lookup_delete_eq. repeat split.
    intros k Hk. apply lookup_delete_ne. congruence.
  - rewrite lookup_delete_eq. repeat split.
    + do 2 f_equal. apply (terrainDataOf_unknown _ _ _ _ Hs).
    + intros k Hk. apply lookup_delete_ne. congruence.
Qed.

Lemma cached_tile_is_served_witness :
  let this :=
    run sampleQuadKey
      [BecomeReady; RequestTileGeometry 0 0 0 0 7%nat false]
      (GoogleEarthEnterpriseTerrainProvider_new 0 sampleMetadata) in
  let this := (settle true 1 this 0%nat (Loaded [[1; 2; 3]])).1 in
  let this := setCache this (TerrainCache_add 2 (_cache this) "0" (Some [4; 5])) in
  (requestTileGeometry sampleQuadKey this 100 0 0 0 8%nat false).1
  = Return (Resolved (GoogleEarthEnterpriseTerrainData [4; 5] 0 None 32 None)).
Proof.
  cbv zeta.
  eapply eq_trans;
    [ eapply (cached_tile_is_served sampleQuadKey _ 100 0 0 0 8%nat false);
      [ reflexivity | vm_compute; reflexivity | vm_compute; reflexivity
      | reflexivity ]
    | vm_compute; reflexivity ].
Defined.

Lemma readElement_newArray ty n i :
  0 <= i < n -> readElement (newArray ty n) i = num 0.
Proof.
  intros Hi. unfold readElement, newArray. simpl.
  rewrite decide_True by lia.
  rewrite lookup_replicate_2 by lia. reflexivity.
Qed.

(** X13: above the levels with terrain the ellipsoid is answered: a tile
    whose ancestors have no terrain and that is not in the cache gets a
    resolved promise for a 16 by 16 heightmap in which every sample is 0
    and every child is available, and nothing is fetched or registered. *)
Theorem tile_without_ancestor_terrain_is_flat (tileXYToQuadKey : Z -> Z -> Z -> string)
    this now x y level request throttled info :
  _ready this = true ->
  tileInfo (_metadata this) !! tileXYToQuadKey x y level = Some info ->
  ancestorHasTerrain info = false ->
  (TerrainCache_get (_cache this) (tileXYToQuadKey x y level)).1 = None ->
  let r := requestTileGeometry tileXYToQuadKey this now x y level request throttled in
  exists data heights,
    r.1 = Return (Resolved (Heightmap data))
    /\ _buffer data = Some heights /\ _mesh data = None
    /\ _width data = 16 /\ _height data = 16
    /\ (forall i, 0 <= i < _width data * _height data ->
          getHeight heights (elementsPerHeight (_structure data))
            (elementMultiplier (_structure data)) (stride (_structure data))
            (isBigEndian (_structure data)) i = num 0)
    /\ (forall thisX thisY childX childY : Z,
          isChildAvailable data (Some thisX) (Some thisY) (Some childX) (Some childY)
          = Return true)
    /\ wasCreatedByUpsampling data = false
    /\ sameRegistrations this r.2.
Proof.
  intros Hready Hinfo Hanc Hmiss. cbv zeta.
  pose proof (locateTerrain_registrations this now (tileXYToQuadKey x y level))
    as [Hreg _].
  unfold requestTileGeometry. rewrite Hready. simpl negb. cbv iota.
  revert Hreg. unfold locateTerrain. rewrite Hinfo.
  destruct (terrainState info) as [s|] eqn:Hs; cbn [_cache setMetadata];
    destruct (TerrainCache_get (_cache this) (tileXYToQuadKey x y level))
      as [[b|] cache] eqn:Hget; try discriminate Hmiss;
    cbn [ancestorHasTerrain setTerrainState]; rewrite Hanc; simpl negb; cbv iota;
    cbn [HeightmapTerrainData_new opt_buffer opt_width opt_height opt_structure
         opt_childTileMask opt_createdByUpsampling opt_waterMask defaultValue];
    intros Hreg;
    (eexists _, _; split; [reflexivity|]; split; [reflexivity|];
     repeat (split; [reflexivity|]); split; [|split; [|split; [reflexivity|exact Hreg]]]).
  all: try (intros i Hi;
            change (0 <= i < 16 * 16) in Hi;
            apply (getHeight_single _ (ofZ 256) false i (ofZ 0));
            apply readElement_newArray; exact Hi).
  all: intros tx ty cx cy; rewrite isChildAvailable_bit; f_equal;
    destruct (bool_decide (cx <> tx * 2)), (bool_decide (cy <> ty * 2));
    reflexivity.
Qed.

Lemma tile_without_ancestor_terrain_is_flat_witness :
  exists data,
    (requestTileGeometry sampleQuadKey
       (step sampleQuadKey (GoogleEarthEnterpriseTerrainProvider_new 0 seaMetadata)
          BecomeReady) 5 0 0 0 7%nat false).1
    = Return (Resolved (Heightmap data))
    /\ _width data = 16 /\ _height data = 16.
Proof.
  destruct (tile_without_ancestor_terrain_is_flat sampleQuadKey
              (step sampleQuadKey (GoogleEarthEnterpriseTerrainProvider_new 0 seaMetadata)
                 BecomeReady) 5 0 0 0 7%nat false
              {| terrainState := None; hasTerrain := false;
                 ancestorHasTerrain := false; terrainVersion := 1;
                 terrainProvider := 0; childBitmask := 0 |})
    as (data & heights & Hr & _ & _ & Hw & Hh & _);
    [reflexivity | reflexivity | reflexivity | reflexivity |].
  exists data. split; [exact Hr | split; [exact Hw | exact Hh]].
Defined.

Lemma lookup_writeTerrainState metadata quadKey s k :
  tileInfo (writeTerrainState metadata quadKey s) !! k
  = if decide (quadKey = k)
    then (fun info => setTerrainState info s) <$> tileInfo metadata !! k
    else tileInfo metadata !! k.
Proof.
  unfold writeTerrainState. simpl.
  destruct (decide (quadKey = k)) as [->|Hne].
  - apply lookup_alter_eq.
  - apply lookup_alter_ne. exact Hne.
Qed.

(** The tiles for which [locateTerrain] finds no source of terrain. *)
Lemma locateTerrain_notExist this now k :
  (TerrainCache_get (_cache this) k).1 = None ->
  match tileInfo (_metadata this) !! k with
  | None => True
  | Some info =>
      ancestorHasTerrain info = true
      /\ (terrainState info = Some NONE
          \/ ((terrainState info = None \/ terrainState info = Some UNKNOWN)
              /\ hasTerrain info = false
              /\ match tileInfo (_metadata this) !! parentKey k with
                 | Some parentInfo => hasTerrain parentInfo = false
                 | None => True
                 end))
  end ->
  (locateTerrain this now k).1 = Return (Answer notExist).
Proof.
  intros Hmiss. unfold locateTerrain.
  destruct (tileInfo (_metadata this) !! k) as [info|] eqn:Hinfo; [|reflexivity].
  intros [Hanc Hcases].
  destruct (TerrainCache_get (_cache this) k) as [[b|] cache] eqn:Hget;
    [discriminate Hmiss|]. clear Hmiss.
  destruct Hcases as [Hs | [Hs [Hht Hp]]].
  - rewrite Hs. rewrite Hget. rewrite Hanc. simpl negb. cbv iota.
    rewrite decide_True by reflexivity. reflexivity.
  - destruct Hs as [Hs|Hs]; rewrite Hs; cbn [_cache setMetadata]; rewrite Hget;
      cbn [ancestorHasTerrain hasTerrain setTerrainState];
      rewrite Hanc, Hht; simpl negb; cbv iota;
      rewrite decide_False by discriminate;
      cbn [_metadata setCache setMetadata].
    + rewrite lookup_writeTerrainState.
      destruct (tileInfo (_metadata this) !! parentKey k) as [p|];
        destruct (decide (k = parentKey k)); simpl; rewrite ?Hp; reflexivity.
    + destruct (tileInfo (_metadata this) !! parentKey k) as [p|];
        rewrite ?Hp; reflexivity.
Qed.

(** X14: a tile that [getTileDataAvailable] reports as unavailable is not
    fetched: unless its buffer is in the cache, the request that follows is
    rejected with "Terrain tile doesn't exist" and nothing is fetched or
    registered. *)
Theorem unavailable_tile_is_not_fetched (tileXYToQuadKey : Z -> Z -> Z -> string)
    this x y level now request throttled :
  _ready this = true ->
  (getTileDataAvailable tileXYToQuadKey this x y level).1 = false ->
  (TerrainCache_get (_cache this) (tileXYToQuadKey x y level)).1 = None ->
  let probed := (getTileDataAvailable tileXYToQuadKey this x y level).2 in
  let r := requestTileGeometry tileXYToQuadKey probed now x y level request throttled in
  r.1 = Return notExist /\ sameRegistrations this r.2.
Proof.
  intros Hready Hprobe Hmiss. cbv zeta.
  set (k := tileXYToQuadKey x y level) in *.
  set (probed := (getTileDataAvailable tileXYToQuadKey this x y level).2).
  assert (Hr : _ready probed = true).
  { unfold probed, getTileDataAvailable. repeat case_match; simpl; exact Hready. }
  assert (Hc : _cache probed = _cache this).
  { unfold probed, getTileDataAvailable. repeat case_match; reflexivity. }
  pose proof (getTileDataAvailable_registrations tileXYToQuadKey this x y level) as Hreg1.
  fold probed in Hreg1.
  pose proof (locateTerrain_registrations probed now k) as [Hreg2 _].
  assert (Hloc : (locateTerrain probed now k).1 = Return (Answer notExist)).
  { apply locateTerrain_notExist; [rewrite Hc; exact Hmiss|].
    revert Hprobe. unfold probed, getTileDataAvailable. fold k.
    destruct (tileInfo (_metadata this) !! k) as [info|] eqn:Hinfo.
    2:{ intros _.
        assert (E : tileInfo (_metadata
                      (if decide (k ∈ nullInfo (_metadata this))
                       then (false, this)
                       else if isValid (_metadata this) k
                            then (false,
                                  setMetadata this
                                    (populateSubtree (_metadata this) x y level))
                            else (false, this)).2) !! k = None).
        { repeat case_match; simpl; exact Hinfo. }
        rewrite E. exact I. }
    destruct (ancestorHasTerrain info) eqn:Hanc; simpl negb; cbv iota;
      [|discriminate].
    destruct (terrainState info) as [[| | |]|] eqn:Hs; try discriminate.
    - destruct (hasTerrain info) eqn:Hht; simpl negb; cbv iota; [discriminate|].
      intros Hprobe.
      assert (E : (let this0 :=
                     setMetadata this (writeTerrainState (_metadata this) k UNKNOWN) in
                   match tileInfo (_metadata this) !! parentKey k with
                   | Some parentInfo =>
                       if hasTerrain parentInfo then (true, this0) else (false, this0)
                   | None => (false, this0)
                   end).2
                  = setMetadata this (writeTerrainState (_metadata this) k UNKNOWN)).
      { cbv zeta. repeat case_match; reflexivity. }
      unfold k in E |- *. rewrite E. fold k. cbn [_metadata setMetadata].
      rewrite !lookup_writeTerrainState, decide_True, Hinfo by reflexivity.
      cbn [fmap option_fmap option_map ancestorHasTerrain hasTerrain terrainState
           setTerrainState].
      split; [exact Hanc|]. right. split; [right; reflexivity|]. split; [exact Hht|].
      destruct (tileInfo (_metadata this) !! parentKey k) as [p|];
        destruct (decide (k = parentKey k)); simpl; try exact I;
        destruct (hasTerrain p); try discriminate Hprobe; reflexivity.
    - intros _. cbn [snd]. rewrite Hinfo. split; [exact Hanc|]. left. exact Hs.
    - destruct (hasTerrain info) eqn:Hht; simpl negb; cbv iota; [discriminate|].
      intros Hprobe.
      assert (E : (let this0 :=
                     setMetadata this (writeTerrainState (_metadata this) k UNKNOWN) in
                   match tileInfo (_metadata this) !! parentKey k with
                   | Some parentInfo =>
                       if hasTerrain parentInfo then (true, this0) else (false, this0)
                   | None => (false, this0)
                   end).2
                  = setMetadata this (writeTerrainState (_metadata this) k UNKNOWN)).
      { cbv zeta. repeat case_match; reflexivity. }
      unfold k in E |- *. rewrite E. fold k. cbn [_metadata setMetadata].
      rewrite !lookup_writeTerrainState, decide_True, Hinfo by reflexivity.
      cbn [fmap option_fmap option_map ancestorHasTerrain hasTerrain terrainState
           setTerrainState].
      split; [exact Hanc|]. right. split; [right; reflexivity|]. split; [exact Hht|].
      destruct (tileInfo (_metadata this) !! parentKey k) as [p|];
        destruct (decide (k = parentKey k)); simpl; try exact I;
        destruct (hasTerrain p); try discriminate Hprobe; reflexivity. }
  unfold requestTileGeometry. rewrite Hr. simpl negb. cbv iota. fold k.
  destruct (locateTerrain probed now k) as [c this1]. simpl in Hloc, Hreg2. subst c.
  simpl. split; [reflexivity|].
  eapply sameRegistrations_trans; eassumption.
Qed.

Lemma unavailable_tile_is_not_fetched_witness :
  let this :=
    step sampleQuadKey (GoogleEarthEnterpriseTerrainProvider_new 0 bareMetadata)
      BecomeReady in
  let probed := (getTileDataAvailable sampleQuadKey this 0 0 0).2 in
  let r := requestTileGeometry sampleQuadKey probed 5 0 0 0 7%nat false in
  r.1 = Return notExist /\ sameRegistrations this r.2.
Proof.
  apply (unavailable_tile_is_not_fetched sampleQuadKey
           (step sampleQuadKey (GoogleEarthEnterpriseTerrainProvider_new 0 bareMetadata)
              BecomeReady) 0 0 0 5 7%nat false); reflexivity.
Defined.

Lemma writeTerrainState_twice metadata k s :
  writeTerrainState (writeTerrainState metadata k s) k s
  = writeTerrainState metadata k s.
Proof.
  unfold writeTerrainState, setTileInfo. simpl. f_equal.
  apply map_eq. intros k'.
  destruct (decide (k = k')) as [<-|Hne].
  - rewrite !lookup_alter_eq.
    destruct (tileInfo metadata !! k); reflexivity.
  - rewrite !lookup_alter_ne by exact Hne. reflexivity.
Qed.

Lemma getTileDataAvailable_informed (tileXYToQuadKey : Z -> Z -> Z -> string)
    (this : Provider) (x y level : Z) :
  is_Some (tileInfo (_metadata this) !! tileXYToQuadKey x y level) ->
  let probe := getTileDataAvailable tileXYToQuadKey this x y level in
  getTileDataAvailable tileXYToQuadKey probe.2 x y level = (probe.1, probe.2)
  /\ _cache probe.2 = _cache this
  /\ (forall k, k <> tileXYToQuadKey x y level ->
        tileInfo (_metadata probe.2) !! k = tileInfo (_metadata this) !! k)
  /\ (forall info s,
        tileInfo (_metadata this) !! tileXYToQuadKey x y level = Some info ->
        terrainState info = Some s ->
        tileInfo (_metadata probe.2) !! tileXYToQuadKey x y level = Some info).
Proof.
  intros Hsome. cbv zeta. set (k := tileXYToQuadKey x y level) in *.
  assert (Hwrite : forall info,
            tileInfo (_metadata this) !! k = Some info ->
            tileInfo (writeTerrainState (_metadata this) k UNKNOWN) !! k
            = Some (setTerrainState info UNKNOWN)).
  { intros info Hinfo.
    rewrite lookup_writeTerrainState, decide_True, Hinfo by reflexivity.
    reflexivity. }
  assert (Hother : forall k', k' <> k ->
            tileInfo (writeTerrainState (_metadata this) k UNKNOWN) !! k'
            = tileInfo (_metadata this) !! k').
  { intros k' Hk'. rewrite lookup_writeTerrainState, decide_False by congruence.
    reflexivity. }
  assert (Hstay : forall b,
            getTileDataAvailable tileXYToQuadKey this x y level = (b, this) ->
            getTileDataAvailable tileXYToQuadKey
              (getTileDataAvailable tileXYToQuadKey this x y level).2 x y level
            = ((getTileDataAvailable tileXYToQuadKey this x y level).1,
               (getTileDataAvailable tileXYToQuadKey this x y level).2)
            /\ _cache (getTileDataAvailable tileXYToQuadKey this x y level).2
               = _cache this
            /\ (forall k', k' <> k ->
                  tileInfo (_metadata
                    (getTileDataAvailable tileXYToQuadKey this x y level).2) !! k'
                  = tileInfo (_metadata this) !! k')
            /\ (forall info s,
                  tileInfo (_metadata this) !! k = Some info ->
                  terrainState info = Some s ->
                  tileInfo (_metadata
                    (getTileDataAvailable tileXYToQuadKey this x y level).2) !! k
                  = Some info)).
  { intros b Hprobe. rewrite Hprobe. cbn [fst snd].
    split; [exact Hprobe|]. repeat split. intros info s Hi _. exact Hi. }
  assert (Hmove : forall info b,
            tileInfo (_metadata this) !! k = Some info ->
            ancestorHasTerrain info = true ->
            terrainState info = None \/ terrainState info = Some UNKNOWN ->
            b = (if negb (hasTerrain info)
                 then match tileInfo (_metadata this) !! parentKey k with
                      | Some parentInfo => hasTerrain parentInfo
                      | None => false
                      end
                 else true) ->
            getTileDataAvailable tileXYToQuadKey this x y level
            = (b, setMetadata this (writeTerrainState (_metadata this) k UNKNOWN)) ->
            getTileDataAvailable tileXYToQuadKey
              (getTileDataAvailable tileXYToQuadKey this x y level).2 x y level
            = ((getTileDataAvailable tileXYToQuadKey this x y level).1,
               (getTileDataAvailable tileXYToQuadKey this x y level).2)
            /\ _cache (getTileDataAvailable tileXYToQuadKey this x y level).2
               = _cache this
            /\ (forall k', k' <> k ->
                  tileInfo (_metadata
                    (getTileDataAvailable tileXYToQuadKey this x y level).2) !! k'
                  = tileInfo (_metadata this) !! k')
            /\ (forall info s,
                  tileInfo (_metadata this) !! k = Some info ->
                  terrainState info = Some s ->
                  tileInfo (_metadata
                    (getTileDataAvailable tileXYToQuadKey this x y level).2) !! k
                  = Some info)).
  { intros info b Hinfo Hanc Hs Hb Hprobe. rewrite Hprobe.
    cbn [fst snd _metadata _cache setMetadata].
    split; [|split; [reflexivity|split; [exact Hother|]]].
    - unfold getTileDataAvailable. fold k. cbn [_metadata setMetadata].
      rewrite (Hwrite _ Hinfo).
      cbn [ancestorHasTerrain terrainState hasTerrain setTerrainState].
      rewrite Hanc. simpl negb. cbv iota zeta.
      rewrite writeTerrainState_twice.
      assert (Hpar : match tileInfo (writeTerrainState (_metadata this) k UNKNOWN)
                             !! parentKey k with
                     | Some parentInfo => hasTerrain parentInfo
                     | None => false
                     end
                     = match tileInfo (_metadata this) !! parentKey k with
                       | Some parentInfo => hasTerrain parentInfo
                       | None => false
                       end).
      { rewrite lookup_writeTerrainState.
        destruct (decide (k = parentKey k)); [|reflexivity].
        destruct (tileInfo (_metadata this) !! parentKey k); reflexivity. }
      subst b. destruct (hasTerrain info); simpl negb; cbv iota; [reflexivity|].
      rewrite <- Hpar.
      destruct (tileInfo (writeTerrainState (_metadata this) k UNKNOWN)
                  !! parentKey k) as [p2|]; [destruct (hasTerrain p2)|]; reflexivity.
    - intros info' s Hinfo' Hs'. rewrite Hinfo in Hinfo'. injection Hinfo' as <-.
      rewrite (Hwrite _ Hinfo). f_equal.
      destruct Hs as [Hs|Hs]; [congruence|].
      clear - Hs. destruct info as [ts ? ? ? ? ?]. cbn in Hs. subst ts.
      reflexivity. }
  destruct (tileInfo (_metadata this) !! k) as [info|] eqn:Hinfo.
  2:{ destruct Hsome as [? Hsome]. discriminate. }
  destruct (ancestorHasTerrain info) eqn:Hanc.
  2:{ apply (Hstay true). unfold getTileDataAvailable. fold k.
      rewrite Hinfo, Hanc. reflexivity. }
  destruct (terrainState info) as [[| | |]|] eqn:Hs.
  - eapply (Hmove info); [reflexivity | exact Hanc | right; exact Hs | reflexivity |].
    unfold getTileDataAvailable. fold k. rewrite Hinfo, Hanc, Hs.
    simpl negb. cbv iota zeta.
    destruct (hasTerrain info); simpl negb; cbv iota; [reflexivity|].
    destruct (tileInfo (_metadata this) !! parentKey k) as [p|];
      [destruct (hasTerrain p)|]; reflexivity.
  - apply (Hstay false). unfold getTileDataAvailable. fold k.
    rewrite Hinfo, Hanc, Hs. reflexivity.
  - apply (Hstay true). unfold getTileDataAvailable. fold k.
    rewrite Hinfo, Hanc, Hs. reflexivity.
  - apply (Hstay true). unfold getTileDataAvailable. fold k.
    rewrite Hinfo, Hanc, Hs. reflexivity.
  - eapply (Hmove info); [reflexivity | exact Hanc | left; exact Hs | reflexivity |].
    unfold getTileDataAvailable. fold k. rewrite Hinfo, Hanc, Hs.
    simpl negb. cbv iota zeta.
    destruct (hasTerrain info); simpl negb; cbv iota; [reflexivity|].
    destruct (tileInfo (_metadata this) !! parentKey k) as [p|];
      [destruct (hasTerrain p)|]; reflexivity.
Qed.


(** X15: what [getTileDataAvailable] changes.  It leaves the cache and the
    information of every other tile alone, and a terrain state that is
    defined.  For a tile that has information a second call gives the same
    answer and changes nothing any more, and no subtree is requested.  For
    a tile without information the answer is [false] and the information
    objects stay as they are; the metadata is asked to populate the subtree,
    at every call, exactly when the entry is [undefined] (not [null]) and
    the quad key is valid. *)
Theorem getTileDataAvailable_effects (tileXYToQuadKey : Z -> Z -> Z -> string)
    (this : Provider) (x y level : Z) :
  let quadKey := tileXYToQuadKey x y level in
  let probe := getTileDataAvailable tileXYToQuadKey this x y level in
  _cache probe.2 = _cache this
  /\ (forall k, k <> quadKey ->
        tileInfo (_metadata probe.2) !! k = tileInfo (_metadata this) !! k)
  /\ (forall info s,
        tileInfo (_metadata this) !! quadKey = Some info ->
        terrainState info = Some s ->
        tileInfo (_metadata probe.2) !! quadKey = Some info)
  /\ (is_Some (tileInfo (_metadata this) !! quadKey) ->
      getTileDataAvailable tileXYToQuadKey probe.2 x y level = (probe.1, probe.2)
      /\ subtreeRequests (_metadata probe.2) = subtreeRequests (_metadata this))
  /\ (tileInfo (_metadata this) !! quadKey = None ->
      probe.1 = false
      /\ tileInfo (_metadata probe.2) = tileInfo (_metadata this)
      /\ subtreeRequests (_metadata probe.2)
         = subtreeRequests (_metadata this)
           ++ (if decide (quadKey ∈ nullInfo (_metadata this)) then []
               else if isValid (_metadata this) quadKey then [(x, y, level)]
               else [])).
Proof.
  cbv zeta. set (k := tileXYToQuadKey x y level).
  destruct (tileInfo (_metadata this) !! k) as [info|] eqn:Hinfo.
  - destruct (getTileDataAvailable_informed tileXYToQuadKey this x y level)
      as (Hrep & Hcache & Hother & Hdef); [fold k; rewrite Hinfo; eauto|].
    fold k in Hother, Hdef. rewrite Hinfo in Hdef.
    split; [exact Hcache|]. split; [exact Hother|]. split; [exact Hdef|].
    split; [|discriminate]. intros _. split; [exact Hrep|].
    unfold getTileDataAvailable. fold k. rewrite Hinfo.
    repeat case_match; reflexivity.
  - assert (E : getTileDataAvailable tileXYToQuadKey this x y level
                = if decide (k ∈ nullInfo (_metadata this)) then (false, this)
                  else if isValid (_metadata this) k
                       then (false,
                             setMetadata this
                               (populateSubtree (_metadata this) x y level))
                       else (false, this)).
    { unfold getTileDataAvailable. fold k. rewrite Hinfo. reflexivity. }
    rewrite E.
    split; [repeat case_match; reflexivity|].
    split; [intros k' _; repeat case_match; reflexivity|].
    split; [discriminate|].
    split; [intros [? ?]; discriminate|]. intros _.
    split; [repeat case_match; reflexivity|].
    split; [repeat case_match; reflexivity|].
    destruct (decide (k ∈ nullInfo (_metadata this)));
      [simpl; rewrite app_nil_r; reflexivity|].
    destruct (isValid (_metadata this) k); simpl;
      [reflexivity | rewrite app_nil_r; reflexivity].
Qed.

Lemma getTileDataAvailable_effects_witness :
  let this := GoogleEarthEnterpriseTerrainProvider_new 0 bareMetadata in
  let probe := getTileDataAvailable sampleQuadKey this 0 0 0 in
  getTileDataAvailable sampleQuadKey probe.2 0 0 0 = (probe.1, probe.2)
  /\ subtreeRequests (_metadata probe.2) = subtreeRequests (_metadata this).
Proof.
  destruct (getTileDataAvailable_effects sampleQuadKey
              (GoogleEarthEnterpriseTerrainProvider_new 0 bareMetadata) 0 0 0)
    as (_ & _ & _ & H & _).
  apply H. vm_compute. eauto.
Defined.

(** ** The provider: a decoded packet is stored *)

Lemma pretty_N_go_nonempty x s : s <> "" -> pretty_N_go x s <> "".
Proof.
  revert s. induction (N.lt_wf_0 x) as [x _ IH]. intros s Hs.
  assert (x = 0 \/ 0 < x)%N as [->|Hx] by lia.
  - rewrite pretty_N_go_0. exact Hs.
  - rewrite pretty_N_go_step by exact Hx. apply IH.
    + apply N.div_lt; [exact Hx | reflexivity].
    + discriminate.
Qed.

Lemma childDigit_nonempty j : childDigit j <> "".
Proof.
  unfold childDigit, pretty, pretty_nat, pretty, pretty_N.
  destruct (decide (N.of_nat j = 0%N)) as [E|E]; [discriminate|].
  rewrite pretty_N_go_step by lia. apply pretty_N_go_nonempty. discriminate.
Qed.

Lemma append_empty q : q +:+ "" = q.
Proof.
  induction q as [|a q IH]; [reflexivity|].
  change (String a (q +:+ "") = String a q). f_equal. exact IH.
Qed.

Lemma child_key_ne q j : q +:+ childDigit j <> q.
Proof.
  intros H. apply (childDigit_nonempty j).
  apply (String.app_inj q). rewrite append_empty. exact H.
Qed.

Lemma child_key_inj q i j : q +:+ childDigit i = q +:+ childDigit j -> i = j.
Proof.
  intros H. apply (String.app_inj q) in H.
  unfold childDigit in H. apply (inj pretty) in H. exact H.
Qed.

Lemma storeChild_known now q provider tiles this j child :
  tileInfo (_metadata this) !! (q +:+ childDigit j) = Some child ->
  let this' := storeChild now q provider tiles this j in
  tileInfo (_metadata this') !! (q +:+ childDigit j) = Some (storedChild provider child)
  /\ _terrainCache (_cache this') !! (q +:+ childDigit j)
     = Some {| buffer := tiles !! (j + 1)%nat; timestamp := now |}
  /\ (forall k, k <> q +:+ childDigit j ->
        tileInfo (_metadata this') !! k = tileInfo (_metadata this) !! k
        /\ _terrainCache (_cache this') !! k = _terrainCache (_cache this) !! k).
Proof.
  intros Hc. cbv zeta. unfold storeChild. rewrite Hc.
  cbn [_metadata _cache setMetadata setCache setTileInfo tileInfo
       TerrainCache_add _terrainCache].
  rewrite !lookup_insert_eq. split; [reflexivity|]. split; [reflexivity|].
  intros k Hk. rewrite !lookup_insert_ne by congruence. split; reflexivity.
Qed.

Lemma storeChild_unknown now q provider tiles this j :
  tileInfo (_metadata this) !! (q +:+ childDigit j) = None ->
  storeChild now q provider tiles this j = this.
Proof. intros Hc. unfold storeChild. rewrite Hc. reflexivity. Qed.

Lemma storeChildren now q provider tiles (js : list nat) : forall this,
  NoDup js ->
  let this' := foldl (storeChild now q provider tiles) this js in
  (forall j child,
     j ∈ js -> tileInfo (_metadata this) !! (q +:+ childDigit j) = Some child ->
     tileInfo (_metadata this') !! (q +:+ childDigit j)
       = Some (storedChild provider child)
     /\ _terrainCache (_cache this') !! (q +:+ childDigit j)
        = Some {| buffer := tiles !! (j + 1)%nat; timestamp := now |})
  /\ (forall k,
        (forall j, j ∈ js -> k = q +:+ childDigit j ->
                   tileInfo (_metadata this) !! k = None) ->
        tileInfo (_metadata this') !! k = tileInfo (_metadata this) !! k
        /\ _terrainCache (_cache this') !! k = _terrainCache (_cache this) !! k).
Proof.
  induction js as [|j0 js IH]; intros this Hnd; cbv zeta.
  - simpl. split; [intros j child Hj; inversion Hj | intros; split; reflexivity].
  - apply NoDup_cons in Hnd as [Hj0 Hnd].
    cbn [foldl].
    specialize (IH (storeChild now q provider tiles this j0) Hnd).
    cbv zeta in IH. destruct IH as [IHa IHb].
    set (this1 := storeChild now q provider tiles this j0) in *.
    assert (Hother : forall k, k <> q +:+ childDigit j0 ->
              tileInfo (_metadata this1) !! k = tileInfo (_metadata this) !! k
              /\ _terrainCache (_cache this1) !! k = _terrainCache (_cache this) !! k).
    { intros k Hk. unfold this1.
      destruct (tileInfo (_metadata this) !! (q +:+ childDigit j0)) as [c0|] eqn:E0.
      - apply (storeChild_known now q provider tiles this j0 c0 E0). exact Hk.
      - rewrite storeChild_unknown by exact E0. split; reflexivity. }
    split.
    + intros j child Hj Hchild.
      apply elem_of_cons in Hj as [->|Hj].
      * destruct (storeChild_known now q provider tiles this j0 child Hchild)
          as (Hm & Hc & _).
        fold this1 in Hm, Hc.
        destruct (IHb (q +:+ childDigit j0)) as [Em Ec].
        { intros j Hj E. apply child_key_inj in E. subst j. contradiction. }
        rewrite Em, Ec. split; assumption.
      * assert (Hne : q +:+ childDigit j <> q +:+ childDigit j0).
        { intros E. apply child_key_inj in E. subst j. contradiction. }
        apply IHa; [exact Hj|].
        destruct (Hother _ Hne) as [-> _]. exact Hchild.
    + intros k Hk.
      assert (H1 : tileInfo (_metadata this1) !! k = tileInfo (_metadata this) !! k
                   /\ _terrainCache (_cache this1) !! k
                      = _terrainCache (_cache this) !! k).
      { destruct (decide (k = q +:+ childDigit j0)) as [E|Hne].
        - unfold this1. rewrite storeChild_unknown; [split; reflexivity|].
          rewrite <- E. apply (Hk j0); [left | exact E].
        - apply Hother. exact Hne. }
      destruct H1 as [Em Ec].
      destruct (IHb k) as [Em' Ec'].
      { intros j Hj E. rewrite Em. apply (Hk j); [right; exact Hj | exact E]. }
      rewrite Em', Ec'. split; assumption.
Qed.

Lemma storeTerrain_spec now this q terrainTiles requestedInfo :
  tileInfo (_metadata this) !! q = Some requestedInfo ->
  exists this',
    storeTerrain now this q terrainTiles = Return this'
    /\ tileInfo (_metadata this') !! q = Some (setTerrainState requestedInfo SELF)
    /\ _terrainCache (_cache this') !! q
       = Some {| buffer := terrainTiles !! 0%nat; timestamp := now |}
    /\ (forall j child,
          (j < length terrainTiles - 1)%nat ->
          tileInfo (_metadata this) !! (q +:+ childDigit j) = Some child ->
          tileInfo (_metadata this') !! (q +:+ childDigit j)
            = Some (storedChild (terrainProvider requestedInfo) child)
          /\ _terrainCache (_cache this') !! (q +:+ childDigit j)
             = Some {| buffer := terrainTiles !! (j + 1)%nat; timestamp := now |})
    /\ (forall k,
          k <> q ->
          (forall j, (j < length terrainTiles - 1)%nat -> k = q +:+ childDigit j ->
                     tileInfo (_metadata this) !! k = None) ->
          tileInfo (_metadata this') !! k = tileInfo (_metadata this) !! k
          /\ _terrainCache (_cache this') !! k = _terrainCache (_cache this) !! k).
Proof.
  intros Hq. unfold storeTerrain. rewrite Hq.
  eexists. split; [reflexivity|].
  set (this0 := setCache _ _).
  assert (H0q : tileInfo (_metadata this0) !! q = Some (setTerrainState requestedInfo SELF)
                /\ _terrainCache (_cache this0) !! q
                   = Some {| buffer := terrainTiles !! 0%nat; timestamp := now |}).
  { unfold this0. cbn [_metadata _cache setCache setMetadata TerrainCache_add _terrainCache].
    rewrite lookup_writeTerrainState, decide_True, Hq, lookup_insert_eq by reflexivity.
    split; reflexivity. }
  assert (H0k : forall k, k <> q ->
            tileInfo (_metadata this0) !! k = tileInfo (_metadata this) !! k
            /\ _terrainCache (_cache this0) !! k = _terrainCache (_cache this) !! k).
  { intros k Hk. unfold this0.
    cbn [_metadata _cache setCache setMetadata TerrainCache_add _terrainCache].
    rewrite lookup_writeTerrainState, decide_False, lookup_insert_ne by congruence.
    split; reflexivity. }
  destruct (storeChildren now q (terrainProvider requestedInfo) terrainTiles
              (seq 0 (length terrainTiles - 1)) this0 (NoDup_seq _ _)) as [Ha Hb].
  cbv zeta in Ha, Hb.
  split; [|split; [|split]].
  - destruct (Hb q) as [-> _]; [|apply H0q].
    intros j _ E. exfalso. symmetry in E. exact (child_key_ne q j E).
  - destruct (Hb q) as [_ ->]; [|apply H0q].
    intros j _ E. exfalso. symmetry in E. exact (child_key_ne q j E).
  - intros j child Hj Hchild. apply Ha.
    + apply elem_of_seq. lia.
    + destruct (H0k (q +:+ childDigit j) (child_key_ne q j)) as [-> _]. exact Hchild.
  - intros k Hkq Hk. destruct (H0k k Hkq) as [Em Ec].
    destruct (Hb k) as [Em' Ec'].
    + intros j Hj E. rewrite Em. apply (Hk j); [|exact E].
      apply elem_of_seq in Hj. lia.
    + rewrite Em', Ec'. split; assumption.
Qed.

(** X16: the callback that stores a decoded packet.  The requested tile
    becomes [SELF] with the first buffer of the packet in the cache; each
    child [q + j] that the metadata knows becomes [PARENT] with buffer
    [j + 1] in the cache, and takes over the provider of [q] if it has
    none; a child the metadata does not know is skipped, and every other
    tile and cache entry is left as it is. *)
Theorem storeTerrain_stores now this q terrainTiles requestedInfo :
  tileInfo (_metadata this) !! q = Some requestedInfo ->
  exists this',
    storeTerrain now this q terrainTiles = Return this'
    /\ tileInfo (_metadata this') !! q = Some (setTerrainState requestedInfo SELF)
    /\ _terrainCache (_cache this') !! q
       = Some {| buffer := terrainTiles !! 0%nat; timestamp := now |}
    /\ (forall j child,
          (j < length terrainTiles - 1)%nat ->
          tileInfo (_metadata this) !! (q +:+ childDigit j) = Some child ->
          tileInfo (_metadata this') !! (q +:+ childDigit j)
            = Some (storedChild (terrainProvider requestedInfo) child)
          /\ _terrainCache (_cache this') !! (q +:+ childDigit j)
             = Some {| buffer := terrainTiles !! (j + 1)%nat; timestamp := now |})
    /\ (forall k,
          k <> q ->
          (forall j, (j < length terrainTiles - 1)%nat -> k = q +:+ childDigit j ->
                     tileInfo (_metadata this) !! k = None) ->
          tileInfo (_metadata this') !! k = tileInfo (_metadata this) !! k
          /\ _terrainCache (_cache this') !! k = _terrainCache (_cache this) !! k).
Proof. exact (storeTerrain_spec now this q terrainTiles requestedInfo). Qed.

Lemma storeTerrain_stores_witness :
  exists this',
    storeTerrain 3 (GoogleEarthEnterpriseTerrainProvider_new 0 sampleMetadata) "0"
      [[1; 2]; [3; 4]] = Return this'
    /\ _terrainCache (_cache this') !! "0"
       = Some {| buffer := Some [1; 2]; timestamp := 3 |}.
Proof.
  destruct (storeTerrain_stores 3
              (GoogleEarthEnterpriseTerrainProvider_new 0 sampleMetadata) "0"
              [[1; 2]; [3; 4]]
              {| terrainState := None; hasTerrain := true;
                 ancestorHasTerrain := true; terrainVersion := 1;
                 terrainProvider := 0; childBitmask := 0 |})
    as (this' & Hs & _ & Hc & _); [reflexivity|].
  exists this'. split; [exact Hs | exact Hc].
Defined.

(** ** The provider: a fetch from the request to its settlement *)







Lemma locateTerrain_answer this now k r this1 :
  locateTerrain this now k = (Return (Answer r), this1) ->
  r = notExist \/ exists data, r = Resolved data.
Proof.
  unfold locateTerrain. repeat case_match; intros; simplify_eq; eauto.
Qed.

(** The state a call leaves that has issued a fetch. *)
Lemma requestTileGeometry_issues f this now x y level request throttled p :
  (requestTileGeometry f this now x y level request throttled).1
    = Return (ChainedAfterCleanup p) ->
  exists q v this1,
    locateTerrain this now (f x y level) = (Return (Target q v), this1)
    /\ _ready this = true
    /\ throttled = false
    /\ _terrainPromises this1 !! q = None
    /\ p = nextPromise this1
    /\ (requestTileGeometry f this now x y level request throttled).2
       = {| _metadata := _metadata this1; _cache := _cache this1;
            _terrainPromises := <[q := p]> (_terrainPromises this1);
            _terrainRequests := <[q := request]> (_terrainRequests this1);
            _ready := _ready this1;
            pending :=
              <[p := {| fetch_q := q; fetch_version := resourceVersion v;
                        fetch_first :=
                          {| waiter_quadKey := f x y level;
                             waiter_request := request;
                             waiter_sharedRequest := Some request |};
                        fetch_others := [] |}]> (pending this1);
            requestStates := requestStates this1;
            fetchLog := fetchLog this1 ++ [(q, resourceVersion v)];
            nextPromise := S p |}.
Proof.
  unfold requestTileGeometry.
  destruct (_ready this); simpl negb; cbv iota; [|discriminate].
  destruct (locateTerrain this now (f x y level)) as [[[r|q v]|err] this1]
    eqn:Hloc; [ | |discriminate].
  - simpl. intros [= ->].
    destruct (locateTerrain_answer _ _ _ _ _ Hloc) as [E|[data E]]; discriminate.
  - unfold loadTerrain.
    destruct (_terrainPromises this1 !! q) eqn:Hp; [discriminate|].
    destruct throttled; [discriminate|].
    simpl. intros [= <-]. exists q, v, this1. repeat split. exact Hp.
Qed.












(** ** The provider: the callers of one fetch *)






























(** ** The provider: when a fetch is issued *)

Lemma locateTerrain_target_key this now k q v this1 :
  locateTerrain this now k = (Return (Target q v), this1) ->
  q = k \/ q = parentKey k.
Proof.
  unfold locateTerrain. repeat case_match; intros; simplify_eq; auto.
Qed.

Lemma settle_fetchLog issuerFirst now this p outcome :
  fetchLog (settle issuerFirst now this p outcome).1 = fetchLog this.
Proof.
  destruct (pending this !! p) as [fetch|] eqn:Hp.
  - destruct (settle_in_flight issuerFirst now this p fetch outcome Hp)
      as (this1 & rejection & (_ & _ & _ & _ & Hlog) & _ & _ & ->).
    destruct (runContinuations_registrations issuerFirst rejection
                (unregister this1 (fetch_q fetch) p) fetch)
      as (_ & _ & _ & _ & ->).
    exact Hlog.
  - unfold settle. rewrite Hp. reflexivity.
Qed.

Lemma resourceVersion_positive version : 1 <= resourceVersion version.
Proof. unfold resourceVersion. destruct (decide (version > 0)); lia. Qed.

(** X20: fetches are only issued by requests, one at a time and never for a
    target that is being fetched.  A step of the provider leaves the list
    of fetches as it is, unless it is a request that is not throttled, made
    when the provider is ready, for a tile whose target (the tile or its
    parent) is not registered: then exactly one fetch is added, for that
    target, with a version of at least 1, and the target is registered
    under the new promise. *)
Theorem fetch_only_for_unregistered_target (tileXYToQuadKey : Z -> Z -> Z -> string)
    (this : Provider) (ev : Event) :
  fetchLog (step tileXYToQuadKey this ev) = fetchLog this
  \/ exists now x y level request q version,
       ev = RequestTileGeometry now x y level request false
       /\ fetchLog (step tileXYToQuadKey this ev) = fetchLog this ++ [(q, version)]
       /\ 1 <= version
       /\ _ready this = true
       /\ (q = tileXYToQuadKey x y level \/ q = parentKey (tileXYToQuadKey x y level))
       /\ _terrainPromises this !! q = None
       /\ _terrainPromises (step tileXYToQuadKey this ev) !! q
          = Some (nextPromise this).
Proof.
  destruct ev as [|now x y level request throttled|issuerFirst now p outcome
                  |x y level|request s].
  - left. reflexivity.
  - cbn [step].
    destruct ((requestTileGeometry tileXYToQuadKey this now x y level request
                 throttled).1) as [r|err] eqn:Hr.
    + assert ((exists p, r = ChainedAfterCleanup p)
              \/ ~ exists p, r = ChainedAfterCleanup p) as [[p ->]|Hno]
        by (destruct r; eauto; right; intros [p' E]; discriminate).
      * right.
        destruct (requestTileGeometry_issues _ _ _ _ _ _ _ _ _ Hr)
          as (q & v & this1 & Hloc & Hready & -> & Hp & -> & ->).
        pose proof (locateTerrain_registrations this now (tileXYToQuadKey x y level))
          as ((Hpr & _ & _ & Hnext & Hlog) & _ & _).
        rewrite Hloc in Hpr, Hnext, Hlog. simpl in Hpr, Hnext, Hlog.
        exists now, x, y, level, request, q, (resourceVersion v).
        cbn [fetchLog _terrainPromises].
        rewrite Hlog, <- Hpr, Hnext, lookup_insert_eq.
        repeat split; try assumption.
        -- apply resourceVersion_positive.
        -- apply (locateTerrain_target_key _ _ _ _ _ _ Hloc).
      * left. revert Hr Hno. unfold requestTileGeometry.
        destruct (_ready this); simpl negb; cbv iota; [|reflexivity].
        pose proof (locateTerrain_registrations this now (tileXYToQuadKey x y level))
          as ((_ & _ & _ & _ & Hlog) & _ & _).
        destruct (locateTerrain this now (tileXYToQuadKey x y level))
          as [[[r'|q v]|err] this1]; simpl in Hlog; simpl; try (intros; exact Hlog).
        unfold loadTerrain.
        destruct (_terrainPromises this1 !! q); [intros; exact Hlog|].
        destruct throttled; [intros; exact Hlog|].
        simpl. intros [= <-] Hno. exfalso. apply Hno. eauto.
    + left. revert Hr. unfold requestTileGeometry.
      destruct (_ready this); simpl negb; cbv iota; [|reflexivity].
      pose proof (locateTerrain_registrations this now (tileXYToQuadKey x y level))
        as ((_ & _ & _ & _ & Hlog) & _ & _).
      destruct (locateTerrain this now (tileXYToQuadKey x y level))
        as [[[r'|q v]|err'] this1]; simpl in Hlog; simpl; try (intros; exact Hlog).
      destruct (loadTerrain this1 (tileXYToQuadKey x y level) q v request throttled).
      discriminate.
  - left. apply settle_fetchLog.
  - left. apply (getTileDataAvailable_registrations tileXYToQuadKey this x y level).
  - left. reflexivity.
Qed.

(** ** Levels, skirts and upsampled tiles *)

Lemma shiftLeft_one level : 0 <= level <= 30 -> shiftLeft 1 level = 2 ^ level.
Proof.
  intros Hl. unfold shiftLeft.
  change (wrapSigned 32 1) with 1.
  rewrite Z.mod_small by lia.
  rewrite Z.shiftl_1_l. apply wrapSigned_small; [lia|].
  assert (0 < 2 ^ level) by (apply Z.pow_pos_nonneg; lia).
  assert (2 ^ level <= 2 ^ 30) by (apply Z.pow_le_mono_r; lia).
  change (32 - 1) with 31. lia.
Qed.

Lemma shiftLeft_wraps a level : shiftLeft a (level + 32) = shiftLeft a level.
Proof.
  unfold shiftLeft. f_equal. f_equal.
  replace (level + 32) with (level + 1 * 32) by lia.
  apply Z_mod_plus_full.
Qed.

Lemma ofZ_pos z : 0 < z -> (0 < ofZ z)%Qc.
Proof.
  intros Hz. unfold Qclt. rewrite ofZ_this.
  change (this 0%Qc) with (inject_Z 0). rewrite <- Zlt_Qlt. exact Hz.
Qed.

Lemma Qcinv_pos (d : Qc) : (0 < d)%Qc -> (0 < / d)%Qc.
Proof.
  intros Hd. apply Qcnot_le_lt. intros Hle.
  assert (Hne : d <> 0%Qc) by (apply not_eq_sym, Qclt_not_eq; exact Hd).
  pose proof (Qcmult_le_compat_r _ _ d Hle (Qclt_le_weak _ _ Hd)) as H.
  rewrite Qcmult_inv_l, Qcmult_0_l in H by exact Hne.
  revert H. apply Qclt_not_le. reflexivity.
Qed.

Lemma Qcmult_pos (a b : Qc) : (0 < a)%Qc -> (0 < b)%Qc -> (0 < a * b)%Qc.
Proof.
  intros Ha Hb. rewrite <- (Qcmult_0_l b). apply Qcmult_lt_compat_r; assumption.
Qed.

(** X21: the maximum geometric error halves from one level to the next:
    for the levels 0 to 30 it is the level zero error divided by
    [2 ^ level], a positive number.  The shift [1 << level] takes the level
    modulo 32, so level [level + 32] gets the error of [level]. *)
Theorem getLevelMaximumGeometricError_halves (level : Z) :
  getLevelMaximumGeometricError (level + 32) = getLevelMaximumGeometricError level
  /\ (0 <= level <= 30 ->
      getLevelMaximumGeometricError level
      = (_levelZeroMaximumGeometricError / num (2 ^ level))%js
      /\ ltNumber (num 0) (getLevelMaximumGeometricError level) = true
      /\ (level < 30 ->
          (getLevelMaximumGeometricError (level + 1) * num 2)%js
          = getLevelMaximumGeometricError level)).
Proof.
  split.
  - unfold getLevelMaximumGeometricError. rewrite shiftLeft_wraps. reflexivity.
  - intros Hl.
    assert (Hpow : 0 < 2 ^ level) by (apply Z.pow_pos_nonneg; lia).
    assert (Hformula : forall l, 0 <= l <= 30 ->
              getLevelMaximumGeometricError l
              = Some (Q2Qc (4007516 # 100) / ofZ (2 ^ l))%Qc).
    { intros l Hl'. unfold getLevelMaximumGeometricError.
      rewrite shiftLeft_one by exact Hl'.
      unfold _levelZeroMaximumGeometricError, ndiv, num.
      assert (0 < 2 ^ l) by (apply Z.pow_pos_nonneg; lia).
      rewrite decide_False by (apply ofZ_nonzero; lia). reflexivity. }
    split; [|split].
    + unfold getLevelMaximumGeometricError. rewrite shiftLeft_one by exact Hl.
      reflexivity.
    + rewrite Hformula by exact Hl. unfold num. apply ltNumber_true.
      change (ofZ 0) with 0%Qc. apply Qcmult_pos; [reflexivity|].
      apply Qcinv_pos, ofZ_pos. exact Hpow.
    + intros Hlt. rewrite !Hformula by lia.
      unfold nmul, lift2, num. f_equal.
      rewrite Z.pow_add_r, Z.pow_1_r, ofZ_mul by lia.
      field. split; apply ofZ_nonzero; lia.
Qed.

Lemma getLevelMaximumGeometricError_halves_witness :
  getLevelMaximumGeometricError 3
  = (_levelZeroMaximumGeometricError / num (2 ^ 3))%js
  /\ (getLevelMaximumGeometricError 4 * num 2)%js = getLevelMaximumGeometricError 3.
Proof.
  destruct (getLevelMaximumGeometricError_halves 3) as [_ H].
  destruct H as (H1 & _ & H2); [lia|].
  split; [exact H1 | apply H2; lia].
Defined.

(** X22: [createMesh] stores a skirt height before the mesh exists and
    changes nothing else.  For a positive level zero error [E] and a level
    from 0 to 30 the skirt is the smaller of [4 E / 2 ^ level] and 1000: a
    positive number, so that the mesh will carry a skirt; the buffer stays
    until the mesh arrives. *)
Theorem createMesh_skirtHeight (this : HeightmapTerrainData) (ts : TilingScheme)
    (x y level : Z) (exaggeration : Number) (scheduled : bool) (E : Qc) :
  getEstimatedLevelZeroGeometricErrorForAHeightmap ts (_width this)
    (getNumberOfXTilesAtLevel ts 0) = Some E ->
  (0 < E)%Qc ->
  0 <= level <= 30 ->
  exists this' h,
    createMesh this (Some ts) (Some x) (Some y) (Some level) exaggeration scheduled
    = Return (this', scheduled)
    /\ _skirtHeight this' = Some h
    /\ (h = ofZ 1000 \/ h = (E / ofZ (2 ^ level) * ofZ 4)%Qc)
    /\ (0 < h)%Qc /\ (h <= ofZ 1000)%Qc /\ (h <= E / ofZ (2 ^ level) * ofZ 4)%Qc
    /\ ltNumber (num 0) (_skirtHeight this') = true
    /\ _buffer this' = _buffer this /\ _mesh this' = _mesh this
    /\ _structure this' = _structure this
    /\ _width this' = _width this /\ _height this' = _height this
    /\ _childTileMask this' = _childTileMask this.
Proof.
  intros HE Hpos Hl.
  assert (Hpow : 0 < 2 ^ level) by (apply Z.pow_pos_nonneg; lia).
  set (t := (E / ofZ (2 ^ level) * ofZ 4)%Qc).
  assert (Ht : (0 < t)%Qc).
  { unfold t. apply Qcmult_pos; [|apply ofZ_pos; lia].
    apply Qcmult_pos; [exact Hpos|]. apply Qcinv_pos, ofZ_pos. exact Hpow. }
  assert (Hskirt : computeSkirtHeight this ts level
                   = if ltNumber (num 1000) (Some t) then num 1000 else Some t).
  { unfold computeSkirtHeight. rewrite HE, shiftLeft_one by exact Hl.
    unfold ndiv, num. rewrite decide_False by (apply ofZ_nonzero; lia).
    reflexivity. }
  unfold createMesh, checkMeshArguments.
  destruct (ltNumber (num 1000) (Some t)) eqn:Hlt.
  - apply ltNumber_true in Hlt.
    exists (setSkirtHeight this (computeSkirtHeight this ts level)), (ofZ 1000).
    rewrite Hskirt. cbn [_skirtHeight setSkirtHeight _buffer _mesh _structure
      _width _height _childTileMask].
    split; [reflexivity|]. split; [reflexivity|]. split; [left; reflexivity|].
    split; [apply ofZ_pos; lia|]. split; [apply Qcle_refl|].
    split; [apply Qclt_le_weak; exact Hlt|].
    split; [apply ltNumber_true, ofZ_pos; lia|]. repeat split.
  - apply ltNumber_false in Hlt.
    exists (setSkirtHeight this (computeSkirtHeight this ts level)), t.
    rewrite Hskirt. cbn [_skirtHeight setSkirtHeight _buffer _mesh _structure
      _width _height _childTileMask].
    split; [reflexivity|]. split; [reflexivity|]. split; [right; reflexivity|].
    split; [exact Ht|]. split; [exact Hlt|]. split; [apply Qcle_refl|].
    split; [apply ltNumber_true; exact Ht|]. repeat split.
Qed.

Lemma createMesh_skirtHeight_witness :
  exists this' h,
    createMesh (sampleTile Uint8Array 15) (Some unitTilingScheme) (Some 0) (Some 0)
      (Some 2) (num 1) true = Return (this', true)
    /\ _skirtHeight this' = Some h
    /\ (0 < h)%Qc /\ (h <= ofZ 1000)%Qc.
Proof.
  destruct (createMesh_skirtHeight (sampleTile Uint8Array 15) unitTilingScheme
              0 0 2 (num 1) true (ofZ 100))
    as (this' & h & Hc & Hs & _ & Hpos & Hle & _);
    [reflexivity | reflexivity | lia |].
  exists this', h. repeat split; assumption.
Defined.




